(** * smart-alert-server: the alert aggregation and retention functions

    A shallow embedding of [functions/main.py]: the ingestion trigger
    [categorize_and_store_alert], the retention sweep [hourly_cleanup_http]
    and the two manual purge callables [delete_alerts_by_location] and
    [delete_alert_by_phenomenon_and_location], over a model of the
    Firebase Realtime Database tree they read and write.

    Python values and database values share one type, [json].  Database
    calls are the constructors of a small program type, [prog]; a program
    is run against a database either in one piece ([run]) or one database
    call at a time ([step]), which is what two function instances working
    on the same database do to each other.  Logging and printing are left
    out. *)

From Stdlib Require Import List String Ascii Bool ZArith QArith Qround Qabs Qpower.
From Stdlib Require Import Lia Lqa.
Import ListNotations.
Local Open Scope string_scope.
Local Open Scope Z_scope.

Set Implicit Arguments.
Set Warnings "-register-all".

(** ** Values *)

(** Python's [None], [bool], [int], [float], [str] and [dict]; the same
    type is what the database stores at a node.  A float is carried as the
    rational it stands for, and every float operation rounds its exact
    result to binary64 ([Float.round]); the coordinates of the examples
    are written in decimal and take part in no arithmetic.  Lists (which
    the database only produces for objects keyed 0..n) are not modelled. *)
Inductive json : Type :=
| JNull
| JBool (b : bool)
| JInt (z : Z)
| JFloat (q : Q)
| JStr (s : string)
| JObj (kvs : list (string * json)).

(** The exceptions the functions can meet. *)
Inductive exn : Type :=
| KeyError
| TypeError
| AttributeError
| ValueError
| IndexError
| OverflowError
| OtherError                    (* raised by a collaborator outside the repository *)
| HTTPException (code : Z).     (* flask.abort *)

Inductive result (A : Type) : Type :=
| Ok (a : A)
| Err (e : exn).
Arguments Ok {A} a.
Arguments Err {A} e.

Definition rbind {A B} (r : result A) (f : A -> result B) : result B :=
  match r with
  | Ok a => f a
  | Err e => Err e
  end.

(** ** Dictionaries as association lists

    A dict read from the database keeps the order of its keys; iteration
    ([.items()]) follows the list. *)

Fixpoint assoc (k : string) (kvs : list (string * json)) : option json :=
  match kvs with
  | [] => None
  | (k', v) :: rest => if String.eqb k k' then Some v else assoc k rest
  end.

Fixpoint update (k : string) (v : json) (kvs : list (string * json))
  : list (string * json) :=
  match kvs with
  | [] => [(k, v)]
  | (k', v') :: rest =>
      if String.eqb k k' then (k, v) :: rest else (k', v') :: update k v rest
  end.

Fixpoint remove_key (k : string) (kvs : list (string * json))
  : list (string * json) :=
  match kvs with
  | [] => []
  | (k', v') :: rest =>
      if String.eqb k k' then remove_key k rest else (k', v') :: remove_key k rest
  end.

Definition keys (kvs : list (string * json)) : list string := map fst kvs.

Definition has_key (k : string) (kvs : list (string * json)) : bool :=
  match assoc k kvs with
  | Some _ => true
  | None => false
  end.

Definition children (t : json) : list (string * json) :=
  match t with
  | JObj kvs => kvs
  | _ => []
  end.

(** ** Binary64 floats

    Python's [float] is IEEE 754 binary64: 53 significant bits, results
    rounded to the nearest representable number, ties to the even
    significand.  A float is carried as the rational it stands for;
    [round] is the rounding of an exact result.  The exponent is bounded
    below (subnormals) and not above: a result of magnitude [2^1024] or
    more, which the hardware gives as an infinity, keeps its sign and is
    no smaller here, and [overflows] tells where Python raises instead. *)

Module Float.

Definition pow2 (e : Z) : Q := (2 ^ e)%Q.

(** The nearest integer, ties to the even one. *)
Definition round_half_even (y : Q) : Z :=
  let f := Qfloor y in
  match (y - inject_Z f ?= 1 # 2)%Q with
  | Lt => f
  | Gt => f + 1
  | Eq => if Z.even f then f else f + 1
  end.

(** The binade of a positive number: the [k] with [2^k <= a < 2^(k+1)]. *)
Definition ilog2 (a : Q) : Z :=
  let k := Z.log2 (Qnum a) - Z.log2 (Zpos (Qden a)) in
  if Qle_bool (pow2 k) a then k else k - 1.

(** The exponent of the last of the 53 bits. *)
Definition exponent (x : Q) : Z := Z.max (ilog2 (Qabs x) - 52) (-1074).

Definition round (x : Q) : Q :=
  if Qeq_bool x 0 then 0%Q
  else let e := exponent x in
       Qred (inject_Z (round_half_even (x * pow2 (- e))) * pow2 e).

(** Too large for a float. *)
Definition overflows (x : Q) : bool := Qle_bool (pow2 1024) (Qabs x).

End Float.

(** ** The Python operations the functions use *)

Module Py.

(** Truth value of an object, as [if x:] and [x or y] test it. *)
Definition truthy (v : json) : bool :=
  match v with
  | JNull => false
  | JBool b => b
  | JInt z => negb (z =? 0)%Z
  | JFloat q => negb (Qeq_bool q 0)
  | JStr s => negb (String.eqb s "")
  | JObj kvs => match kvs with [] => false | _ => true end
  end.

(** [a or b] *)
Definition or_ (a b : json) : json := if truthy a then a else b.

Fixpoint prefix_of (p s : string) : bool :=
  match p, s with
  | EmptyString, _ => true
  | String a p', String b s' => Ascii.eqb a b && prefix_of p' s'
  | String _ _, EmptyString => false
  end.

(** [p in s] on two strings *)
Fixpoint substring_of (p s : string) : bool :=
  prefix_of p s ||
  match s with
  | EmptyString => false
  | String _ s' => substring_of p s'
  end.

(** [key in container].  A dict holds string keys only, so a hashable
    key of another type is not in it; a dict used as a key is
    unhashable. *)
Definition contains (key container : json) : result bool :=
  match container with
  | JObj kvs =>
      match key with
      | JStr s => Ok (has_key s kvs)
      | JObj _ => Err TypeError
      | _ => Ok false
      end
  | JStr s =>
      match key with
      | JStr p => Ok (substring_of p s)
      | _ => Err TypeError
      end
  | _ => Err TypeError
  end.

(** [all(key in container for key in ks)]: stops at the first miss. *)
Fixpoint all_in (ks : list string) (container : json) : result bool :=
  match ks with
  | [] => Ok true
  | k :: rest =>
      match contains (JStr k) container with
      | Ok true => all_in rest container
      | Ok false => Ok false
      | Err e => Err e
      end
  end.

(** The character of [s] at position [n], as a one-character string. *)
Fixpoint char_at (n : nat) (s : string) : option string :=
  match s, n with
  | EmptyString, _ => None
  | String a _, O => Some (String a EmptyString)
  | String _ s', S n' => char_at n' s'
  end.

Definition str_index (s : string) (i : Z) : result json :=
  let len := Z.of_nat (String.length s) in
  let j := if (i <? 0)%Z then (i + len)%Z else i in
  if (j <? 0)%Z then Err IndexError
  else match char_at (Z.to_nat j) s with
       | Some c => Ok (JStr c)
       | None => Err IndexError
       end.

(** [container[key]] *)
Definition getitem (container key : json) : result json :=
  match container with
  | JObj kvs =>
      match key with
      | JStr s => match assoc s kvs with
                  | Some v => Ok v
                  | None => Err KeyError
                  end
      | JObj _ => Err TypeError
      | _ => Err KeyError
      end
  | JStr s =>
      match key with
      | JInt i => str_index s i
      | JBool b => str_index s (Z.b2z b)
      | _ => Err TypeError
      end
  | _ => Err TypeError
  end.

(** [d.get(key, default)] with a string key; only a dict has the method. *)
Definition get (d : json) (key : string) (default : json) : result json :=
  match d with
  | JObj kvs => match assoc key kvs with
                | Some v => Ok v
                | None => Ok default
                end
  | _ => Err AttributeError
  end.

(** [d.items()] *)
Definition items (d : json) : result (list (string * json)) :=
  match d with
  | JObj kvs => Ok kvs
  | _ => Err AttributeError
  end.

(** [len(x)] *)
Definition len (x : json) : result Z :=
  match x with
  | JObj kvs => Ok (Z.of_nat (List.length kvs))
  | JStr s => Ok (Z.of_nat (String.length s))
  | _ => Err TypeError
  end.

(** [x + n] and [x - n] for a small integer literal [n]; [bool] is an
    [int], and a float gives a float. *)
Definition add_int (x : json) (n : Z) : result json :=
  match x with
  | JInt z => Ok (JInt (z + n))
  | JBool b => Ok (JInt (Z.b2z b + n))
  | JFloat q => Ok (JFloat (Float.round (q + inject_Z n)))
  | _ => Err TypeError
  end.

Definition sub_int (x : json) (n : Z) : result json :=
  match x with
  | JInt z => Ok (JInt (z - n))
  | JBool b => Ok (JInt (Z.b2z b - n))
  | JFloat q => Ok (JFloat (Float.round (q - inject_Z n)))
  | _ => Err TypeError
  end.

(** [z / n] on two integers, [n] positive: the correctly rounded
    quotient, or OverflowError when it is too large for a float. *)
Definition int_truediv (z n : Z) : result Q :=
  let q := Float.round (inject_Z z / inject_Z n) in
  if Float.overflows q then Err OverflowError else Ok q.

(** [x / n] (true division) for a positive integer literal [n]: always
    a float. *)
Definition truediv_int (x : json) (n : Z) : result Q :=
  match x with
  | JInt z => int_truediv z n
  | JBool b => int_truediv (Z.b2z b) n
  | JFloat q => Ok (Float.round (q / inject_Z n))
  | _ => Err TypeError
  end.

(** [x - y] on two floats. *)
Definition sub_float (x y : Q) : Q := Float.round (x - y).

(** [max(0, x)] on a number: [x] when it is greater than [0], else the
    first argument. *)
Definition max0 (x : json) : json :=
  match x with
  | JInt z => if (0 <? z)%Z then JInt z else JInt 0
  | JFloat q => if Qle_bool q 0 then JInt 0 else JFloat q
  | JBool b => if b then JBool true else JInt 0
  | _ => x
  end.

(** [x == 0] *)
Definition eq0 (x : json) : bool :=
  match x with
  | JInt z => (z =? 0)%Z
  | JFloat q => Qeq_bool q 0
  | JBool b => negb b
  | _ => false
  end.

End Py.

(** ** The database tree

    The Realtime Database is one JSON tree.  It stores no [null] and no
    empty object: writing [null] at a path deletes it, and a node whose
    last child goes away goes away with it. *)

Module Tree.

Definition is_empty (t : json) : bool :=
  match t with
  | JNull => true
  | JObj [] => true
  | _ => false
  end.

Definition mk_obj (kvs : list (string * json)) : json :=
  match kvs with
  | [] => JNull
  | _ => JObj kvs
  end.

(** What the database keeps of a written value: [null] members are
    dropped, at every depth, and an object left without members is
    [null]. *)
Fixpoint normalise (v : json) : json :=
  match v with
  | JObj kvs =>
      mk_obj
        ((fix go (l : list (string * json)) : list (string * json) :=
            match l with
            | [] => []
            | (k, c) :: rest =>
                let c' := normalise c in
                if is_empty c' then go rest else (k, c') :: go rest
            end) kvs)
  | _ => v
  end.

Definition child (k : string) (t : json) : json :=
  match assoc k (children t) with
  | Some c => c
  | None => JNull
  end.

(** The value at a path; [JNull] where there is none. *)
Fixpoint get_path (p : list string) (t : json) : json :=
  match p with
  | [] => t
  | k :: p' => get_path p' (child k t)
  end.

(** Replace the value at a path by [v] (already normalised).  Missing
    nodes on the way are created and a leaf on the way is replaced by an
    object, unless [v] is empty: then nothing is created, the node at the
    path is removed and so is every ancestor this leaves without
    children. *)
Fixpoint set_path (p : list string) (v : json) (t : json) : json :=
  match p with
  | [] => v
  | k :: p' =>
      let c' := set_path p' v (child k t) in
      if is_empty c' then
        match t with
        | JObj kvs => mk_obj (remove_key k kvs)
        | _ => t
        end
      else JObj (update k c' (children t))
  end.

(** The members the database keeps of a written dict. *)
Fixpoint norm_members (l : list (string * json)) : list (string * json) :=
  match l with
  | [] => []
  | (k, c) :: rest =>
      if is_empty (normalise c) then norm_members rest
      else (k, normalise c) :: norm_members rest
  end.

(** Two paths that part before either ends. *)
Fixpoint diverge (p q : list string) : bool :=
  match p, q with
  | k1 :: p', k2 :: q' => if String.eqb k1 k2 then diverge p' q' else true
  | _, _ => false
  end.

End Tree.

(** ** Database references

    [db.reference(path)] of the Admin SDK: the path must not contain one
    of the characters [[].?#$]; it is cut at every [/] and empty segments
    are dropped. *)

Module Path.

Definition illegal (a : ascii) : bool :=
  existsb (Ascii.eqb a) (list_ascii_of_string "[].?#$").

Fixpoint has_illegal (s : string) : bool :=
  match s with
  | EmptyString => false
  | String a s' => illegal a || has_illegal s'
  end.

Definition slash : ascii := "/"%char.

(** [s.split('/')] *)
Fixpoint split (s : string) : list string :=
  match s with
  | EmptyString => [EmptyString]
  | String a s' =>
      if Ascii.eqb a slash then EmptyString :: split s'
      else match split s' with
           | seg :: segs => String a seg :: segs
           | [] => [String a EmptyString]
           end
  end.

Definition nonempty (s : string) : bool := negb (String.eqb s "").

Definition parse (path : string) : result (list string) :=
  if has_illegal path then Err ValueError
  else Ok (filter nonempty (split path)).

Fixpoint has_slash (s : string) : bool :=
  match s with
  | EmptyString => false
  | String a s' => Ascii.eqb a slash || has_slash s'
  end.

(** A string that is one segment of a path: what the database accepts
    as a key. *)
Definition valid_key (k : string) : bool :=
  nonempty k && negb (has_slash k) && negb (has_illegal k).

(** Keys joined by [/], as the f-strings of the source build a path. *)
Fixpoint join (ks : list string) : string :=
  match ks with
  | [] => ""
  | [k] => k
  | k :: rest => k ++ String slash (join rest)
  end.

End Path.

(** ** Programs over the database

    A function body is a tree of database calls: [DbGet] is
    [ref.get()], [DbSet] is [ref.set(value)], [DbDelete] is
    [ref.delete()], each on a parsed reference.  Everything between two
    calls is pure and lives in the continuations. *)

Inductive prog (A : Type) : Type :=
| Ret (a : A)
| Raise (e : exn)
| DbGet (ref : list string) (k : json -> prog A)
| DbSet (ref : list string) (v : json) (k : prog A)
| DbDelete (ref : list string) (k : prog A).
Arguments Ret {A} a.
Arguments Raise {A} e.
Arguments DbGet {A} ref k.
Arguments DbSet {A} ref v k.
Arguments DbDelete {A} ref k.

Fixpoint bind {A B} (p : prog A) (f : A -> prog B) : prog B :=
  match p with
  | Ret a => f a
  | Raise e => Raise e
  | DbGet r k => DbGet r (fun v => bind (k v) f)
  | DbSet r v k => DbSet r v (bind k f)
  | DbDelete r k => DbDelete r (bind k f)
  end.

(** [try: p  except Exception as e: h e] *)
Fixpoint try_except {A} (p : prog A) (h : exn -> prog A) : prog A :=
  match p with
  | Ret a => Ret a
  | Raise e => h e
  | DbGet r k => DbGet r (fun v => try_except (k v) h)
  | DbSet r v k => DbSet r v (try_except k h)
  | DbDelete r k => DbDelete r (try_except k h)
  end.

Definition lift {A} (r : result A) : prog A :=
  match r with
  | Ok a => Ret a
  | Err e => Raise e
  end.

Declare Scope prog_scope.
Delimit Scope prog_scope with prog.
Notation "x <- p ;; q" := (bind p (fun x => q))
  (at level 61, p at next level, right associativity) : prog_scope.
Notation "p ;; q" := (bind p (fun _ => q))
  (at level 61, right associativity) : prog_scope.
Local Open Scope prog_scope.

(** [db.reference(path)] *)
Definition reference (path : string) : prog (list string) :=
  lift (Path.parse path).

(** [ref.get()] *)
Definition ref_get (ref : list string) : prog json := DbGet ref Ret.

(** [ref.set(value)]: the SDK refuses [None]. *)
Definition ref_set (ref : list string) (value : json) : prog unit :=
  match value with
  | JNull => Raise ValueError
  | _ => DbSet ref value (Ret tt)
  end.

(** [ref.delete()] *)
Definition ref_delete (ref : list string) : prog unit := DbDelete ref (Ret tt).

(** *** Running a program *)

Inductive db_call : Type :=
| CallGet (ref : list string)
| CallSet (ref : list string) (v : json)
| CallDelete (ref : list string).

(** The database and the calls made on it so far, oldest first. *)
Record world : Type := World { db : json; calls : list db_call }.

Definition do_get (ref : list string) (w : world) : world :=
  {| db := db w; calls := calls w ++ [CallGet ref] |}.

Definition do_set (ref : list string) (v : json) (w : world) : world :=
  {| db := Tree.set_path ref (Tree.normalise v) (db w);
     calls := calls w ++ [CallSet ref v] |}.

Definition do_delete (ref : list string) (w : world) : world :=
  {| db := Tree.set_path ref JNull (db w);
     calls := calls w ++ [CallDelete ref] |}.

(** A whole program, with no other writer in between. *)
Fixpoint run {A} (p : prog A) (w : world) : world * result A :=
  match p with
  | Ret a => (w, Ok a)
  | Raise e => (w, Err e)
  | DbGet r k => run (k (Tree.get_path r (db w))) (do_get r w)
  | DbSet r v k => run k (do_set r v w)
  | DbDelete r k => run k (do_delete r w)
  end.

(** One database call of a program; a finished program stays put. *)
Definition step {A} (p : prog A) (w : world) : prog A * world :=
  match p with
  | DbGet r k => (k (Tree.get_path r (db w)), do_get r w)
  | DbSet r v k => (k, do_set r v w)
  | DbDelete r k => (k, do_delete r w)
  | _ => (p, w)
  end.

(** Two programs on one database: [sched] says whose call comes next
    ([true] for the first program); when the schedule is used up the first
    program runs to its end, then the second. *)
Fixpoint interleave {A B} (sched : list bool) (p1 : prog A) (p2 : prog B)
    (w : world) : world * result A * result B :=
  match sched with
  | [] =>
      let '(w1, r1) := run p1 w in
      let '(w2, r2) := run p2 w1 in
      (w2, r1, r2)
  | true :: sched' =>
      let '(p1', w') := step p1 w in interleave sched' p1' p2 w'
  | false :: sched' =>
      let '(p2', w') := step p2 w in interleave sched' p1 p2' w'
  end.

(** ** The functions of [functions/main.py] *)

Definition agg_root : string := "alertsByPhenomenonAndLocationLast24h".
Definition count_root : string := "alertsByPhenomenonAndLocationCountLast24h".

(** [event] of a database trigger: the data after the write and the
    [formID] wildcard of the trigger path. *)
Record Event : Type := { after : json; formID : string }.

(** [req] of the HTTP function and of a callable function. *)
Record Request : Type := { method : string }.
Record CallableRequest : Type := { data : json }.

Section Functions.

(** What the repository takes from outside it. *)

(** The text an f-string puts for a value that is not a [str]. *)
Variable py_format : json -> string.
(** The geocoding request of [get_location_name_and_bounds] and the
    reading of its answer: the place name and
    [geometry.get("bounds") or geometry.get("viewport")]. *)
Variable geocode : json -> json -> result (string * json).
(** [hashlib.sha256(s.encode()).hexdigest()[:16]] *)
Variable sha256_hex16 : string -> string.
(** Lines 113-116: the local "%H:%M" text of a time in seconds. *)
Variable clock_text : Q -> result string.

(** [f"{v}"] *)
Definition fmt (v : json) : string :=
  match v with
  | JStr s => s
  | _ => py_format v
  end.

Definition get_location_name_and_bounds (latitude longitude : json)
  : result (string * json) :=
  rbind (geocode latitude longitude) (fun nb =>
    let '(location_name, bounds) := nb in
    if Py.truthy bounds then Ok (location_name, bounds)
    else Err ValueError).

Definition get_short_place_id (place : string) (bounds : json) : result string :=
  rbind (Py.getitem bounds (JStr "northeast")) (fun ne1 =>
  rbind (Py.getitem ne1 (JStr "lat")) (fun ne_lat =>
  rbind (Py.getitem bounds (JStr "northeast")) (fun ne2 =>
  rbind (Py.getitem ne2 (JStr "lng")) (fun ne_lng =>
  rbind (Py.getitem bounds (JStr "southwest")) (fun sw1 =>
  rbind (Py.getitem sw1 (JStr "lat")) (fun sw_lat =>
  rbind (Py.getitem bounds (JStr "southwest")) (fun sw2 =>
  rbind (Py.getitem sw2 (JStr "lng")) (fun sw_lng =>
    let key_string :=
      place ++ "_" ++ fmt ne_lat ++ "_" ++ fmt ne_lng ++ "_"
            ++ fmt sw_lat ++ "_" ++ fmt sw_lng in
    Ok (sha256_hex16 key_string))))))))).

(** *** [categorize_and_store_alert] *)

(** What lines 105-126 compute before the database is touched. *)
Record Prepared : Type :=
  { p_phenomenon : json; p_place_id : string; p_bounds : json; p_data : json }.

Definition prepare_alert (alert_form : json) : result Prepared :=
  rbind (Py.getitem alert_form (JStr "location")) (fun loc1 =>
  rbind (Py.getitem loc1 (JStr "latitude")) (fun latitude =>
  rbind (Py.getitem alert_form (JStr "location")) (fun loc2 =>
  rbind (Py.getitem loc2 (JStr "longitude")) (fun longitude =>
  rbind (get_location_name_and_bounds latitude longitude) (fun pb =>
  let '(place, bounds) := pb in
  rbind (get_short_place_id place bounds) (fun place_id =>
  rbind (Py.getitem alert_form (JStr "criticalWeatherPhenomenon")) (fun phenomenon =>
  rbind (Py.getitem alert_form (JStr "timestamp")) (fun ts =>
  rbind (Py.truediv_int ts 1000) (fun seconds =>
  rbind (clock_text seconds) (fun time =>
  rbind (Py.get alert_form "location" JNull) (fun d_location =>
  rbind (Py.get alert_form "timestamp" JNull) (fun d_timestamp =>
  rbind (Py.get alert_form "imageURL" JNull) (fun d_image =>
  rbind (Py.get alert_form "criticalLevel" JNull) (fun d_level =>
  rbind (Py.get alert_form "message" JNull) (fun d_message =>
    Ok {| p_phenomenon := phenomenon;
          p_place_id := place_id;
          p_bounds := bounds;
          p_data := JObj [("location", d_location);
                          ("timestamp", d_timestamp);
                          ("time", JStr time);
                          ("imageURL", d_image);
                          ("criticalLevel", d_level);
                          ("message", d_message)] |}))))))))))))))).

(** Lines 128-157: the member, the bounds of a new place, the counter. *)
Definition store_alert (phenomenon : json) (place_id form_id : string)
    (bounds essential_data : json) : prog unit :=
  ref <- reference (agg_root ++ "/" ++ fmt phenomenon ++ "/" ++ place_id) ;;
  place_exists <- ref_get ref ;;
  (if Py.truthy place_exists then
     ref <- reference (agg_root ++ "/" ++ fmt phenomenon ++ "/" ++ place_id
                         ++ "/alertForms/" ++ form_id) ;;
     ref_set ref essential_data
   else
     ref <- reference (agg_root ++ "/" ++ fmt phenomenon ++ "/" ++ place_id
                         ++ "/alertForms/" ++ form_id) ;;
     ref_set ref essential_data ;;
     ref <- reference (agg_root ++ "/" ++ fmt phenomenon ++ "/" ++ place_id
                         ++ "/bounds") ;;
     ref_set ref bounds) ;;
  counter_ref <- reference (count_root ++ "/" ++ fmt phenomenon ++ "/" ++ place_id
                              ++ "/counter") ;;
  got <- ref_get counter_ref ;;
  let counter := Py.or_ got (JInt 0) in
  counter <- lift (Py.add_int counter 1) ;;
  ref_set counter_ref counter.

Definition categorize_and_store_alert (event : Event) : prog unit :=
  let alert_form := after event in
  valid <- lift (Py.all_in ["location"; "criticalWeatherPhenomenon"] alert_form) ;;
  if negb valid then Ret tt
  else
    try_except
      (p <- lift (prepare_alert alert_form) ;;
       store_alert (p_phenomenon p) (p_place_id p) (formID event)
                   (p_bounds p) (p_data p))
      (fun _ => Ret tt).

(** *** [hourly_cleanup_http] *)

(** Lines 201-208 and 276-283: read the counter at [counter_path],
    take one off, and delete [place_path] when nothing is left. *)
Definition decrement_counter (counter_path place_path : string) : prog unit :=
  counter_ref <- reference counter_path ;;
  got <- ref_get counter_ref ;;
  let counter := Py.or_ got (JInt 0) in
  less <- lift (Py.sub_int counter 1) ;;
  let counter := Py.max0 less in
  if Py.eq0 counter then
    ref <- reference place_path ;;
    ref_delete ref
  else ref_set counter_ref counter.

(** Lines 198-208: what the sweep does to an alert it found too old. *)
Definition sweep_remove (phenomenon place alert_id : string) : prog unit :=
  ref <- reference (agg_root ++ "/" ++ phenomenon ++ "/" ++ place
                      ++ "/alertForms/" ++ alert_id) ;;
  ref_delete ref ;;
  decrement_counter (count_root ++ "/" ++ phenomenon ++ "/" ++ place ++ "/counter")
                    (count_root ++ "/" ++ phenomenon ++ "/" ++ place).

(** [for alert_id, alert_data in alerts.items()], with the running
    [num_of_deleted_alerts]. *)
Fixpoint sweep_alerts (current_timestamp : Q) (phenomenon place : string)
    (alerts : list (string * json)) (num_of_deleted_alerts : Z) : prog Z :=
  match alerts with
  | [] => Ret num_of_deleted_alerts
  | (alert_id, alert_data) :: rest =>
      ts <- lift (Py.getitem alert_data (JStr "timestamp")) ;;
      if Py.truthy ts then
        alert_timestamp_seconds <- lift (Py.truediv_int ts 1000) ;;
        if Qle_bool 86400 (Py.sub_float current_timestamp alert_timestamp_seconds) then
          let num_of_deleted_alerts := num_of_deleted_alerts + 1 in
          sweep_remove phenomenon place alert_id ;;
          sweep_alerts current_timestamp phenomenon place rest num_of_deleted_alerts
        else
          sweep_alerts current_timestamp phenomenon place rest num_of_deleted_alerts
      else
        sweep_alerts current_timestamp phenomenon place rest num_of_deleted_alerts
  end.

(** [for place, alerts in places.items()] *)
Fixpoint sweep_places (current_timestamp : Q) (phenomenon : string)
    (places : list (string * json)) (num_of_deleted_alerts : Z) : prog Z :=
  match places with
  | [] => Ret num_of_deleted_alerts
  | (place, alerts) :: rest =>
      items <- lift (Py.items alerts) ;;
      n <- sweep_alerts current_timestamp phenomenon place items
                        num_of_deleted_alerts ;;
      sweep_places current_timestamp phenomenon rest n
  end.

(** [for phenomenon, places in phenomena.items()] *)
Fixpoint sweep_phenomena (current_timestamp : Q)
    (phenomena : list (string * json)) (num_of_deleted_alerts : Z) : prog Z :=
  match phenomena with
  | [] => Ret num_of_deleted_alerts
  | (phenomenon, places) :: rest =>
      items <- lift (Py.items places) ;;
      n <- sweep_places current_timestamp phenomenon items
                        num_of_deleted_alerts ;;
      sweep_phenomena current_timestamp rest n
  end.

(** [now] is the reading of [datetime.datetime.now().timestamp()]. *)
Definition hourly_cleanup_http (req : Request) (now : Q) : prog (string * Z) :=
  if negb (String.eqb (method req) "POST") then Raise (HTTPException 405)
  else
    let current_timestamp := now in
    ref <- reference agg_root ;;
    got <- ref_get ref ;;
    let phenomena := Py.or_ got (JObj []) in
    _ <- lift (Py.len phenomena) ;;
    items <- lift (Py.items phenomena) ;;
    num_of_deleted_alerts <- sweep_phenomena current_timestamp items 0 ;;
    last_cleanup_ref <- reference "lastCleanupTimestamp" ;;
    ref_set last_cleanup_ref (JFloat current_timestamp) ;;
    num_of_deleted_alerts_ref <- reference "lastNumOfDeletedAlerts" ;;
    ref_set num_of_deleted_alerts_ref (JInt num_of_deleted_alerts) ;;
    Ret ("Cleanup completed", 200).

(** *** The purge callables *)

Definition success : json := JObj [("success", JBool true)].
Definition failure (message : string) : json :=
  JObj [("success", JBool false); ("message", JStr message)].

Definition delete_alerts_by_location (req : CallableRequest) : prog json :=
  try_except
    (phenomenon <- lift (Py.get (data req) "phenomenon" (JStr "")) ;;
     place <- lift (Py.get (data req) "place" (JStr "")) ;;
     ref <- reference agg_root ;;
     got <- ref_get ref ;;
     let phenomena := Py.or_ got (JObj []) in
     known <- lift (Py.contains phenomenon phenomena) ;;
     if known then
       places <- lift (Py.getitem phenomena phenomenon) ;;
       known <- lift (Py.contains place places) ;;
       if known then
         ref <- reference (agg_root ++ "/" ++ fmt phenomenon ++ "/" ++ fmt place) ;;
         ref_delete ref ;;
         ref <- reference (count_root ++ "/" ++ fmt phenomenon ++ "/" ++ fmt place) ;;
         ref_delete ref ;;
         Ret success
       else Ret (failure "Place not found")
     else Ret (failure "Phenomenon not found"))
    (fun _ => Ret (failure "An unexpected error occurred")).

Definition delete_alert_by_phenomenon_and_location (req : CallableRequest)
  : prog json :=
  try_except
    (phenomenon <- lift (Py.get (data req) "phenomenon" (JStr "")) ;;
     place <- lift (Py.get (data req) "place" (JStr "")) ;;
     alert_id <- lift (Py.get (data req) "alertID" (JStr "")) ;;
     ref <- reference agg_root ;;
     got <- ref_get ref ;;
     let phenomena := Py.or_ got (JObj []) in
     known <- lift (Py.contains phenomenon phenomena) ;;
     if known then
       places <- lift (Py.getitem phenomena phenomenon) ;;
       known <- lift (Py.contains place places) ;;
       if known then
         places <- lift (Py.getitem phenomena phenomenon) ;;
         alerts <- lift (Py.getitem places place) ;;
         known <- lift (Py.contains alert_id alerts) ;;
         if known then
           ref <- reference (agg_root ++ "/" ++ fmt phenomenon ++ "/" ++ fmt place
                               ++ "/" ++ fmt alert_id) ;;
           ref_delete ref ;;
           decrement_counter
             (count_root ++ "/" ++ fmt phenomenon ++ "/" ++ fmt place)
             (count_root ++ "/" ++ fmt phenomenon ++ "/" ++ fmt place) ;;
           Ret success
         else Ret (failure "Alert not found")
       else Ret (failure "Place not found")
     else Ret (failure "Phenomenon not found"))
    (fun _ => Ret (failure "An unexpected error occurred")).

End Functions.

(** * The other functions of [functions/main.py] *)

(** ** [user_is_employee] *)

(** [s.endswith(suffix)] *)
Fixpoint ends_with (s suffix : string) : bool :=
  String.eqb s suffix
  || match s with
     | EmptyString => false
     | String _ s' => ends_with s' suffix
     end.

(** [email.endswith('civilprotection.gr')]; only a [str] has the method. *)
Definition email_of_employee (email : json) : result bool :=
  match email with
  | JStr s => Ok (ends_with s "civilprotection.gr")
  | _ => Err AttributeError
  end.

(** [req] of the callable: [auth] is [None] for a caller who is not signed
    in, and holds the token's claims otherwise. *)
Record AuthRequest : Type := { auth_token : option json }.

(** The three [except] clauses print and fall through: the function then
    returns [None]. *)
Definition user_is_employee (req : AuthRequest) : json :=
  let body :=
    rbind (match auth_token req with
           | Some token => Ok token
           | None => Err AttributeError
           end) (fun token =>
    rbind (Py.get token "email" (JStr "")) (fun email =>
    rbind (email_of_employee email) (fun is_employee =>
      if is_employee then Ok (JObj [("isCP", JBool true)])
      else Ok (JObj [("isCP", JBool false)])))) in
  match body with
  | Ok answer => answer
  | Err _ => JNull
  end.

(** ** [handle_notification_upload] *)

Definition stats_root : string := "statisticsPerYear".

(** [calendar.month_name[i]], with the English names of the default
    locale: thirteen entries, the first one empty, negative indices
    counting from the end. *)
Definition month_names : list string :=
  [""; "January"; "February"; "March"; "April"; "May"; "June"; "July";
   "August"; "September"; "October"; "November"; "December"].

Definition month_name (i : Z) : result string :=
  let j := if (i <? 0)%Z then (i + 13)%Z else i in
  if (j <? 0)%Z then Err IndexError
  else match nth_error month_names (Z.to_nat j) with
       | Some name => Ok name
       | None => Err IndexError
       end.

(** Lines 309-312 and 315-318: read the counter, add one, write it. *)
Definition increment_counter (path : string) : prog unit :=
  counter_ref <- reference path ;;
  got <- ref_get counter_ref ;;
  let counter := Py.or_ got (JInt 0) in
  counter <- lift (Py.add_int counter 1) ;;
  ref_set counter_ref counter.

Section Statistics.
Variable py_format : json -> string.
(** Year and month of [datetime.datetime.fromtimestamp(seconds)], in the
    local time of the function. *)
Variable local_date : Q -> result (Z * Z).

(** [notification] is [event.data.after]; nothing else of the event is
    used. *)
Definition handle_notification_upload (notification : json) : prog unit :=
  ts <- lift (Py.getitem notification (JStr "timestamp")) ;;
  seconds <- lift (Py.truediv_int ts 1000) ;;
  date <- lift (local_date seconds) ;;
  let year := fst date in
  month <- lift (month_name (snd date)) ;;
  phenomenon <- lift (Py.getitem notification (JStr "criticalWeatherPhenomenon")) ;;
  increment_counter (stats_root ++ "/" ++ fmt py_format (JInt year)
                       ++ "/sumOfReports/" ++ fmt py_format phenomenon) ;;
  increment_counter (stats_root ++ "/" ++ fmt py_format (JInt year)
                       ++ "/sumPerMonth/" ++ month ++ "/" ++ fmt py_format phenomenon).

End Statistics.

(** The two counters of a year, a month and a phenomenon. *)
Definition reports_of_year (s : json) (year phenomenon : string) : json :=
  Tree.get_path [stats_root; year; "sumOfReports"; phenomenon] s.

Definition reports_of_month (s : json) (year month phenomenon : string) : json :=
  Tree.get_path [stats_root; year; "sumPerMonth"; month; phenomenon] s.

(** ** [get_location_name_and_bounds]: reading the geocoder's answer

    The answer of the geocoding service holds lists, which the values of
    the database do not: it has a value type of its own.  The request
    itself is outside the repository; what follows is the function's body
    from the status code and the decoded answer on (lines 66-88). *)

Module Geo.

Inductive pyval : Type :=
| PNone
| PBool (b : bool)
| PInt (z : Z)
| PFloat (q : Q)
| PStr (s : string)
| PList (l : list pyval)
| PDict (kvs : list (string * pyval)).

Fixpoint lookup (k : string) (kvs : list (string * pyval)) : option pyval :=
  match kvs with
  | [] => None
  | (k', v) :: rest => if String.eqb k k' then Some v else lookup k rest
  end.

Definition truthy (v : pyval) : bool :=
  match v with
  | PNone => false
  | PBool b => b
  | PInt z => negb (z =? 0)%Z
  | PFloat q => negb (Qeq_bool q 0)
  | PStr s => negb (String.eqb s "")
  | PList l => match l with [] => false | _ => true end
  | PDict kvs => match kvs with [] => false | _ => true end
  end.

(** [a or b] *)
Definition or_ (a b : pyval) : pyval := if truthy a then a else b.

(** [container[key]] with a string key *)
Definition item (container : pyval) (key : string) : result pyval :=
  match container with
  | PDict kvs => match lookup key kvs with
                 | Some v => Ok v
                 | None => Err KeyError
                 end
  | _ => Err TypeError
  end.

(** [container[i]] with an integer index *)
Definition at_index (container : pyval) (i : Z) : result pyval :=
  match container with
  | PList l =>
      let j := if (i <? 0)%Z then (i + Z.of_nat (List.length l))%Z else i in
      if (j <? 0)%Z then Err IndexError
      else match nth_error l (Z.to_nat j) with
           | Some v => Ok v
           | None => Err IndexError
           end
  | PStr s => match Py.str_index s i with
              | Ok (JStr c) => Ok (PStr c)
              | Ok _ => Err IndexError
              | Err e => Err e
              end
  | PDict _ => Err KeyError
  | _ => Err TypeError
  end.

(** [d.get(key)]; only a dict has the method. *)
Definition get (d : pyval) (key : string) : result pyval :=
  match d with
  | PDict kvs => match lookup key kvs with
                 | Some v => Ok v
                 | None => Ok PNone
                 end
  | _ => Err AttributeError
  end.

(** [v == s] for a string literal [s] *)
Definition is_str (s : string) (v : pyval) : bool :=
  match v with
  | PStr t => String.eqb t s
  | _ => false
  end.

(** [s in container] for a string literal [s] *)
Definition str_in (s : string) (container : pyval) : result bool :=
  match container with
  | PList l => Ok (existsb (is_str s) l)
  | PDict kvs => Ok (match lookup s kvs with Some _ => true | None => false end)
  | PStr t => Ok (Py.substring_of s t)
  | _ => Err TypeError
  end.

Fixpoint chars (s : string) : list pyval :=
  match s with
  | EmptyString => []
  | String a s' => PStr (String a EmptyString) :: chars s'
  end.

(** What [for x in container] goes through. *)
Definition iterate (container : pyval) : result (list pyval) :=
  match container with
  | PList l => Ok l
  | PDict kvs => Ok (map (fun kv => PStr (fst kv)) kvs)
  | PStr s => Ok (chars s)
  | _ => Err TypeError
  end.

(** [data["results"][0]] *)
Definition first_result (data : pyval) : result pyval :=
  rbind (item data "results") (fun results => at_index results 0).

(** The [for] loop of lines 71-74: the [long_name] of the first component
    whose [types] hold [neighborhood] or [locality]; [None] when the loop
    ends without [break]. *)
Fixpoint named_component (components : list pyval) : result (option pyval) :=
  match components with
  | [] => Ok None
  | component :: rest =>
      rbind (item component "types") (fun types1 =>
      rbind (str_in "neighborhood" types1) (fun is_neighborhood =>
      rbind (if is_neighborhood then Ok true
             else rbind (item component "types") (fun types2 =>
                         str_in "locality" types2)) (fun found =>
        if found then rbind (item component "long_name") (fun name => Ok (Some name))
        else named_component rest)))
  end.

(** Lines 79-84: [geometry.get("bounds") or geometry.get("viewport")],
    which must be truthy. *)
Definition pick_bounds (geometry : pyval) : result pyval :=
  rbind (get geometry "bounds") (fun bounds1 =>
  rbind (if truthy bounds1 then Ok bounds1
         else get geometry "viewport") (fun bounds =>
    if truthy bounds then Ok bounds else Err ValueError)).

(** Lines 66-88. *)
Definition read_answer (status_code : Z) (data : pyval) : result (pyval * pyval) :=
  if negb (status_code =? 200)%Z then Err ValueError
  else
    rbind (item data "status") (fun status =>
    if negb (is_str "OK" status) then
      rbind (item data "status") (fun _ => Err ValueError)
    else
      rbind (first_result data) (fun result1 =>
      rbind (item result1 "address_components") (fun components =>
      rbind (iterate components) (fun component_list =>
      rbind (named_component component_list) (fun found =>
      rbind (match found with
             | Some name => Ok name
             | None =>
                 rbind (first_result data) (fun result2 =>
                 rbind (item result2 "address_components") (fun components2 =>
                 rbind (at_index components2 2) (fun third =>
                   item third "long_name")))
             end) (fun location_name =>
      rbind (first_result data) (fun result3 =>
      rbind (item result3 "geometry") (fun geometry =>
      rbind (pick_bounds geometry) (fun bounds =>
        Ok (location_name, bounds)))))))))).

(** A component that is a dict whose [types] is a list with neither
    [neighborhood] nor [locality] in it. *)
Definition untagged (component : pyval) : bool :=
  match item component "types" with
  | Ok (PList types) =>
      negb (existsb (is_str "neighborhood") types)
      && negb (existsb (is_str "locality") types)
  | _ => false
  end.

End Geo.

(** * What the properties speak of *)

(** ** The buckets of a database *)

(** The members of a bucket and its stored counter, at the paths the
    ingestion writes. *)
Definition members (s : json) (phenomenon place : string) : list (string * json) :=
  children (Tree.get_path [agg_root; phenomenon; place; "alertForms"] s).

Definition counter_at (s : json) (phenomenon place : string) : json :=
  Tree.get_path [count_root; phenomenon; place; "counter"] s.

(** The places listed under a phenomenon in the aggregation tree. *)
Definition listed (s : json) (phenomenon place : string) : bool :=
  has_key place (children (Tree.get_path [agg_root; phenomenon] s)).

(** The number a counter node stands for; a missing counter reads as 0. *)
Definition stored_count (v : json) : option Z :=
  match v with
  | JNull => Some 0
  | JInt z => Some z
  | _ => None
  end.

(** ** The layout of the aggregation tree

    [alertsByPhenomenonAndLocationLast24h/<phenomenon>/<place>/...]: the
    root of the tree and every phenomenon under it are objects, and their
    keys are keys the database accepts. *)

Definition place_keys_ok (node : json) : bool :=
  match node with
  | JObj places => forallb (fun kv => Path.valid_key (fst kv)) places
  | _ => false
  end.

Definition phenomenon_ok (kv : string * json) : bool :=
  Path.valid_key (fst kv) && place_keys_ok (snd kv).

Definition agg_ok (node : json) : bool :=
  match node with
  | JNull => true
  | JObj phenomena => forallb phenomenon_ok phenomena
  | _ => false
  end.

Definition layout_ok (s : json) : bool := agg_ok (Tree.get_path [agg_root] s).

(** ** Counters *)

Definition positive_number (v : json) : Prop :=
  match v with
  | JInt z => 0 < z
  | JFloat q => (0 < q)%Q
  | _ => False
  end.

(** What [decrement_counter] does to a world.  Every value it writes is
    written at the counter reference, is [max(0, previous - 1)] for the
    value read there ([None] read as 0), and is a positive number.  When
    [max(0, previous - 1)] is 0 it writes nothing and deletes the place
    reference instead; when it is not 0 it does write it, and the counter
    reference then holds it.  On an integer counter [n] (a missing one
    counting as 0) that is: with [n] 2 or more the counter becomes
    [n - 1], and otherwise the place reference is deleted and nothing is
    written.  When it raises, the database is as it was. *)
Definition decrement_safe (counter_path place_path : string) (w : world) : Prop :=
  let out := run (decrement_counter counter_path place_path) w in
  (exists cs,
      calls (fst out) = (calls w ++ cs)%list
      /\ forall ref v, In (CallSet ref v) cs ->
           Path.parse counter_path = Ok ref
           /\ exists less,
                Py.sub_int (Py.or_ (Tree.get_path ref (db w)) (JInt 0)) 1 = Ok less
                /\ v = Py.max0 less /\ positive_number v)
  /\ (forall ref less place_ref,
        Path.parse counter_path = Ok ref ->
        Py.sub_int (Py.or_ (Tree.get_path ref (db w)) (JInt 0)) 1 = Ok less ->
        Py.eq0 (Py.max0 less) = true ->
        Path.parse place_path = Ok place_ref ->
        out = (do_delete place_ref (do_get ref w), Ok tt))
  /\ (forall ref less,
        Path.parse counter_path = Ok ref ->
        Py.sub_int (Py.or_ (Tree.get_path ref (db w)) (JInt 0)) 1 = Ok less ->
        Py.eq0 (Py.max0 less) = false ->
        out = (do_set ref (Py.max0 less) (do_get ref w), Ok tt)
        /\ Tree.get_path ref (db (fst out)) = Py.max0 less)
  /\ (forall ref place_ref n,
        Path.parse counter_path = Ok ref ->
        Path.parse place_path = Ok place_ref ->
        stored_count (Tree.get_path ref (db w)) = Some n ->
        snd out = Ok tt
        /\ if 2 <=? n
           then calls (fst out)
                = (calls w ++ [CallGet ref; CallSet ref (JInt (n - 1))])%list
                /\ Tree.get_path ref (db (fst out)) = JInt (n - 1)
           else calls (fst out)
                = (calls w ++ [CallGet ref; CallDelete place_ref])%list
                /\ Tree.get_path place_ref (db (fst out)) = JNull)
  /\ (forall e, snd out = Err e -> db (fst out) = db w).


(** ** Ingestion *)

(** The world after lines 128-157 for a bucket with valid keys. *)
Definition stored (ph pl id : string) (bounds essential_data : json) (w : world)
  : world * result unit :=
  let w1 := do_get [agg_root; ph; pl] w in
  let w2 := do_set [agg_root; ph; pl; "alertForms"; id] essential_data w1 in
  let w3 := if Py.truthy (Tree.get_path [agg_root; ph; pl] (db w)) then w2
            else do_set [agg_root; ph; pl; "bounds"] bounds w2 in
  let w4 := do_get [count_root; ph; pl; "counter"] w3 in
  match Py.add_int (Py.or_ (Tree.get_path [count_root; ph; pl; "counter"] (db w3))
                           (JInt 0)) 1 with
  | Ok counter => (do_set [count_root; ph; pl; "counter"] counter w4, Ok tt)
  | Err e => (w4, Err e)
  end.

(** The database once the member is written, and once the bounds of a
    place that was not there are written too. *)
Definition with_member (ph pl id : string) (essential_data : json) (s : json) : json :=
  Tree.set_path [agg_root; ph; pl; "alertForms"; id] (Tree.normalise essential_data) s.

Definition with_bucket (ph pl id : string) (bounds essential_data : json) (s : json)
  : json :=
  if Py.truthy (Tree.get_path [agg_root; ph; pl] s) then with_member ph pl id essential_data s
  else Tree.set_path [agg_root; ph; pl; "bounds"] (Tree.normalise bounds)
         (with_member ph pl id essential_data s).

Section Ingestion_model.
Variable py_format : json -> string.
Variable geocode : json -> json -> result (string * json).
Variable sha256_hex16 : string -> string.
Variable clock_text : Q -> result string.

(** The event passes the validation and lines 105-126 succeed. *)
Definition accepted (event : Event) : option Prepared :=
  match Py.all_in ["location"; "criticalWeatherPhenomenon"] (after event) with
  | Ok true =>
      match prepare_alert py_format geocode sha256_hex16 clock_text (after event) with
      | Ok p => Some p
      | Err _ => None
      end
  | _ => None
  end.

(** The bucket and record id an accepted event is stored under. *)
Definition target_keys (event : Event) (p : Prepared) : list string :=
  [fmt py_format (p_phenomenon p); p_place_id p; formID event].

(** The event, if it is accepted, brings keys the database accepts and
    a record id that is not yet a member of its bucket. *)
Definition fresh_for (s : json) (event : Event) : bool :=
  match accepted event with
  | Some p =>
      forallb Path.valid_key (target_keys event p)
      && negb (has_key (formID event)
                 (members s (fmt py_format (p_phenomenon p)) (p_place_id p)))
  | None => true
  end.

(** The databases that ingestions of fresh record ids and purges of
    whole buckets make of the empty database. *)
Inductive reachable : json -> Prop :=
| reach_empty : reachable JNull
| reach_ingest s event :
    reachable s -> fresh_for s event = true ->
    reachable (db (fst (run (categorize_and_store_alert
                               py_format geocode sha256_hex16 clock_text event)
                            (World s []))))
| reach_purge s req :
    reachable s ->
    reachable (db (fst (run (delete_alerts_by_location py_format req)
                            (World s [])))).

End Ingestion_model.

Definition consistent (s : json) : Prop :=
  forall ph pl,
    stored_count (counter_at s ph pl)
    = Some (Z.of_nat (List.length (members s ph pl))).

(** ** Purge requests *)

(** The request of a client that asks to purge a bucket, and one member
    of a bucket. *)
Definition purge_request (phenomenon place : string) : CallableRequest :=
  {| data := JObj [("phenomenon", JStr phenomenon); ("place", JStr place)] |}.

Definition purge_member_request (phenomenon place alert_id : string)
  : CallableRequest :=
  {| data := JObj [("phenomenon", JStr phenomenon); ("place", JStr place);
                   ("alertID", JStr alert_id)] |}.

(** ** A concrete deployment

    Stand-ins for the collaborators, used where a statement is evaluated:
    every lookup geocodes to Kolonaki with one bounding box, so every
    alert of a phenomenon lands in one place. *)

Module Scenario.

Definition kolonaki_bounds : json :=
  JObj [("northeast", JObj [("lat", JFloat (3799 # 100)); ("lng", JFloat (2373 # 100))]);
        ("southwest", JObj [("lat", JFloat (3797 # 100)); ("lng", JFloat (2371 # 100))])].

Definition format_other (_ : json) : string := "value".
Definition geocode (_ _ : json) : result (string * json) :=
  Ok ("Kolonaki", kolonaki_bounds).
Definition digest (_ : string) : string := "0123456789abcdef".
Definition clock (_ : Q) : result string := Ok "12:00".

Definition place_id : string := "0123456789abcdef".

(** A flood alert written under [formID] [id] at time [ts] (ms). *)
Definition flood (id : string) (ts : Z) : Event :=
  {| after := JObj [("location", JObj [("latitude", JFloat (3798 # 100));
                                       ("longitude", JFloat (2372 # 100))]);
                    ("criticalWeatherPhenomenon", JStr "FLOOD");
                    ("timestamp", JInt ts);
                    ("criticalLevel", JInt 2);
                    ("message", JStr "water on the road")];
     formID := id |}.

Definition ingest (e : Event) : prog unit :=
  categorize_and_store_alert format_other geocode digest clock e.

Definition ingested (e : Event) (s : json) : json :=
  db (fst (run (ingest e) (World s []))).

(** The sweep runs at 100000 s; [old] was sent 25 hours before, [young]
    one hour before. *)
Definition sweep_time : Q := 100000 # 1.
Definition old : Event := flood "old" 10000000.
Definition young : Event := flood "young" 96400000.

Definition one_member_db : json := ingested old JNull.
Definition two_member_db : json := ingested young (ingested old JNull).



(** A store whose place node holds its alerts as direct children, which
    is where the sweep looks for them: one sent 25 hours before the
    sweep, one an hour before it. *)
Definition legacy_db : json :=
  JObj [(agg_root,
         JObj [("FLOOD",
                JObj [("p", JObj [("a", JObj [("timestamp", JInt 10000000)]);
                                  ("b", JObj [("timestamp", JInt 96400000)])])])]);
        (count_root,
         JObj [("FLOOD", JObj [("p", JObj [("counter", JInt 2)])])])].

(** What lines 105-126 make of an event in the concrete deployment. *)
Definition prepared (e : Event) : Prepared :=
  match prepare_alert format_other geocode digest clock (after e) with
  | Ok p => p
  | Err _ => {| p_phenomenon := JNull; p_place_id := ""; p_bounds := JNull;
                p_data := JNull |}
  end.

End Scenario.

(** ** Where a program writes *)

(** The reference starts with one of the keys [roots]. *)
Definition head_in (roots : list string) (ref : list string) : Prop :=
  match ref with
  | k :: _ => In k roots
  | [] => False
  end.

(** Every [set] and [delete] the program can come to make, whatever it
    reads, is on a reference that starts with one of the keys [roots]. *)
Inductive writes_within (roots : list string) {A : Type} : prog A -> Prop :=
| within_ret a : writes_within roots (Ret a)
| within_raise e : writes_within roots (Raise e)
| within_get ref k :
    (forall v, writes_within roots (k v)) -> writes_within roots (DbGet ref k)
| within_set ref v k :
    head_in roots ref -> writes_within roots k -> writes_within roots (DbSet ref v k)
| within_delete ref k :
    head_in roots ref -> writes_within roots k -> writes_within roots (DbDelete ref k).


(** The roots of the aggregation engine, and those the sweep writes. *)
Definition engine_roots : list string := [agg_root; count_root].
Definition sweep_roots : list string :=
  [agg_root; count_root; "lastCleanupTimestamp"; "lastNumOfDeletedAlerts"].

(** ** The alerts a sweep finds too old *)

(** The test of lines 192-195 on one alert: it has a [timestamp], the
    timestamp is truthy and divides by 1000, and the float difference
    between the sweep's time and the quotient is 86400 or more. *)
Definition expired (current_timestamp : Q) (alert_data : json) : bool :=
  match Py.getitem alert_data (JStr "timestamp") with
  | Ok ts =>
      Py.truthy ts
      && match Py.truediv_int ts 1000 with
         | Ok seconds => Qle_bool 86400 (Py.sub_float current_timestamp seconds)
         | Err _ => false
         end
  | Err _ => false
  end.

(** How many of the alerts of a place, of the places of a phenomenon and
    of a whole snapshot pass that test. *)
Definition count_alerts (now : Q) (alerts : list (string * json)) : Z :=
  Z.of_nat (List.length (filter (fun kv => expired now (snd kv)) alerts)).

Definition count_places (now : Q) (places : list (string * json)) : Z :=
  fold_right (fun kv acc => count_alerts now (children (snd kv)) + acc) 0 places.

Definition count_phenomena (now : Q) (phenomena : list (string * json)) : Z :=
  fold_right (fun kv acc => count_places now (children (snd kv)) + acc) 0 phenomena.

(** ** An answer of the geocoder *)

Module GeoScenario.
Import Geo.

Definition component (name : string) (types : list string) : pyval :=
  PDict [("long_name", PStr name); ("types", PList (map PStr types))].

Definition viewport : pyval :=
  PDict [("northeast", PDict [("lat", PFloat (3799 # 100)); ("lng", PFloat (2373 # 100))]);
         ("southwest", PDict [("lat", PFloat (3797 # 100)); ("lng", PFloat (2371 # 100))])].

Definition geometry : pyval := PDict [("viewport", viewport)].

Definition answer (components : list pyval) : pyval :=
  PDict [("results",
          PList [PDict [("address_components", PList components);
                        ("geometry", geometry)]]);
         ("status", PStr "OK")].

Definition street : pyval := component "Skoufa" ["route"].
Definition quarter : pyval := component "Kolonaki" ["neighborhood"; "political"].
Definition city : pyval := component "Athina" ["locality"; "political"].
Definition region : pyval := component "Attica" ["administrative_area_level_1"].

End GeoScenario.

(** * Properties *)

(** ** Association lists *)

Lemma assoc_update_same k v kvs : assoc k (update k v kvs) = Some v.
Proof.
  induction kvs as [|[k' v'] rest IH]; simpl.
  - now rewrite String.eqb_refl.
  - destruct (String.eqb k k') eqn:E; simpl.
    + now rewrite String.eqb_refl.
    + now rewrite E.
Qed.

Lemma assoc_update_other k k' v kvs :
  k <> k' -> assoc k' (update k v kvs) = assoc k' kvs.
Proof.
  intros Hne. induction kvs as [|[k0 v0] rest IH]; simpl.
  - destruct (String.eqb k' k) eqn:E; [apply String.eqb_eq in E; congruence | reflexivity].
  - destruct (String.eqb k k0) eqn:E; simpl.
    + apply String.eqb_eq in E; subst k0.
      destruct (String.eqb k' k) eqn:E'; [apply String.eqb_eq in E'; congruence | reflexivity].
    + now rewrite IH.
Qed.

Lemma assoc_remove_same k kvs : assoc k (remove_key k kvs) = None.
Proof.
  induction kvs as [|[k' v'] rest IH]; simpl; [reflexivity|].
  destruct (String.eqb k k') eqn:E; simpl; [assumption | now rewrite E].
Qed.

Lemma assoc_remove_other k k' kvs :
  k <> k' -> assoc k' (remove_key k kvs) = assoc k' kvs.
Proof.
  intros Hne. induction kvs as [|[k0 v0] rest IH]; simpl; [reflexivity|].
  destruct (String.eqb k k0) eqn:E; simpl.
  - apply String.eqb_eq in E; subst k0.
    destruct (String.eqb k' k) eqn:E'; [apply String.eqb_eq in E'; congruence | assumption].
  - now rewrite IH.
Qed.

Lemma update_length_new k v kvs :
  has_key k kvs = false -> List.length (update k v kvs) = S (List.length kvs).
Proof.
  unfold has_key. induction kvs as [|[k' v'] rest IH]; simpl; [reflexivity|].
  destruct (String.eqb k k'); [discriminate|]. simpl. intros H. now rewrite IH.
Qed.

Lemma update_keys_old k v kvs :
  has_key k kvs = true -> keys (update k v kvs) = keys kvs.
Proof.
  unfold has_key. induction kvs as [|[k' v'] rest IH]; simpl; [discriminate|].
  destruct (String.eqb k k') eqn:E; simpl.
  - apply String.eqb_eq in E. now subst.
  - intros H. now rewrite IH.
Qed.

Lemma update_not_nil k v kvs : update k v kvs <> [].
Proof. destruct kvs as [|[k' v'] rest]; simpl; [|destruct (String.eqb k k')]; discriminate. Qed.

Lemma forallb_update (f : string * json -> bool) k v kvs :
  f (k, v) = true -> forallb f kvs = true -> forallb f (update k v kvs) = true.
Proof.
  intros Hk. induction kvs as [|[k' v'] rest IH]; simpl.
  - now rewrite Hk.
  - intros H. apply andb_prop in H as [H1 H2].
    destruct (String.eqb k k'); simpl.
    + now rewrite Hk, H2.
    + now rewrite H1, IH.
Qed.

Lemma forallb_remove_key (f : string * json -> bool) k kvs :
  forallb f kvs = true -> forallb f (remove_key k kvs) = true.
Proof.
  induction kvs as [|[k' v'] rest IH]; simpl; [reflexivity|].
  intros H. apply andb_prop in H as [H1 H2].
  destruct (String.eqb k k'); simpl; [auto | now rewrite H1, IH].
Qed.

Lemma forallb_assoc (f : string * json -> bool) k v kvs :
  forallb f kvs = true -> assoc k kvs = Some v -> f (k, v) = true.
Proof.
  induction kvs as [|[k' v'] rest IH]; simpl; [discriminate|].
  intros H. apply andb_prop in H as [H1 H2].
  destruct (String.eqb k k') eqn:E.
  - apply String.eqb_eq in E. subst. now intros [= ->].
  - auto.
Qed.

(** ** The tree *)

Module TreeFacts.
Import Tree.

Lemma children_mk_obj kvs : children (mk_obj kvs) = kvs.
Proof. now destruct kvs. Qed.

Lemma get_path_null p : get_path p JNull = JNull.
Proof. induction p; simpl; auto. Qed.

Lemma get_path_empty p t : p <> [] -> is_empty t = true -> get_path p t = JNull.
Proof.
  destruct p as [|k p]; [congruence|]. intros _ He. simpl.
  assert (child k t = JNull) as ->.
  { destruct t as [| | | | |[|]]; try discriminate; reflexivity. }
  apply get_path_null.
Qed.

Lemma get_path_app p q t : get_path (p ++ q) t = get_path q (get_path p t).
Proof. revert t. induction p; simpl; auto. Qed.

Lemma set_path_nonempty p v t :
  is_empty v = false -> is_empty (set_path p v t) = false.
Proof.
  intros Hv. destruct p as [|k p]; simpl; [assumption|].
  assert (H : forall q u, is_empty (set_path q v u) = false).
  { induction q as [|k' q IH]; intros u; simpl; [assumption|].
    rewrite IH. simpl. destruct (update k' _ (children u)) eqn:E; [|reflexivity].
    now apply update_not_nil in E. }
  rewrite H. simpl. destruct (update k _ (children t)) eqn:E; [|reflexivity].
  now apply update_not_nil in E.
Qed.

(** The node one level down after a write below it. *)
Lemma child_set_path_same k p v t :
  child k (set_path (k :: p) v t) =
  let c' := set_path p v (child k t) in if is_empty c' then JNull else c'.
Proof.
  simpl. destruct (is_empty (set_path p v (child k t))) eqn:E.
  - destruct t; try reflexivity.
    unfold child. rewrite children_mk_obj, assoc_remove_same. reflexivity.
  - unfold child at 1. simpl. now rewrite assoc_update_same.
Qed.

Lemma child_set_path_other k k' p v t :
  k <> k' -> child k' (set_path (k :: p) v t) = child k' t.
Proof.
  intros Hne. simpl. destruct (is_empty (set_path p v (child k t))).
  - destruct t; try reflexivity.
    unfold child. now rewrite children_mk_obj, assoc_remove_other.
  - unfold child at 1. simpl. now rewrite assoc_update_other.
Qed.

(** A write leaves every path that parts from it as it was. *)
Lemma get_set_other p : forall q v t,
  diverge p q = true -> get_path q (set_path p v t) = get_path q t.
Proof.
  induction p as [|k p IH]; intros q v t Hd; [discriminate|].
  destruct q as [|k' q]; [discriminate|].
  cbn [diverge] in Hd. cbn [get_path].
  destruct (String.eqb k k') eqn:E.
  - apply String.eqb_eq in E. subst k'.
    rewrite child_set_path_same. cbv zeta.
    destruct (is_empty (set_path p v (child k t))) eqn:Ee.
    + rewrite get_path_null. rewrite <- (IH q v (child k t) Hd).
      symmetry. apply get_path_empty; [|assumption].
      destruct q; [destruct p; discriminate | discriminate].
    + now apply IH.
  - apply String.eqb_neq in E. now rewrite child_set_path_other.
Qed.

(** What was written is what is read, at the path and below it. *)
Lemma get_set_same p : forall v t,
  v = JNull \/ is_empty v = false -> get_path p (set_path p v t) = v.
Proof.
  induction p as [|k p IH]; intros v t Hv; [reflexivity|].
  cbn [get_path]. rewrite child_set_path_same. cbv zeta.
  destruct (is_empty (set_path p v (child k t))) eqn:E.
  - rewrite get_path_null. destruct Hv as [->|Hv]; [reflexivity|].
    now rewrite set_path_nonempty in E.
  - now apply IH.
Qed.

Lemma get_set_below p q v t :
  v = JNull \/ is_empty v = false ->
  get_path (p ++ q) (set_path p v t) = get_path q v.
Proof. intros Hv. now rewrite get_path_app, get_set_same. Qed.

(** The parent of a written node: the node is its child of that name. *)
Lemma get_set_parent p : forall k v t,
  is_empty v = false ->
  get_path p (set_path (p ++ [k]) v t) = JObj (update k v (children (get_path p t))).
Proof.
  induction p as [|k0 p IH]; intros k v t Hv.
  - simpl. now rewrite Hv.
  - cbn [get_path app]. rewrite child_set_path_same. cbv zeta.
    rewrite set_path_nonempty by assumption. now apply IH.
Qed.

End TreeFacts.

(** ** References *)

Module PathFacts.
Import Path.

Lemma has_illegal_app a b : has_illegal (a ++ b) = has_illegal a || has_illegal b.
Proof. induction a as [|c a IH]; simpl; [reflexivity|]. now rewrite IH, orb_assoc. Qed.

Lemma split_key k : has_slash k = false -> split k = [k].
Proof.
  induction k as [|a k IH]; simpl; [reflexivity|].
  intros H. apply orb_false_elim in H as [Ha Hk].
  now rewrite Ha, IH.
Qed.

Lemma split_key_slash k rest :
  has_slash k = false -> split (k ++ String slash rest) = k :: split rest.
Proof.
  induction k as [|a k IH]; simpl.
  - reflexivity.
  - intros H. apply orb_false_elim in H as [Ha Hk].
    now rewrite Ha, IH.
Qed.

Lemma valid_key_parts k :
  valid_key k = true ->
  nonempty k = true /\ has_slash k = false /\ has_illegal k = false.
Proof.
  unfold valid_key. intros H.
  apply andb_prop in H as [H H3]. apply andb_prop in H as [H1 H2].
  repeat split; [assumption | now destruct (has_slash k) | now destruct (has_illegal k)].
Qed.

Lemma split_join ks :
  ks <> [] -> forallb valid_key ks = true -> split (join ks) = ks.
Proof.
  induction ks as [|k rest IH]; [congruence|]. intros _ H.
  cbn [forallb] in H. apply andb_prop in H as [Hk Hrest].
  apply valid_key_parts in Hk as (_ & Hs & _).
  destruct rest as [|k' rest'].
  - now apply split_key.
  - change (join (k :: k' :: rest')) with (k ++ String slash (join (k' :: rest'))).
    rewrite split_key_slash by assumption. f_equal. apply IH; [discriminate | assumption].
Qed.

Lemma has_illegal_join ks :
  forallb valid_key ks = true -> has_illegal (join ks) = false.
Proof.
  induction ks as [|k rest IH]; [reflexivity|]. intros H.
  cbn [forallb] in H. apply andb_prop in H as [Hk Hrest].
  apply valid_key_parts in Hk as (_ & _ & Hi).
  destruct rest as [|k' rest'].
  - assumption.
  - change (join (k :: k' :: rest')) with (k ++ String slash (join (k' :: rest'))).
    rewrite has_illegal_app, Hi. cbn [has_illegal orb].
    now rewrite (IH Hrest).
Qed.

Lemma filter_nonempty_keys ks :
  forallb valid_key ks = true -> filter nonempty ks = ks.
Proof.
  induction ks as [|k rest IH]; [reflexivity|]. intros H.
  cbn [forallb] in H. apply andb_prop in H as [Hk Hrest].
  apply valid_key_parts in Hk as (Hn & _ & _).
  simpl. now rewrite Hn, IH.
Qed.

(** A path made of valid keys parses to those keys. *)
Lemma parse_join ks :
  ks <> [] -> forallb valid_key ks = true -> parse (join ks) = Ok ks.
Proof.
  intros Hne H. unfold parse.
  rewrite has_illegal_join, split_join, filter_nonempty_keys by assumption.
  reflexivity.
Qed.

End PathFacts.

(** ** Running programs *)

Lemma run_bind {A B} (p : prog A) (f : A -> prog B) : forall w,
  run (bind p f) w =
  match run p w with
  | (w', Ok a) => run (f a) w'
  | (w', Err e) => (w', Err e)
  end.
Proof.
  induction p as [a|e|r k IH|r v k IH|r k IH]; intros w; simpl; auto.
Qed.

Lemma run_try_except {A} (p : prog A) (h : exn -> prog A) : forall w,
  run (try_except p h) w =
  match run p w with
  | (w', Ok a) => (w', Ok a)
  | (w', Err e) => run (h e) w'
  end.
Proof.
  induction p as [a|e|r k IH|r v k IH|r k IH]; intros w; simpl; auto.
Qed.

(** ** The sweep trigger *)

(** C9: a sweep request whose method is not POST is answered with status
    405, a client error, and no database call is made: the database and
    the record of calls are as before. *)
Theorem cleanup_rejects_non_post (req : Request) (now : Q) (w : world) :
  method req <> "POST" ->
  run (hourly_cleanup_http req now) w = (w, Err (HTTPException 405))
  /\ 400 <= 405 < 500.
Proof.
  intros Hm. split; [|lia].
  unfold hourly_cleanup_http.
  destruct (String.eqb (method req) "POST") eqn:E.
  - apply String.eqb_eq in E. contradiction.
  - reflexivity.
Qed.

Lemma cleanup_rejects_non_post_witness :
  run (hourly_cleanup_http {| method := "GET" |} Scenario.sweep_time)
      (World Scenario.two_member_db [])
  = (World Scenario.two_member_db [], Err (HTTPException 405))
  /\ 400 <= 405 < 500.
Proof.
  apply (cleanup_rejects_non_post {| method := "GET" |}). simpl. discriminate.
Defined.

(** ** Ingestion: validation *)

Section Ingestion_validation.
Variable py_format : json -> string.
Variable geocode : json -> json -> result (string * json).
Variable sha256_hex16 : string -> string.
Variable clock_text : Q -> result string.

(** C8: an alert event whose data lacks [location] or
    [criticalWeatherPhenomenon] makes the ingestion return at once: no
    database call is made and the database is unchanged. *)
Theorem ingestion_drops_incomplete_event (event : Event)
    (fields : list (string * json)) (w : world) :
  after event = JObj fields ->
  assoc "location" fields = None \/ assoc "criticalWeatherPhenomenon" fields = None ->
  run (categorize_and_store_alert py_format geocode sha256_hex16 clock_text event) w
  = (w, Ok tt).
Proof.
  intros Ha Hmiss. unfold categorize_and_store_alert. rewrite Ha.
  cbn [Py.all_in Py.contains]. unfold has_key.
  destruct (assoc "location" fields) eqn:E1.
  - destruct Hmiss as [Hm|Hm]; [discriminate|]. rewrite Hm. reflexivity.
  - reflexivity.
Qed.

End Ingestion_validation.

Lemma ingestion_drops_incomplete_event_witness :
  run (Scenario.ingest {| after := JObj [("criticalWeatherPhenomenon", JStr "FLOOD");
                                         ("timestamp", JInt 10000000)];
                          formID := "a1" |})
      (World Scenario.one_member_db [])
  = (World Scenario.one_member_db [], Ok tt).
Proof.
  eapply ingestion_drops_incomplete_event; [reflexivity | left; reflexivity].
Defined.

(** ** The sweep on a bucket the ingestion wrote *)

(** C3 (the code at the failing input): on a bucket holding a 25-hour-old
    and a 1-hour-old member, a POST sweep reads the aggregation tree and
    raises [KeyError] on the bucket's [alertForms] child, which it takes
    for an alert; nothing is deleted, both members stay and the counter
    stays 2. *)
Theorem sweep_raises_on_two_member_bucket :
  keys (members Scenario.two_member_db "FLOOD" Scenario.place_id) = ["old"; "young"]
  /\ counter_at Scenario.two_member_db "FLOOD" Scenario.place_id = JInt 2
  /\ run (hourly_cleanup_http {| method := "POST" |} Scenario.sweep_time)
         (World Scenario.two_member_db [])
     = (World Scenario.two_member_db [CallGet [agg_root]], Err KeyError).
Proof. vm_compute. repeat split. Qed.

(** X14: on every database whose first place node has a first child that
    is an object without a [timestamp] member, as the [alertForms] and
    [bounds] children the ingestion writes are, a POST sweep raises
    [KeyError] after its one read; nothing is written. *)
Lemma sweep_raises_on_first_child (now : Q) (w : world)
    ph pl c fields alerts places phenomena :
  Tree.get_path [agg_root] (db w)
  = JObj ((ph, JObj ((pl, JObj ((c, JObj fields) :: alerts)) :: places)) :: phenomena) ->
  assoc "timestamp" fields = None ->
  run (hourly_cleanup_http {| method := "POST" |} now) w
  = (do_get [agg_root] w, Err KeyError).
Proof.
  intros Hg Ht. unfold hourly_cleanup_http.
  change (String.eqb (method {| method := "POST" |}) "POST") with true.
  change (reference agg_root) with (@Ret (list string) [agg_root]).
  cbn [negb bind ref_get run]. rewrite Hg.
  cbn. rewrite Ht. reflexivity.
Qed.

(** ** Purging one member *)

(** C5 (the code at the failing input): asked to purge the member [old]
    of a bucket that holds it, the callable looks for the id among the
    bucket's own children ([alertForms], [bounds]), reports
    "Alert not found" and leaves the database as it was. *)
Theorem purge_member_misses_existing_member :
  has_key "old" (members Scenario.two_member_db "FLOOD" Scenario.place_id) = true
  /\ run (delete_alert_by_phenomenon_and_location Scenario.format_other
            (purge_member_request "FLOOD" Scenario.place_id "old"))
         (World Scenario.two_member_db [])
     = (World Scenario.two_member_db [CallGet [agg_root]],
        Ok (failure "Alert not found")).
Proof. vm_compute. split; reflexivity. Qed.

(** ** Taking one off a counter *)

Lemma max0_positive x less :
  Py.sub_int x 1 = Ok less -> Py.eq0 (Py.max0 less) = false ->
  positive_number (Py.max0 less) /\ Py.max0 less = less.
Proof.
  intros Hs. assert (Hl : (exists z, less = JInt z) \/ (exists q, less = JFloat q)).
  { destruct x; simpl in Hs; inversion Hs; eauto. }
  destruct Hl as [[z ->]|[q ->]]; simpl.
  - destruct (0 <? z) eqn:E; simpl; [|discriminate].
    intros _. apply Z.ltb_lt in E. auto.
  - destruct (Qle_bool q 0) eqn:E; simpl; [discriminate|].
    intros _. split; [|reflexivity].
    apply Qnot_le_lt. intros H. apply Qle_bool_iff in H. congruence.
Qed.

(** The run of [decrement_counter], case by case. *)
Lemma decrement_counter_run counter_path place_path w :
  run (decrement_counter counter_path place_path) w =
  match Path.parse counter_path with
  | Err e => (w, Err e)
  | Ok ref =>
      match Py.sub_int (Py.or_ (Tree.get_path ref (db w)) (JInt 0)) 1 with
      | Err e => (do_get ref w, Err e)
      | Ok less =>
          if Py.eq0 (Py.max0 less) then
            match Path.parse place_path with
            | Ok place_ref => (do_delete place_ref (do_get ref w), Ok tt)
            | Err e => (do_get ref w, Err e)
            end
          else (do_set ref (Py.max0 less) (do_get ref w), Ok tt)
      end
  end.
Proof.
  unfold decrement_counter, reference. cbv zeta.
  destruct (Path.parse counter_path) as [ref|e]; cbn [lift bind ref_get run];
    [|reflexivity].
  destruct (Py.sub_int (Py.or_ (Tree.get_path ref (db w)) (JInt 0)) 1) as [less|e] eqn:Hs;
    cbn [lift bind run]; [|reflexivity].
  destruct (Py.eq0 (Py.max0 less)) eqn:Hz.
  - destruct (Path.parse place_path); reflexivity.
  - destruct (max0_positive _ Hs Hz) as [Hpos _].
    unfold ref_set. destruct (Py.max0 less); try contradiction; reflexivity.
Qed.

Lemma decrement_counter_safe counter_path place_path w :
  decrement_safe counter_path place_path w.
Proof.
  unfold decrement_safe. cbv zeta. rewrite decrement_counter_run.
  destruct (Path.parse counter_path) as [ref|e0] eqn:Hc.
  2:{ cbn [fst snd].
      split; [exists []; rewrite app_nil_r; split; [reflexivity | intros ? ? []]|].
      split; [intros ? ? ? H; discriminate H|].
      split; [intros ? ? H; discriminate H|].
      split; [intros ? ? ? H; discriminate H | reflexivity]. }
  assert (Hsub : forall n, stored_count (Tree.get_path ref (db w)) = Some n ->
                           Py.sub_int (Py.or_ (Tree.get_path ref (db w)) (JInt 0)) 1
                           = Ok (JInt (n - 1))).
  { intros n Hn.
    destruct (Tree.get_path ref (db w)) as [| | z| | |]; try discriminate Hn;
      injection Hn as <-; [reflexivity|].
    unfold Py.or_, Py.truthy. destruct (z =? 0) eqn:E; cbn; [|reflexivity].
    apply Z.eqb_eq in E. now subst z. }
  destruct (Py.sub_int (Py.or_ (Tree.get_path ref (db w)) (JInt 0)) 1) as [less|e0] eqn:Hs.
  2:{ cbn [fst snd do_get db calls].
      split.
      { exists [CallGet ref]. split; [reflexivity|]. intros ? ? [H|[]]. discriminate. }
      split; [intros ? ? ? [= <-] H; congruence|].
      split; [intros ? ? [= <-] H; congruence|].
      split; [|reflexivity].
      intros ref' place_ref n [= <-] _ Hn. apply Hsub in Hn. congruence. }
  assert (Hint : forall n, stored_count (Tree.get_path ref (db w)) = Some n ->
                           less = JInt (n - 1)).
  { intros n Hn. apply Hsub in Hn. congruence. }
  destruct (Py.eq0 (Py.max0 less)) eqn:Hz.
  - destruct (Path.parse place_path) as [pref|e0] eqn:Hp; cbn [fst snd do_get do_delete db calls].
    + split.
      { exists [CallGet ref; CallDelete pref]. split.
        { now rewrite <- app_assoc. }
        intros ? ? [H|[H|[]]]; discriminate. }
      split.
      { intros ref' less' pref' [= <-] _ _ H2.
        assert (pref' = pref) by congruence. subst. reflexivity. }
      split.
      { intros ref' less' [= <-] H1. assert (less' = less) by congruence. subst.
        congruence. }
      split; [|discriminate].
      intros ref' pref' n [= <-] H2 Hn.
      assert (pref' = pref) by congruence. subst pref'.
      split; [reflexivity|]. rewrite (Hint n Hn) in Hz. cbn in Hz.
      destruct (2 <=? n) eqn:E.
      { apply Z.leb_le in E. exfalso.
        destruct (0 <? n - 1) eqn:E'; cbn in Hz; [|apply Z.ltb_ge in E'; lia].
        apply Z.eqb_eq in Hz. lia. }
      split; [now rewrite <- app_assoc|].
      apply TreeFacts.get_set_same. now left.
    + split.
      { exists [CallGet ref]. split; [reflexivity|]. intros ? ? [H|[]]. discriminate. }
      split; [intros ? ? ? _ _ _ H; congruence|].
      split.
      { intros ref' less' [= <-] H1. assert (less' = less) by congruence. subst.
        congruence. }
      split; [intros ? ? ? _ H; congruence|].
      reflexivity.
  - destruct (max0_positive _ Hs Hz) as [Hpos Heq].
    assert (Hkeep : Tree.normalise (Py.max0 less) = Py.max0 less
                    /\ Tree.is_empty (Py.max0 less) = false).
    { destruct (Py.max0 less); try contradiction; split; reflexivity. }
    destruct Hkeep as [Hnorm Hne].
    cbn [fst snd do_get do_set db calls]. rewrite Hnorm.
    split.
    { exists [CallGet ref; CallSet ref (Py.max0 less)]. split.
      { now rewrite <- app_assoc. }
      intros r v [H|[H|[]]]; [discriminate|]. injection H as <- <-.
      split; [reflexivity|]. exists less. auto. }
    split.
    { intros ref' less' pref' [= <-] H1 Hz'.
      assert (less' = less) by congruence. subst. congruence. }
    split.
    { intros ref' less' [= <-] H1 _. assert (less' = less) by congruence. subst.
      split; [reflexivity|].
      apply TreeFacts.get_set_same. now right. }
    split; [|discriminate].
    intros ref' pref' n [= <-] H2 Hn.
    split; [reflexivity|]. pose proof (Hint n Hn) as ->. cbn in Hz |- *.
    destruct (0 <? n - 1) eqn:E'; cbn in Hz.
    2:{ discriminate Hz. }
    apply Z.ltb_lt in E'.
    destruct (2 <=? n) eqn:E; [|apply Z.leb_gt in E; lia].
    split; [now rewrite <- app_assoc|].
    apply TreeFacts.get_set_same. now right.
Qed.

(** C10: the decrement of the sweep (counter at [.../counter], place one
    level up) and the decrement of the single-member purge (counter and
    place at the same reference) write back [max(0, previous - 1)] at the
    counter reference whenever that is not zero, and nothing else: an
    integer counter of 2 or more goes down by one.  At zero they write
    nothing and delete the place node of the counter tree instead.  No
    negative counter and no zero is ever stored, whatever was stored
    before, and a decrement that raises leaves the database as it was. *)
Theorem counter_decrement_never_negative (phenomenon place : string) (w : world) :
  decrement_safe (count_root ++ "/" ++ phenomenon ++ "/" ++ place ++ "/counter")
                 (count_root ++ "/" ++ phenomenon ++ "/" ++ place) w
  /\ decrement_safe (count_root ++ "/" ++ phenomenon ++ "/" ++ place)
                    (count_root ++ "/" ++ phenomenon ++ "/" ++ place) w.
Proof. split; apply decrement_counter_safe. Qed.

(** The sweep's decrement on a counter of 5 and on a counter of 1, and
    the same on a counter that is not there. *)
Lemma decrement_examples :
  let path := count_root ++ "/FLOOD/p" in
  let at_ n := World (Tree.set_path [count_root; "FLOOD"; "p"; "counter"] n JNull) [] in
  let after n := db (fst (run (decrement_counter (path ++ "/counter") path) (at_ n))) in
  Tree.get_path [count_root; "FLOOD"; "p"; "counter"] (after (JInt 5)) = JInt 4
  /\ Tree.get_path [count_root; "FLOOD"; "p"] (after (JInt 1)) = JNull
  /\ Tree.get_path [count_root; "FLOOD"; "p"] (after JNull) = JNull.
Proof. vm_compute. repeat split. Qed.

Module LayoutFacts.
Import Tree TreeFacts.

Lemma place_node_set pl rest v P :
  P = JNull \/ place_keys_ok P = true ->
  Path.valid_key pl = true ->
  is_empty (set_path (pl :: rest) v P) = true
  \/ place_keys_ok (set_path (pl :: rest) v P) = true.
Proof.
  intros HP Hpl. cbn [set_path].
  destruct (is_empty (set_path rest v (child pl P))) eqn:E.
  - destruct HP as [->|HP]; [now left|].
    destruct P as [| | | | |pls]; try discriminate.
    destruct (remove_key pl pls) eqn:Er; [now left|]. right.
    cbn [mk_obj place_keys_ok]. rewrite <- Er. now apply forallb_remove_key.
  - right. cbn [place_keys_ok]. apply forallb_update; [assumption|].
    destruct HP as [->|HP]; [reflexivity|].
    now destruct P.
Qed.

Lemma agg_node_set ph pl rest v A :
  agg_ok A = true ->
  Path.valid_key ph = true -> Path.valid_key pl = true ->
  agg_ok (let A' := set_path (ph :: pl :: rest) v A in
          if is_empty A' then JNull else A') = true.
Proof.
  intros HA Hph Hpl. cbv zeta.
  destruct (is_empty (set_path (ph :: pl :: rest) v A)) eqn:E; [reflexivity|].
  cbn [set_path] in *.
  set (P' := (if is_empty (set_path rest v (child pl (child ph A)))
              then match child ph A with
                   | JObj kvs => mk_obj (remove_key pl kvs)
                   | _ => child ph A
                   end
              else JObj (update pl (set_path rest v (child pl (child ph A)))
                                (children (child ph A))))) in *.
  assert (HP' : is_empty P' = true \/ place_keys_ok P' = true).
  { apply (place_node_set pl rest v (P := child ph A)); [|assumption].
    unfold child. destruct (assoc ph (children A)) eqn:Ea; [|now left].
    right. destruct A as [| | | | |phs]; try discriminate.
    cbn [children] in Ea. cbn [agg_ok] in HA.
    pose proof (forallb_assoc _ _ _ HA Ea) as H. unfold phenomenon_ok in H.
    now apply andb_prop in H. }
  destruct (is_empty P') eqn:EP.
  - destruct A as [| | | | |phs]; try discriminate.
    destruct (remove_key ph phs) eqn:Er; [discriminate|].
    cbn [mk_obj agg_ok]. rewrite <- Er. now apply forallb_remove_key.
  - destruct HP' as [HP'|HP']; [discriminate|].
    cbn [agg_ok]. apply forallb_update.
    + unfold phenomenon_ok. cbn [fst snd]. now rewrite Hph, HP'.
    + now destruct A.
Qed.

(** A write at or below a place of the aggregation tree keeps the
    layout, when phenomenon and place are valid keys. *)
Lemma layout_set_agg ph pl rest v s :
  layout_ok s = true ->
  Path.valid_key ph = true -> Path.valid_key pl = true ->
  layout_ok (set_path (agg_root :: ph :: pl :: rest) v s) = true.
Proof.
  intros Hs Hph Hpl. unfold layout_ok in *. cbn [get_path] in *.
  rewrite child_set_path_same. now apply agg_node_set.
Qed.

(** A write under another root does not touch it. *)
Lemma layout_set_elsewhere k p v s :
  k <> agg_root -> layout_ok (set_path (k :: p) v s) = layout_ok s.
Proof.
  intros Hk. unfold layout_ok. cbn [get_path].
  now rewrite child_set_path_other.
Qed.

Lemma count_root_not_agg_root : count_root <> agg_root.
Proof. discriminate. Qed.

Lemma layout_phenomenon s ph places :
  layout_ok s = true ->
  assoc ph (children (get_path [agg_root] s)) = Some places ->
  Path.valid_key ph = true /\ place_keys_ok places = true.
Proof.
  unfold layout_ok. intros Hs Ha.
  destruct (get_path [agg_root] s) as [| | | | |phs]; try discriminate.
  cbn [children agg_ok] in *.
  pose proof (forallb_assoc _ _ _ Hs Ha) as H. unfold phenomenon_ok in H.
  now apply andb_prop in H.
Qed.

Lemma layout_place places pl :
  place_keys_ok places = true -> has_key pl (children places) = true ->
  Path.valid_key pl = true.
Proof.
  destruct places as [| | | | |pls]; try discriminate. cbn [place_keys_ok children].
  unfold has_key. intros Hf Hk. destruct (assoc pl pls) eqn:Ea; [|discriminate].
  apply (forallb_assoc _ _ _ Hf Ea).
Qed.

End LayoutFacts.

Lemma reference_join ks :
  ks <> [] -> forallb Path.valid_key ks = true ->
  reference (Path.join ks) = Ret ks.
Proof. intros. unfold reference. now rewrite PathFacts.parse_join. Qed.

(** ** Purging a whole bucket *)

Section Purge_bucket.
Variable py_format : json -> string.
Import Tree TreeFacts LayoutFacts.

(** The callable on a well laid out database, case by case. *)
Lemma purge_bucket_run (ph pl : string) (w : world) :
  layout_ok (db w) = true ->
  run (delete_alerts_by_location py_format (purge_request ph pl)) w =
  match assoc ph (children (get_path [agg_root] (db w))) with
  | None => (do_get [agg_root] w, Ok (failure "Phenomenon not found"))
  | Some places =>
      if has_key pl (children places)
      then (do_delete [count_root; ph; pl]
              (do_delete [agg_root; ph; pl] (do_get [agg_root] w)), Ok success)
      else (do_get [agg_root] w, Ok (failure "Place not found"))
  end.
Proof.
  intros Hl. unfold delete_alerts_by_location. rewrite run_try_except.
  cbn [purge_request data Py.get assoc String.eqb Ascii.eqb Bool.eqb lift bind].
  change (reference agg_root) with (@Ret (list string) [agg_root]).
  cbn [bind ref_get run].
  destruct (assoc ph (children (get_path [agg_root] (db w)))) as [places|] eqn:Ea.
  - destruct (layout_phenomenon _ _ Hl Ea) as [Hph Hpls].
    destruct (get_path [agg_root] (db w)) as [| | | | |phs] eqn:Eg; try discriminate.
    cbn [children] in Ea.
    assert (Ho : Py.or_ (JObj phs) (JObj []) = JObj phs).
    { unfold Py.or_. destruct phs; [discriminate | reflexivity]. }
    rewrite Ho. cbn [Py.contains Py.getitem]. unfold has_key at 1. rewrite Ea.
    cbn [lift bind].
    destruct places as [| | | | |pls]; try discriminate.
    cbn [Py.contains children lift bind].
    destruct (has_key pl pls) eqn:Ek; [|reflexivity].
    assert (Hpl : Path.valid_key pl = true).
    { apply (layout_place (JObj pls)); assumption. }
    cbn [fmt].
    change (agg_root ++ "/" ++ ph ++ "/" ++ pl) with (Path.join [agg_root; ph; pl]).
    change (count_root ++ "/" ++ ph ++ "/" ++ pl) with (Path.join [count_root; ph; pl]).
    rewrite !reference_join;
      try discriminate;
      try (cbn [forallb]; rewrite Hph, Hpl; reflexivity).
    reflexivity.
  - assert (Hc : Py.contains (JStr ph) (Py.or_ (get_path [agg_root] (db w)) (JObj []))
                 = Ok false).
    { unfold layout_ok in Hl.
      destruct (get_path [agg_root] (db w)) as [| | | | |phs]; try discriminate.
      - reflexivity.
      - cbn [children] in Ea. unfold Py.or_.
        destruct phs; [reflexivity|]. cbn [Py.truthy Py.contains].
        unfold has_key. now rewrite Ea. }
    rewrite Hc. reflexivity.
Qed.

End Purge_bucket.

Lemma has_key_deleted p : forall k t,
  has_key k (children (Tree.get_path p (Tree.set_path (p ++ [k]) JNull t))) = false.
Proof.
  induction p as [|k0 p IH]; intros k t.
  - cbn [app Tree.get_path Tree.set_path Tree.is_empty].
    unfold has_key. destruct t; try reflexivity.
    now rewrite TreeFacts.children_mk_obj, assoc_remove_same.
  - cbn [app Tree.get_path]. rewrite TreeFacts.child_set_path_same. cbv zeta.
    destruct (Tree.is_empty _).
    + now rewrite TreeFacts.get_path_null.
    + apply IH.
Qed.

Section Purge_bucket_claim.
Variable py_format : json -> string.
Import Tree TreeFacts LayoutFacts.

(** C7: on a well laid out database, purging (phenomenon, place) answers
    "Phenomenon not found" when the phenomenon is not in the aggregation
    tree and "Place not found" when the place is not under it, and
    changes nothing in either case; when the place is there, it answers
    success and both the bucket and its counter node are gone.  Purging
    the same bucket again then answers one of the two "not found"
    results and changes nothing. *)
Theorem purge_bucket_results (ph pl : string) (w : world) :
  layout_ok (db w) = true ->
  let purge := delete_alerts_by_location py_format (purge_request ph pl) in
  let out := run purge w in
  match assoc ph (children (get_path [agg_root] (db w))) with
  | None =>
      snd out = Ok (failure "Phenomenon not found") /\ db (fst out) = db w
  | Some places =>
      if has_key pl (children places) then
        snd out = Ok success
        /\ get_path [agg_root; ph; pl] (db (fst out)) = JNull
        /\ get_path [count_root; ph; pl] (db (fst out)) = JNull
        /\ listed (db (fst out)) ph pl = false
        /\ (let again := run purge (fst out) in
            db (fst again) = db (fst out)
            /\ (snd again = Ok (failure "Phenomenon not found")
                \/ snd again = Ok (failure "Place not found")))
      else
        snd out = Ok (failure "Place not found") /\ db (fst out) = db w
  end.
Proof.
  intros Hl purge out. subst out purge.
  rewrite (purge_bucket_run py_format ph pl w Hl).
  destruct (assoc ph (children (get_path [agg_root] (db w)))) as [places|] eqn:Ea;
    [|split; reflexivity].
  destruct (has_key pl (children places)) eqn:Ek; [|split; reflexivity].
  destruct (layout_phenomenon _ _ Hl Ea) as [Hph Hpls].
  pose proof (layout_place _ _ Hpls Ek) as Hpl.
  cbn [fst snd do_delete do_get db].
  set (s1 := set_path [agg_root; ph; pl] JNull (db w)).
  set (s2 := set_path [count_root; ph; pl] JNull s1).
  assert (Hagg : forall q, get_path (agg_root :: q) s2 = get_path (agg_root :: q) s1).
  { intros q. apply get_set_other. reflexivity. }
  assert (Hlisted : listed s2 ph pl = false).
  { unfold listed. rewrite Hagg. apply (has_key_deleted [agg_root; ph]). }
  assert (Hl2 : layout_ok s2 = true).
  { unfold s2. rewrite layout_set_elsewhere by apply count_root_not_agg_root.
    now apply layout_set_agg. }
  split; [reflexivity|]. split.
  { rewrite Hagg. apply get_set_same. now left. }
  split.
  { apply get_set_same. now left. }
  split; [assumption|].
  cbv zeta.
  match goal with
  | |- context [run _ ?w2] =>
      rewrite (purge_bucket_run py_format ph pl w2 Hl2); change (db w2) with s2
  end.
  destruct (assoc ph (children (get_path [agg_root] s2))) as [places2|] eqn:Ea2.
  - assert (Hk2 : has_key pl (children places2) = false).
    { unfold listed in Hlisted. cbn [get_path] in Hlisted, Ea2.
      unfold child at 1 in Hlisted. now rewrite Ea2 in Hlisted. }
    rewrite Hk2. cbn [fst snd do_get db]. auto.
  - cbn [fst snd do_get db]. auto.
Qed.

End Purge_bucket_claim.

Lemma purge_bucket_results_witness :
  let purge := delete_alerts_by_location Scenario.format_other
                 (purge_request "FLOOD" Scenario.place_id) in
  let out := run purge (World Scenario.two_member_db []) in
  snd out = Ok success
  /\ Tree.get_path [agg_root; "FLOOD"; Scenario.place_id] (db (fst out)) = JNull
  /\ Tree.get_path [count_root; "FLOOD"; Scenario.place_id] (db (fst out)) = JNull
  /\ listed (db (fst out)) "FLOOD" Scenario.place_id = false
  /\ (let again := run purge (fst out) in
      db (fst again) = db (fst out)
      /\ (snd again = Ok (failure "Phenomenon not found")
          \/ snd again = Ok (failure "Place not found"))).
Proof.
  apply (purge_bucket_results Scenario.format_other "FLOOD" Scenario.place_id
           (World Scenario.two_member_db [])).
  vm_compute. reflexivity.
Defined.

(** ** What the database keeps of a written value *)

Module NormaliseFacts.
Import Tree.

Lemma normalise_obj kvs : normalise (JObj kvs) = mk_obj (norm_members kvs).
Proof.
  cbn [normalise]. f_equal.
Qed.

Lemma norm_members_keeps_string k s kvs :
  In (k, JStr s) kvs -> norm_members kvs <> [].
Proof.
  induction kvs as [|[k' c] rest IH]; [intros []|].
  intros [H|H]; cbn [norm_members].
  - injection H as -> ->. cbn. discriminate.
  - destruct (is_empty (normalise c)); [auto | discriminate].
Qed.

(** A dict with a string member is stored as a non-empty object. *)
Lemma normalise_with_string k s kvs :
  In (k, JStr s) kvs -> is_empty (normalise (JObj kvs)) = false.
Proof.
  intros H. rewrite normalise_obj.
  pose proof (norm_members_keeps_string _ _ _ H) as Hn.
  destruct (norm_members kvs); [congruence | reflexivity].
Qed.

End NormaliseFacts.

(** ** Ingestion: what a stored alert does to the database *)

Section Ingestion.
Variable py_format : json -> string.
Variable geocode : json -> json -> result (string * json).
Variable sha256_hex16 : string -> string.
Variable clock_text : Q -> result string.
Import Tree TreeFacts LayoutFacts NormaliseFacts.

Abbreviation fmt' := (fmt py_format).
Abbreviation prepare := (prepare_alert py_format geocode sha256_hex16 clock_text).

Ltac unbind H :=
  repeat match type of H with
         | rbind ?r _ = Ok _ =>
             let E := fresh "E" in
             destruct r eqn:E; [cbn [rbind] in H | discriminate H]
         | (let '(_, _) := ?x in _) = Ok _ => destruct x
         end.

Lemma located_bounds_truthy latitude longitude name bounds :
  get_location_name_and_bounds geocode latitude longitude = Ok (name, bounds) ->
  Py.truthy bounds = true.
Proof.
  unfold get_location_name_and_bounds.
  destruct (geocode latitude longitude) as [[n b]|]; [|discriminate].
  cbn [rbind]. destruct (Py.truthy b) eqn:Et; [|discriminate].
  now intros [= _ <-].
Qed.

Lemma prepare_alert_data alert_form p :
  prepare alert_form = Ok p ->
  p_data p <> JNull
  /\ is_empty (normalise (p_data p)) = false
  /\ p_bounds p <> JNull.
Proof.
  unfold prepare_alert. intros H. unbind H.
  injection H as <-. cbn [p_data p_bounds].
  split; [discriminate|]. split.
  - eapply normalise_with_string. right; right; left. reflexivity.
  - match goal with
    | Hg : get_location_name_and_bounds _ _ _ = Ok _ |- _ =>
        apply located_bounds_truthy in Hg; intros ->; discriminate Hg
    end.
Qed.

Lemma ref_set_value r v : v <> JNull -> ref_set r v = DbSet r v (Ret tt).
Proof. destruct v; congruence || reflexivity. Qed.

Lemma add_int_not_null x n c : Py.add_int x n = Ok c -> c <> JNull.
Proof. destruct x; cbn; intros [= <-] || discriminate; discriminate. Qed.

Lemma store_alert_run phenomenon pl id bounds essential_data w :
  Path.valid_key (fmt' phenomenon) = true ->
  Path.valid_key pl = true ->
  Path.valid_key id = true ->
  essential_data <> JNull -> bounds <> JNull ->
  run (store_alert py_format phenomenon pl id bounds essential_data) w
  = stored (fmt' phenomenon) pl id bounds essential_data w.
Proof.
  intros Hph Hpl Hid Hd Hb. unfold store_alert, stored.
  set (ph := fmt' phenomenon) in *.
  change (agg_root ++ "/" ++ ph ++ "/" ++ pl)
    with (Path.join [agg_root; ph; pl]).
  change (agg_root ++ "/" ++ ph ++ "/" ++ pl ++ "/alertForms/" ++ id)
    with (Path.join [agg_root; ph; pl; "alertForms"; id]).
  change (agg_root ++ "/" ++ ph ++ "/" ++ pl ++ "/bounds")
    with (Path.join [agg_root; ph; pl; "bounds"]).
  change (count_root ++ "/" ++ ph ++ "/" ++ pl ++ "/counter")
    with (Path.join [count_root; ph; pl; "counter"]).
  rewrite !reference_join;
    try discriminate;
    try (cbn [forallb]; rewrite Hph, Hpl, ?Hid; reflexivity).
  cbn [bind ref_get run].
  destruct (Py.truthy (get_path [agg_root; ph; pl] (db w)));
    cbn [bind]; rewrite !(ref_set_value _ Hd), ?(ref_set_value _ Hb);
    cbn [bind run];
    match goal with
    | |- context [Py.add_int ?x 1] =>
        destruct (Py.add_int x 1) as [c|e] eqn:Ec; cbn [lift bind run];
        [rewrite (ref_set_value _ (add_int_not_null _ _ Ec)) | ]; reflexivity
    end.
Qed.

End Ingestion.

Lemma diverge_same_head k p q :
  Tree.diverge (k :: p) (k :: q) = Tree.diverge p q.
Proof. cbn [Tree.diverge]. now rewrite String.eqb_refl. Qed.

Lemma diverge_other_bucket r ph pl ph' pl' rest rest' :
  (ph', pl') <> (ph, pl) ->
  Tree.diverge (r :: ph :: pl :: rest) (r :: ph' :: pl' :: rest') = true.
Proof.
  intros Hne. rewrite diverge_same_head. cbn [Tree.diverge].
  destruct (String.eqb ph ph') eqn:E1; [|reflexivity].
  destruct (String.eqb pl pl') eqn:E2; [|reflexivity].
  apply String.eqb_eq in E1, E2. subst. congruence.
Qed.

Section Ingestion_effect.
Variable py_format : json -> string.
Variable geocode : json -> json -> result (string * json).
Variable sha256_hex16 : string -> string.
Variable clock_text : Q -> result string.
Import Tree TreeFacts LayoutFacts NormaliseFacts.

Section Stored.
Variables (ph pl id : string) (bounds essential_data : json) (w : world).
Hypothesis Hdata : is_empty (normalise essential_data) = false.

Local Abbreviation st := (db (fst (stored ph pl id bounds essential_data w))).
Local Abbreviation s2 := (with_member ph pl id essential_data (db w)).
Local Abbreviation s3 := (with_bucket ph pl id bounds essential_data (db w)).

Lemma stored_members_s3 :
  children (get_path [agg_root; ph; pl; "alertForms"] s3)
  = update id (normalise essential_data) (members (db w) ph pl).
Proof.
  assert (H2 : get_path [agg_root; ph; pl; "alertForms"] s2
               = JObj (update id (normalise essential_data) (members (db w) ph pl))).
  { apply (get_set_parent [agg_root; ph; pl; "alertForms"]). exact Hdata. }
  unfold with_bucket. destruct (Py.truthy _); [now rewrite H2|].
  rewrite get_set_other; [now rewrite H2|].
  rewrite !diverge_same_head. reflexivity.
Qed.

Lemma stored_counter_s3 q :
  get_path (count_root :: q) s3 = get_path (count_root :: q) (db w).
Proof.
  unfold with_bucket. destruct (Py.truthy _); [|rewrite get_set_other by reflexivity];
    unfold with_member; now rewrite get_set_other by reflexivity.
Qed.

Lemma stored_db_cases :
  (exists c, Py.add_int (Py.or_ (counter_at (db w) ph pl) (JInt 0)) 1 = Ok c
             /\ snd (stored ph pl id bounds essential_data w) = Ok tt
             /\ st = set_path [count_root; ph; pl; "counter"] (normalise c) s3)
  \/ (exists e, snd (stored ph pl id bounds essential_data w) = Err e /\ st = s3
                /\ Py.add_int (Py.or_ (counter_at (db w) ph pl) (JInt 0)) 1 = Err e).
Proof.
  unfold stored. cbv zeta.
  assert (Hdb : db (if Py.truthy (get_path [agg_root; ph; pl] (db w))
                    then do_set [agg_root; ph; pl; "alertForms"; id] essential_data
                           (do_get [agg_root; ph; pl] w)
                    else do_set [agg_root; ph; pl; "bounds"] bounds
                           (do_set [agg_root; ph; pl; "alertForms"; id] essential_data
                              (do_get [agg_root; ph; pl] w))) = s3).
  { unfold with_bucket, with_member. now destruct (Py.truthy _). }
  rewrite Hdb. rewrite stored_counter_s3. fold (counter_at (db w) ph pl).
  destruct (Py.add_int (Py.or_ (counter_at (db w) ph pl) (JInt 0)) 1) as [c|e] eqn:Ec.
  - left. exists c. cbn [fst snd do_set do_get db]. rewrite Hdb. auto.
  - right. exists e. cbn [fst snd do_get db]. rewrite Hdb. auto.
Qed.

(** The member is added under its id, or replaces the one there. *)
Lemma stored_members :
  members st ph pl = update id (normalise essential_data) (members (db w) ph pl).
Proof.
  rewrite <- stored_members_s3. unfold members.
  destruct stored_db_cases as [(c & _ & _ & ->)|(e & _ & -> & _)]; [|reflexivity].
  now rewrite get_set_other by reflexivity.
Qed.

(** A counter that stands for [n] becomes [n + 1]. *)
Lemma stored_counter n :
  stored_count (counter_at (db w) ph pl) = Some n ->
  counter_at st ph pl = JInt (n + 1)
  /\ snd (stored ph pl id bounds essential_data w) = Ok tt.
Proof.
  intros Hn.
  assert (Hc : Py.add_int (Py.or_ (counter_at (db w) ph pl) (JInt 0)) 1
               = Ok (JInt (n + 1))).
  { destruct (counter_at (db w) ph pl); try discriminate; injection Hn as <-.
    - reflexivity.
    - unfold Py.or_. cbn [Py.truthy]. destruct (z =? 0) eqn:E; cbn [negb Py.add_int].
      + apply Z.eqb_eq in E. now subst.
      + reflexivity. }
  destruct stored_db_cases as [(c & Hc' & Hr & Hs)|(e & _ & _ & He)]; [|congruence].
  split; [|assumption].
  assert (c = JInt (n + 1)) by congruence. subst c.
  unfold counter_at. rewrite Hs. apply get_set_same. now right.
Qed.

(** Other buckets are as before. *)
Lemma stored_frame ph' pl' :
  (ph', pl') <> (ph, pl) ->
  members st ph' pl' = members (db w) ph' pl'
  /\ counter_at st ph' pl' = counter_at (db w) ph' pl'.
Proof.
  intros Hne.
  assert (H3 : forall r rest, get_path (r :: ph' :: pl' :: rest) s3
                              = get_path (r :: ph' :: pl' :: rest) (db w)).
  { intros r rest. unfold with_bucket, with_member.
    destruct (String.eqb agg_root r) eqn:Er.
    - apply String.eqb_eq in Er. subst r.
      destruct (Py.truthy _);
        rewrite !get_set_other by now apply diverge_other_bucket. all: reflexivity.
    - destruct (Py.truthy _);
        rewrite !get_set_other by (cbn [diverge]; now rewrite Er). all: reflexivity. }
  unfold members, counter_at.
  destruct stored_db_cases as [(c & _ & _ & ->)|(e & _ & -> & _)].
  - rewrite get_set_other by reflexivity.
    rewrite get_set_other by now apply diverge_other_bucket.
    now rewrite !H3.
  - now rewrite !H3.
Qed.

Lemma stored_layout :
  Path.valid_key ph = true -> Path.valid_key pl = true ->
  layout_ok (db w) = true -> layout_ok st = true.
Proof.
  intros Hph Hpl Hl.
  assert (H3 : layout_ok s3 = true).
  { unfold with_bucket, with_member. destruct (Py.truthy _); repeat apply layout_set_agg; assumption. }
  destruct stored_db_cases as [(c & _ & _ & ->)|(e & _ & -> & _)]; [|assumption].
  now rewrite layout_set_elsewhere by apply count_root_not_agg_root.
Qed.

End Stored.

End Ingestion_effect.

Section Ingestion_run.
Variable py_format : json -> string.
Variable geocode : json -> json -> result (string * json).
Variable sha256_hex16 : string -> string.
Variable clock_text : Q -> result string.
Import Tree TreeFacts LayoutFacts NormaliseFacts.

Abbreviation ingest := (categorize_and_store_alert py_format geocode sha256_hex16 clock_text).
Abbreviation accepted_by := (accepted py_format geocode sha256_hex16 clock_text).

Lemma accepted_inv event p :
  accepted_by event = Some p ->
  Py.all_in ["location"; "criticalWeatherPhenomenon"] (after event) = Ok true
  /\ prepare_alert py_format geocode sha256_hex16 clock_text (after event) = Ok p.
Proof.
  unfold accepted. destruct (Py.all_in _ _) as [[|]|]; try discriminate.
  destruct (prepare_alert _ _ _ _ _); [|discriminate]. now intros [= ->].
Qed.

Lemma ingest_accepted event p w :
  accepted_by event = Some p ->
  forallb Path.valid_key (target_keys py_format event p) = true ->
  run (ingest event) w
  = (fst (stored (fmt py_format (p_phenomenon p)) (p_place_id p) (formID event)
                 (p_bounds p) (p_data p) w), Ok tt).
Proof.
  intros Ha Hk. destruct (accepted_inv _ Ha) as [Hall Hprep].
  cbn [target_keys forallb] in Hk.
  apply andb_prop in Hk as [Hph Hk]. apply andb_prop in Hk as [Hpl Hk].
  apply andb_prop in Hk as [Hid _].
  destruct (prepare_alert_data _ _ _ _ _ Hprep) as (Hd & _ & Hb).
  unfold categorize_and_store_alert. rewrite Hall. cbn [lift bind negb].
  rewrite run_try_except, Hprep. cbn [lift bind].
  rewrite store_alert_run by assumption.
  destruct (stored _ _ _ _ _ _) as [w' [[]|e]]; reflexivity.
Qed.

Lemma ingest_rejected event w :
  accepted_by event = None -> fst (run (ingest event) w) = w.
Proof.
  unfold accepted, categorize_and_store_alert.
  destruct (Py.all_in _ _) as [[|]|]; cbn [lift bind negb]; try reflexivity.
  rewrite run_try_except.
  destruct (prepare_alert _ _ _ _ _); [discriminate|]. reflexivity.
Qed.

(** ** Adding a member whose id is already there *)

(** C2, as the code has it: when an accepted event carries a record id
    that is already a member of its bucket, the ingestion keeps the set
    of member ids, stores the new data under that id, and raises the
    counter by one. *)
Theorem readding_member_overwrites_and_counts (event : Event) (p : Prepared)
    (s : json) (n : Z) :
  accepted_by event = Some p ->
  forallb Path.valid_key (target_keys py_format event p) = true ->
  let ph := fmt py_format (p_phenomenon p) in
  let pl := p_place_id p in
  has_key (formID event) (members s ph pl) = true ->
  stored_count (counter_at s ph pl) = Some n ->
  let s' := db (fst (run (ingest event) (World s []))) in
  keys (members s' ph pl) = keys (members s ph pl)
  /\ assoc (formID event) (members s' ph pl) = Some (normalise (p_data p))
  /\ counter_at s' ph pl = JInt (n + 1).
Proof.
  intros Ha Hk ph pl Hin Hn s'. subst s'.
  rewrite (ingest_accepted _ _ Ha Hk). cbn [fst].
  destruct (accepted_inv _ Ha) as [_ Hprep].
  destruct (prepare_alert_data _ _ _ _ _ Hprep) as (_ & Hd & _).
  fold ph pl.
  rewrite (stored_members ph pl (formID event) (p_bounds p) (p_data p) (World s []) Hd).
  cbn [db]. split; [now apply update_keys_old|].
  split; [apply assoc_update_same|].
  apply (stored_counter ph pl (formID event) (p_bounds p) (p_data p) (World s []) Hn).
Qed.

End Ingestion_run.

(** ** Purging a bucket, for any request *)

Section Purge_any.
Variable py_format : json -> string.
Import Tree TreeFacts LayoutFacts.

(** Whatever the request holds, the callable leaves the database as it
    was or deletes one place, with valid keys, from both trees. *)
Lemma purge_any_request (req : CallableRequest) (w : world) :
  layout_ok (db w) = true ->
  let s' := db (fst (run (delete_alerts_by_location py_format req) w)) in
  s' = db w
  \/ exists ph pl,
       Path.valid_key ph = true /\ Path.valid_key pl = true
       /\ s' = set_path [count_root; ph; pl] JNull
                 (set_path [agg_root; ph; pl] JNull (db w)).
Proof.
  intros Hl. cbv zeta. unfold delete_alerts_by_location. rewrite run_try_except.
  destruct (Py.get (data req) "phenomenon" (JStr "")) as [phen|e];
    cbn [lift bind run]; [|left; reflexivity].
  destruct (Py.get (data req) "place" (JStr "")) as [place|e];
    cbn [lift bind run]; [|left; reflexivity].
  change (reference agg_root) with (@Ret (list string) [agg_root]).
  cbn [bind ref_get run].
  unfold layout_ok in Hl.
  destruct (get_path [agg_root] (db w)) as [| | | | |phs] eqn:Eg; try discriminate.
  { change (Py.or_ JNull (JObj [])) with (JObj []).
    destruct phen; left; reflexivity. }
  assert (Ho : Py.or_ (JObj phs) (JObj []) = JObj phs).
  { unfold Py.or_. destruct phs; reflexivity. }
  rewrite Ho. cbn [agg_ok] in Hl.
  destruct phen as [| | | |ph|]; try (left; reflexivity).
  cbn [Py.contains Py.getitem].
  destruct (has_key ph phs) eqn:Ekp; [|left; reflexivity].
  unfold has_key in Ekp.
  destruct (assoc ph phs) as [places|] eqn:Ea; [|discriminate].
  cbn [lift bind].
  pose proof (forallb_assoc _ _ _ Hl Ea) as Hok. unfold phenomenon_ok in Hok.
  cbn [fst snd] in Hok. apply andb_prop in Hok as [Hph Hpls].
  destruct places as [| | | | |pls]; try discriminate.
  destruct place as [| | | |pl|]; try (left; reflexivity).
  cbn [Py.contains lift bind].
  destruct (has_key pl pls) eqn:Ek; [|left; reflexivity].
  assert (Hpl : Path.valid_key pl = true).
  { apply (layout_place (JObj pls)); assumption. }
  cbn [fmt].
  change (agg_root ++ "/" ++ ph ++ "/" ++ pl) with (Path.join [agg_root; ph; pl]).
  change (count_root ++ "/" ++ ph ++ "/" ++ pl) with (Path.join [count_root; ph; pl]).
  rewrite !reference_join;
    try discriminate;
    try (cbn [forallb]; rewrite Hph, Hpl; reflexivity).
  right. exists ph, pl. auto.
Qed.

End Purge_any.

(** ** The counter and the members of a bucket *)

Section Counter_invariant.
Variable py_format : json -> string.
Variable geocode : json -> json -> result (string * json).
Variable sha256_hex16 : string -> string.
Variable clock_text : Q -> result string.
Import Tree TreeFacts LayoutFacts NormaliseFacts.

Lemma consistent_ingest s event :
  layout_ok s = true -> consistent s -> fresh_for py_format geocode sha256_hex16 clock_text s event = true ->
  let s' := db (fst (run (categorize_and_store_alert
                            py_format geocode sha256_hex16 clock_text event)
                         (World s []))) in
  layout_ok s' = true /\ consistent s'.
Proof.
  intros Hl Hc Hf. cbv zeta. unfold fresh_for in Hf.
  destruct (accepted py_format geocode sha256_hex16 clock_text event) as [p|] eqn:Ha.
  2:{ rewrite ingest_rejected by assumption. auto. }
  apply andb_prop in Hf as [Hk Hnew]. apply negb_true_iff in Hnew.
  rewrite (ingest_accepted _ _ _ _ _ (World s []) Ha Hk). cbn [fst].
  destruct (accepted_inv _ _ _ _ _ Ha) as [_ Hprep].
  destruct (prepare_alert_data _ _ _ _ _ Hprep) as (_ & Hd & _).
  set (ph0 := fmt py_format (p_phenomenon p)) in *.
  set (pl0 := p_place_id p) in *.
  split.
  - cbn [target_keys forallb] in Hk. fold ph0 pl0 in Hk.
    apply andb_prop in Hk as [Hph Hk]. apply andb_prop in Hk as [Hpl _].
    now apply stored_layout.
  - intros ph pl.
    destruct (string_dec ph ph0) as [->|Hph]; [destruct (string_dec pl pl0) as [->|Hpl]|].
    + rewrite (stored_members ph0 pl0 (formID event) (p_bounds p) (p_data p)
                 (World s []) Hd).
      cbn [db]. rewrite (update_length_new _ _ _ Hnew).
      destruct (stored_counter ph0 pl0 (formID event) (p_bounds p) (p_data p)
                  (World s []) (Hc ph0 pl0)) as [-> _].
      cbn [stored_count]. f_equal. lia.
    + destruct (stored_frame (formID event) (p_bounds p) (p_data p) (World s [])
                  (ph := ph0) (pl := pl0) (ph' := ph0) (pl' := pl)) as [-> ->];
        [congruence | apply Hc].
    + destruct (stored_frame (formID event) (p_bounds p) (p_data p) (World s [])
                  (ph := ph0) (pl := pl0) (ph' := ph) (pl' := pl)) as [-> ->];
        [congruence | apply Hc].
Qed.

Lemma consistent_purge s req :
  layout_ok s = true -> consistent s ->
  let s' := db (fst (run (delete_alerts_by_location py_format req) (World s []))) in
  layout_ok s' = true /\ consistent s'.
Proof.
  intros Hl Hc. cbv zeta.
  destruct (purge_any_request py_format req (World s []) Hl)
    as [->|(ph0 & pl0 & Hph & Hpl & ->)]; [auto|].
  cbn [db]. split.
  - rewrite layout_set_elsewhere by apply count_root_not_agg_root.
    now apply layout_set_agg.
  - intros ph pl. unfold counter_at, members.
    destruct (string_dec ph ph0) as [->|Hne]; [destruct (string_dec pl pl0) as [->|Hne]|].
    + rewrite (get_set_below [count_root; ph0; pl0] ["counter"]) by now left.
      rewrite get_set_other by reflexivity.
      rewrite (get_set_below [agg_root; ph0; pl0] ["alertForms"]) by now left.
      reflexivity.
    + rewrite get_set_other by (apply diverge_other_bucket; congruence).
      rewrite get_set_other by reflexivity.
      rewrite (get_set_other [count_root; ph0; pl0]) by reflexivity.
      rewrite get_set_other by (apply diverge_other_bucket; congruence).
      apply Hc.
    + rewrite get_set_other by (apply diverge_other_bucket; congruence).
      rewrite get_set_other by reflexivity.
      rewrite (get_set_other [count_root; ph0; pl0]) by reflexivity.
      rewrite get_set_other by (apply diverge_other_bucket; congruence).
      apply Hc.
Qed.

Lemma reachable_invariant s : reachable py_format geocode sha256_hex16 clock_text s -> layout_ok s = true /\ consistent s.
Proof.
  induction 1 as [|s event _ [Hl Hc] Hf|s req _ [Hl Hc]].
  - split; [reflexivity|]. intros ph pl. reflexivity.
  - now apply consistent_ingest.
  - now apply consistent_purge.
Qed.

(** C1, as the code has it: in every database that ingestions of record
    ids new to their bucket and purges of whole buckets make of the
    empty database, the stored counter of every bucket is the number of
    its members (a missing counter standing for 0). *)
Theorem counter_matches_members (s : json) (phenomenon place : string) :
  reachable py_format geocode sha256_hex16 clock_text s ->
  stored_count (counter_at s phenomenon place)
  = Some (Z.of_nat (List.length (members s phenomenon place))).
Proof. intros H. now apply reachable_invariant. Qed.

End Counter_invariant.

Module ScenarioFacts.
Import Scenario.

Lemma reachable_one : reachable format_other geocode digest clock one_member_db.
Proof.
  apply (reach_ingest (py_format := format_other) (geocode := geocode)
           (sha256_hex16 := digest) (clock_text := clock) (s := JNull) old).
  - apply reach_empty.
  - reflexivity.
Qed.

Lemma reachable_two : reachable format_other geocode digest clock two_member_db.
Proof.
  apply (reach_ingest (py_format := format_other) (geocode := geocode)
           (sha256_hex16 := digest) (clock_text := clock) (s := one_member_db) young).
  - apply reachable_one.
  - reflexivity.
Qed.

End ScenarioFacts.

Lemma counter_matches_members_witness :
  reachable Scenario.format_other Scenario.geocode Scenario.digest Scenario.clock
            Scenario.two_member_db
  /\ stored_count (counter_at Scenario.two_member_db "FLOOD" Scenario.place_id)
     = Some (Z.of_nat (List.length
                         (members Scenario.two_member_db "FLOOD" Scenario.place_id))).
Proof.
  split; [apply ScenarioFacts.reachable_two|].
  apply (counter_matches_members (py_format := Scenario.format_other)
           (geocode := Scenario.geocode) (sha256_hex16 := Scenario.digest)
           (clock_text := Scenario.clock)).
  apply ScenarioFacts.reachable_two.
Defined.

(** C1 as stated fails: the same alert event delivered twice leaves one
    member in the bucket and a counter of 2. *)
Lemma redelivery_breaks_counter :
  let s := Scenario.ingested Scenario.old (Scenario.ingested Scenario.old JNull) in
  keys (members s "FLOOD" Scenario.place_id) = ["old"]
  /\ counter_at s "FLOOD" Scenario.place_id = JInt 2
  /\ stored_count (counter_at s "FLOOD" Scenario.place_id)
     <> Some (Z.of_nat (List.length (members s "FLOOD" Scenario.place_id))).
Proof. vm_compute. repeat split. discriminate. Qed.

Lemma readding_member_overwrites_and_counts_witness :
  let s := Scenario.one_member_db in
  let s' := Scenario.ingested Scenario.old s in
  keys (members s' "FLOOD" Scenario.place_id) = keys (members s "FLOOD" Scenario.place_id)
  /\ assoc "old" (members s' "FLOOD" Scenario.place_id)
     = Some (Tree.normalise (p_data (Scenario.prepared Scenario.old)))
  /\ counter_at s' "FLOOD" Scenario.place_id = JInt (1 + 1).
Proof.
  apply (@readding_member_overwrites_and_counts
           Scenario.format_other Scenario.geocode Scenario.digest Scenario.clock
           Scenario.old (Scenario.prepared Scenario.old)
           Scenario.one_member_db 1).
  - reflexivity.
  - reflexivity.
  - reflexivity.
  - reflexivity.
Defined.

(** C2 as stated fails: the second delivery of an alert event finds its
    record id in the bucket and still raises the counter from 1 to 2. *)
Lemma second_delivery_increments :
  let s1 := Scenario.ingested Scenario.old JNull in
  let s2 := Scenario.ingested Scenario.old s1 in
  has_key "old" (members s1 "FLOOD" Scenario.place_id) = true
  /\ counter_at s1 "FLOOD" Scenario.place_id = JInt 1
  /\ counter_at s2 "FLOOD" Scenario.place_id = JInt 2
  /\ counter_at s2 "FLOOD" Scenario.place_id <> counter_at s1 "FLOOD" Scenario.place_id.
Proof. vm_compute. repeat split. discriminate. Qed.

(** ** The last member of a bucket *)

Lemma listed_of_descendant ph pl rest s :
  Tree.get_path (agg_root :: ph :: pl :: rest) s <> JNull -> listed s ph pl = true.
Proof.
  unfold listed, has_key. cbn [Tree.get_path]. unfold Tree.child at 1.
  destruct (assoc pl (children _)); [reflexivity|].
  rewrite TreeFacts.get_path_null. congruence.
Qed.

(** *** References that part from a node *)















(** *** The removals where the counter comes to zero *)







(** ** Two ingestions into one bucket *)

Section Two_ingestions.
Variable py_format : json -> string.
Variable geocode : json -> json -> result (string * json).
Variable sha256_hex16 : string -> string.
Variable clock_text : Q -> result string.
Import Tree TreeFacts NormaliseFacts.

(** C6, as the code has it: two accepted events with distinct record ids
    for the same bucket, ingested one after the other with no database
    call of one between those of the other, both return, both members
    are in the bucket and the counter stands at its former value plus
    two. *)
Theorem sequential_ingestions_count_both (e1 e2 : Event) (p1 p2 : Prepared)
    (s : json) (n : Z) :
  accepted py_format geocode sha256_hex16 clock_text e1 = Some p1 ->
  accepted py_format geocode sha256_hex16 clock_text e2 = Some p2 ->
  forallb Path.valid_key (target_keys py_format e1 p1) = true ->
  forallb Path.valid_key (target_keys py_format e2 p2) = true ->
  fmt py_format (p_phenomenon p2) = fmt py_format (p_phenomenon p1) ->
  p_place_id p2 = p_place_id p1 ->
  formID e1 <> formID e2 ->
  let ph := fmt py_format (p_phenomenon p1) in
  let pl := p_place_id p1 in
  stored_count (counter_at s ph pl) = Some n ->
  let out := interleave []
               (categorize_and_store_alert py_format geocode sha256_hex16 clock_text e1)
               (categorize_and_store_alert py_format geocode sha256_hex16 clock_text e2)
               (World s []) in
  let s' := db (fst (fst out)) in
  snd (fst out) = Ok tt /\ snd out = Ok tt
  /\ has_key (formID e1) (members s' ph pl) = true
  /\ has_key (formID e2) (members s' ph pl) = true
  /\ counter_at s' ph pl = JInt (n + 2).
Proof.
  intros Ha1 Ha2 Hk1 Hk2 Hph Hpl Hid ph pl Hn. cbv zeta. cbn [interleave].
  rewrite (ingest_accepted _ _ _ _ _ (World s []) Ha1 Hk1).
  rewrite (ingest_accepted _ _ _ _ _ _ Ha2 Hk2).
  cbn [fst snd]. rewrite Hph, Hpl. fold ph pl.
  destruct (accepted_inv _ _ _ _ _ Ha1) as [_ Hp1].
  destruct (accepted_inv _ _ _ _ _ Ha2) as [_ Hp2].
  destruct (prepare_alert_data _ _ _ _ _ Hp1) as (_ & Hd1 & _).
  destruct (prepare_alert_data _ _ _ _ _ Hp2) as (_ & Hd2 & _).
  set (w1 := fst (stored ph pl (formID e1) (p_bounds p1) (p_data p1) (World s []))).
  pose proof (stored_members ph pl (formID e1) (p_bounds p1) (p_data p1)
                (World s []) Hd1) as Hm1.
  destruct (stored_counter ph pl (formID e1) (p_bounds p1) (p_data p1)
              (World s []) Hn) as [Hc1 _].
  fold w1 in Hm1, Hc1.
  assert (Hn1 : stored_count (counter_at (db w1) ph pl) = Some (n + 1))
    by now rewrite Hc1.
  pose proof (stored_members ph pl (formID e2) (p_bounds p2) (p_data p2) w1 Hd2) as Hm2.
  destruct (stored_counter ph pl (formID e2) (p_bounds p2) (p_data p2) w1 Hn1)
    as [Hc2 _].
  split; [reflexivity|]. split; [reflexivity|].
  rewrite Hm2, Hm1. unfold has_key.
  split.
  { rewrite assoc_update_other by congruence. now rewrite assoc_update_same. }
  split.
  { now rewrite assoc_update_same. }
  rewrite Hc2. f_equal. lia.
Qed.

End Two_ingestions.

Lemma sequential_ingestions_count_both_witness :
  let out := interleave [] (Scenario.ingest Scenario.old) (Scenario.ingest Scenario.young)
               (World JNull []) in
  let s' := db (fst (fst out)) in
  snd (fst out) = Ok tt /\ snd out = Ok tt
  /\ has_key "old" (members s' "FLOOD" Scenario.place_id) = true
  /\ has_key "young" (members s' "FLOOD" Scenario.place_id) = true
  /\ counter_at s' "FLOOD" Scenario.place_id = JInt (0 + 2).
Proof.
  apply (@sequential_ingestions_count_both
           Scenario.format_other Scenario.geocode Scenario.digest Scenario.clock
           Scenario.old Scenario.young
           (Scenario.prepared Scenario.old) (Scenario.prepared Scenario.young)
           JNull 0).
  - reflexivity.
  - reflexivity.
  - reflexivity.
  - reflexivity.
  - reflexivity.
  - reflexivity.
  - discriminate.
  - reflexivity.
Defined.

(** C6 as stated fails: two ingestions for one bucket, with distinct
    record ids, whose database calls alternate so that both read the
    counter (1) before either writes it: both return, both members are
    stored, and the counter ends at 2, not 3. *)
Lemma interleaved_ingestions_lose_an_increment :
  let third := Scenario.flood "third" 96500000 in
  let sched := [true; true; true; false; false; false; true; false] in
  let out := interleave sched (Scenario.ingest Scenario.young) (Scenario.ingest third)
               (World Scenario.one_member_db []) in
  let s' := db (fst (fst out)) in
  counter_at Scenario.one_member_db "FLOOD" Scenario.place_id = JInt 1
  /\ snd (fst out) = Ok tt /\ snd out = Ok tt
  /\ keys (members s' "FLOOD" Scenario.place_id) = ["old"; "young"; "third"]
  /\ counter_at s' "FLOOD" Scenario.place_id = JInt 2
  /\ counter_at s' "FLOOD" Scenario.place_id <> JInt (1 + 2).
Proof. vm_compute. repeat split. discriminate. Qed.

(** ** Purging with the name of a bucket child as the alert id *)

(** The only ids [delete_alert_by_phenomenon_and_location] finds in a
    bucket the ingestion wrote are the names of its two children.  Asked
    for [alertForms] it deletes every member of the bucket, then reads the
    place node of the counter tree, a dict, where it expects a number:
    the subtraction raises, the counter stays and the callable reports an
    unexpected error. *)
Lemma purge_member_by_child_name :
  let out := run (delete_alert_by_phenomenon_and_location Scenario.format_other
                    (purge_member_request "FLOOD" Scenario.place_id
                       "alertForms"))
                 (World Scenario.two_member_db []) in
  snd out = Ok (failure "An unexpected error occurred")
  /\ members (db (fst out)) "FLOOD" Scenario.place_id = []
  /\ counter_at (db (fst out)) "FLOOD" Scenario.place_id = JInt 2.
Proof. vm_compute. repeat split. Qed.

(** * Beyond the claims *)

(** ** Where the functions write *)

Lemma parse_head root rest ref :
  Path.valid_key root = true ->
  Path.parse (root ++ String Path.slash rest) = Ok ref ->
  exists tl, ref = root :: tl.
Proof.
  intros Hk. apply PathFacts.valid_key_parts in Hk as (Hn & Hs & _).
  unfold Path.parse. destruct (Path.has_illegal _); [discriminate|].
  rewrite PathFacts.split_key_slash by assumption.
  cbn [filter]. rewrite Hn. intros [= <-]. eauto.
Qed.

Lemma within_bind roots {A B} (p : prog A) (f : A -> prog B) :
  writes_within roots p -> (forall a, writes_within roots (f a)) ->
  writes_within roots (bind p f).
Proof.
  intros Hp Hf. induction Hp; cbn [bind]; auto; constructor; auto.
Qed.

Lemma within_try roots {A} (p : prog A) (h : exn -> prog A) :
  writes_within roots p -> (forall e, writes_within roots (h e)) ->
  writes_within roots (try_except p h).
Proof.
  intros Hp Hh. induction Hp; cbn [try_except]; auto; constructor; auto.
Qed.

Lemma within_lift roots {A} (r : result A) : writes_within roots (lift r).
Proof. destruct r; constructor. Qed.

Lemma within_ref_get roots ref : writes_within roots (ref_get ref).
Proof. constructor. intros v. constructor. Qed.

Lemma within_ref_set roots ref v :
  head_in roots ref -> writes_within roots (ref_set ref v).
Proof. intros H. destruct v; repeat constructor; assumption. Qed.

Lemma within_ref_delete roots ref :
  head_in roots ref -> writes_within roots (ref_delete ref).
Proof. intros H. repeat constructor; assumption. Qed.

(** A reference made from a path that starts with a root and a slash. *)
Lemma within_reference roots {A} root rest (k : list string -> prog A) :
  Path.valid_key root = true ->
  (forall ref, head_in [root] ref -> writes_within roots (k ref)) ->
  writes_within roots (bind (reference (root ++ String Path.slash rest)) k).
Proof.
  intros Hk Hc. unfold reference.
  destruct (Path.parse _) as [ref|e] eqn:Hp; cbn [lift bind]; [|constructor].
  destruct (parse_head _ _ Hk Hp) as [tl ->]. apply Hc. now left.
Qed.

Lemma head_in_weaken root roots ref :
  In root roots -> head_in [root] ref -> head_in roots ref.
Proof.
  intros Hin. destruct ref as [|k tl]; [tauto|].
  cbn [head_in]. intros [<-|[]]. assumption.
Qed.

(** What lies under another root is as it was after the program ran. *)
Lemma writes_within_frame roots {A} (p : prog A) :
  writes_within roots p ->
  forall w k q, ~ In k roots ->
    Tree.get_path (k :: q) (db (fst (run p w))) = Tree.get_path (k :: q) (db w).
Proof.
  induction 1 as [a|e|ref c _ IH|ref v c Hh _ IH|ref c Hh _ IH];
    intros w k q Hk; cbn [run fst]; try reflexivity.
  - rewrite IH by assumption. reflexivity.
  - rewrite IH by assumption. cbn [do_set db].
    apply TreeFacts.get_set_other.
    destruct ref as [|k' tl]; [contradiction|]. cbn [head_in] in Hh.
    cbn [Tree.diverge]. destruct (String.eqb k' k) eqn:E; [|reflexivity].
    apply String.eqb_eq in E. subst. contradiction.
  - rewrite IH by assumption. cbn [do_delete db].
    apply TreeFacts.get_set_other.
    destruct ref as [|k' tl]; [contradiction|]. cbn [head_in] in Hh.
    cbn [Tree.diverge]. destruct (String.eqb k' k) eqn:E; [|reflexivity].
    apply String.eqb_eq in E. subst. contradiction.
Qed.

Lemma within_reference_path roots {A} root rest (k : list string -> prog A) :
  Path.valid_key root = true -> In root roots ->
  (forall ref, head_in roots ref -> writes_within roots (k ref)) ->
  writes_within roots (bind (reference (root ++ "/" ++ rest)) k).
Proof.
  intros Hk Hin Hc.
  change (root ++ "/" ++ rest) with (root ++ String Path.slash rest).
  apply within_reference; [assumption|].
  intros ref Hr. apply Hc. now apply (head_in_weaken root).
Qed.

Lemma within_reference_root roots {A} root (k : list string -> prog A) :
  Path.parse root = Ok [root] -> In root roots ->
  (forall ref, head_in roots ref -> writes_within roots (k ref)) ->
  writes_within roots (bind (reference root) k).
Proof.
  intros Hp Hin Hc. unfold reference. rewrite Hp. cbn [lift bind].
  apply Hc. exact Hin.
Qed.

Ltac within_roots :=
  first [ reflexivity
        | cbn [engine_roots sweep_roots In]; tauto ].

Ltac within :=
  cbv zeta;
  lazymatch goal with
  | |- writes_within _ (bind (reference (_ ++ "/" ++ _)) _) =>
      apply within_reference_path; [reflexivity | within_roots | intros ? ?; within]
  | |- writes_within _ (bind (reference _) _) =>
      apply within_reference_root; [reflexivity | within_roots | intros ? ?; within]
  | |- writes_within _ (bind (lift _) _) =>
      apply within_bind; [apply within_lift | intros ?; within]
  | |- writes_within _ (bind (ref_get _) _) =>
      apply within_bind; [apply within_ref_get | intros ?; within]
  | |- writes_within _ (bind (ref_set _ _) _) =>
      apply within_bind; [apply within_ref_set; assumption | intros ?; within]
  | |- writes_within _ (bind (ref_delete _) _) =>
      apply within_bind; [apply within_ref_delete; assumption | intros ?; within]
  | |- writes_within _ (bind (if ?b then _ else _) _) =>
      apply within_bind; [destruct b; within | intros ?; within]
  | |- writes_within _ (bind _ _) =>
      apply within_bind; [within | intros ?; within]
  | |- writes_within _ (try_except _ _) =>
      apply within_try; [within | intros ?; within]
  | |- writes_within _ (if ?b then _ else _) => destruct b; within
  | |- writes_within _ (ref_set _ _) => apply within_ref_set; assumption
  | |- writes_within _ (ref_delete _) => apply within_ref_delete; assumption
  | |- writes_within _ (ref_get _) => apply within_ref_get
  | |- writes_within _ (lift _) => apply within_lift
  | |- writes_within _ (Ret _) => constructor
  | |- writes_within _ (Raise _) => constructor
  | |- _ => idtac
  end.

Lemma store_alert_within (py_format : json -> string) phenomenon place_id form_id bounds essential_data :
  writes_within engine_roots
    (store_alert py_format phenomenon place_id form_id bounds essential_data).
Proof. unfold store_alert. within. Qed.

Lemma categorize_within (py_format : json -> string)
    (geocode : json -> json -> result (string * json))
    (sha256_hex16 : string -> string) (clock_text : Q -> result string) event :
  writes_within engine_roots
    (categorize_and_store_alert py_format geocode sha256_hex16 clock_text event).
Proof.
  unfold categorize_and_store_alert. within. apply store_alert_within.
Qed.

Lemma decrement_counter_within roots root rest rest' :
  Path.valid_key root = true -> In root roots ->
  writes_within roots
    (decrement_counter (root ++ "/" ++ rest) (root ++ "/" ++ rest')).
Proof.
  intros Hk Hin. unfold decrement_counter. cbv zeta.
  apply within_reference_path; [assumption | assumption | intros ref Href].
  apply within_bind; [apply within_ref_get | intros got].
  apply within_bind; [apply within_lift | intros less].
  destruct (Py.eq0 _).
  - apply within_reference_path; [assumption | assumption | intros ref' Href'].
    now apply within_ref_delete.
  - now apply within_ref_set.
Qed.

Lemma sweep_remove_within roots phenomenon place alert_id :
  In agg_root roots -> In count_root roots ->
  writes_within roots (sweep_remove phenomenon place alert_id).
Proof.
  intros Ha Hc. unfold sweep_remove.
  apply within_reference_path; [reflexivity | assumption | intros ref Href].
  apply within_bind; [now apply within_ref_delete | intros _].
  apply decrement_counter_within; [reflexivity | assumption].
Qed.

Lemma sweep_alerts_within now phenomenon place alerts : forall n,
  writes_within sweep_roots (sweep_alerts now phenomenon place alerts n).
Proof.
  induction alerts as [|[alert_id alert_data] rest IH]; intros n; cbn [sweep_alerts].
  - constructor.
  - apply within_bind; [apply within_lift | intros ts].
    destruct (Py.truthy ts); [|apply IH].
    apply within_bind; [apply within_lift | intros secs].
    destruct (Qle_bool _ _); [|apply IH]. cbv zeta.
    apply within_bind; [|intros _; apply IH].
    apply sweep_remove_within; cbn; tauto.
Qed.

Lemma sweep_places_within now phenomenon places : forall n,
  writes_within sweep_roots (sweep_places now phenomenon places n).
Proof.
  induction places as [|[place alerts] rest IH]; intros n; cbn [sweep_places].
  - constructor.
  - apply within_bind; [apply within_lift | intros items].
    apply within_bind; [apply sweep_alerts_within | intros m; apply IH].
Qed.

Lemma sweep_phenomena_within now phenomena : forall n,
  writes_within sweep_roots (sweep_phenomena now phenomena n).
Proof.
  induction phenomena as [|[phenomenon places] rest IH]; intros n; cbn [sweep_phenomena].
  - constructor.
  - apply within_bind; [apply within_lift | intros items].
    apply within_bind; [apply sweep_places_within | intros m; apply IH].
Qed.

Lemma cleanup_within req now :
  writes_within sweep_roots (hourly_cleanup_http req now).
Proof.
  unfold hourly_cleanup_http. destruct (negb _); [constructor|]. cbv zeta.
  apply within_reference_root; [reflexivity | cbn; tauto | intros ref Href].
  apply within_bind; [apply within_ref_get | intros got].
  apply within_bind; [apply within_lift | intros len].
  apply within_bind; [apply within_lift | intros items].
  apply within_bind; [apply sweep_phenomena_within | intros n].
  apply within_reference_root; [reflexivity | cbn; tauto | intros r1 Hr1].
  apply within_bind; [now apply within_ref_set | intros _].
  apply within_reference_root; [reflexivity | cbn; tauto | intros r2 Hr2].
  apply within_bind; [now apply within_ref_set | intros _].
  constructor.
Qed.

Lemma purge_bucket_within (py_format : json -> string) req :
  writes_within engine_roots (delete_alerts_by_location py_format req).
Proof. unfold delete_alerts_by_location. within. Qed.

Lemma purge_member_within (py_format : json -> string) req :
  writes_within engine_roots (delete_alert_by_phenomenon_and_location py_format req).
Proof.
  unfold delete_alert_by_phenomenon_and_location. within.
  apply decrement_counter_within; [reflexivity | cbn; tauto].
Qed.

(** X1: whatever the event and the database, the ingestion leaves every
    path that does not start with one of the two aggregation roots as it
    was. *)
Theorem ingestion_touches_only_aggregation (py_format : json -> string)
    (geocode : json -> json -> result (string * json))
    (sha256_hex16 : string -> string) (clock_text : Q -> result string)
    (event : Event) (w : world) (k : string) (q : list string) :
  k <> agg_root -> k <> count_root ->
  Tree.get_path (k :: q)
    (db (fst (run (categorize_and_store_alert py_format geocode sha256_hex16
                     clock_text event) w)))
  = Tree.get_path (k :: q) (db w).
Proof.
  intros Ha Hc.
  apply (writes_within_frame (categorize_within py_format geocode sha256_hex16 clock_text event)).
  cbn [engine_roots In]. intuition congruence.
Qed.

(** X2: whatever the request and the database, the two purge callables
    leave every path that does not start with one of the two aggregation
    roots as it was. *)
Theorem purges_touch_only_aggregation (py_format : json -> string)
    (req : CallableRequest) (w : world) (k : string) (q : list string) :
  k <> agg_root -> k <> count_root ->
  Tree.get_path (k :: q) (db (fst (run (delete_alerts_by_location py_format req) w)))
  = Tree.get_path (k :: q) (db w)
  /\ Tree.get_path (k :: q)
       (db (fst (run (delete_alert_by_phenomenon_and_location py_format req) w)))
     = Tree.get_path (k :: q) (db w).
Proof.
  intros Ha Hc. split.
  - apply (writes_within_frame (purge_bucket_within py_format req)).
    cbn [engine_roots In]. intuition congruence.
  - apply (writes_within_frame (purge_member_within py_format req)).
    cbn [engine_roots In]. intuition congruence.
Qed.

(** X3: whatever the request, the time and the database, and whether it
    returns or raises, the sweep leaves every path as it was that starts
    with neither an aggregation root nor one of its two metrics
    [lastCleanupTimestamp] and [lastNumOfDeletedAlerts]. *)
Theorem sweep_touches_only_its_roots (req : Request) (now : Q) (w : world)
    (k : string) (q : list string) :
  ~ In k sweep_roots ->
  Tree.get_path (k :: q) (db (fst (run (hourly_cleanup_http req now) w)))
  = Tree.get_path (k :: q) (db w).
Proof. intros Hk. now apply (writes_within_frame (cleanup_within req now)). Qed.

Lemma ingestion_touches_only_aggregation_witness :
  Tree.get_path ["statisticsPerYear"; "2024"]
    (db (fst (run (Scenario.ingest Scenario.young) (World Scenario.one_member_db []))))
  = Tree.get_path ["statisticsPerYear"; "2024"] Scenario.one_member_db.
Proof.
  apply (@ingestion_touches_only_aggregation Scenario.format_other Scenario.geocode
           Scenario.digest Scenario.clock Scenario.young
           (World Scenario.one_member_db []) "statisticsPerYear" ["2024"]);
    discriminate.
Defined.

Lemma purges_touch_only_aggregation_witness :
  let req := purge_request "FLOOD" Scenario.place_id in
  let w := World Scenario.two_member_db [] in
  Tree.get_path ["lastNumOfDeletedAlerts"]
    (db (fst (run (delete_alerts_by_location Scenario.format_other req) w)))
  = Tree.get_path ["lastNumOfDeletedAlerts"] (db w)
  /\ Tree.get_path ["lastNumOfDeletedAlerts"]
       (db (fst (run (delete_alert_by_phenomenon_and_location Scenario.format_other
                        req) w)))
     = Tree.get_path ["lastNumOfDeletedAlerts"] (db w).
Proof.
  apply (@purges_touch_only_aggregation Scenario.format_other
           (purge_request "FLOOD" Scenario.place_id)
           (World Scenario.two_member_db []) "lastNumOfDeletedAlerts" []);
    discriminate.
Defined.

Lemma sweep_touches_only_its_roots_witness :
  Tree.get_path ["alertForms"; "uid"]
    (db (fst (run (hourly_cleanup_http {| method := "POST" |} Scenario.sweep_time)
                  (World JNull []))))
  = Tree.get_path ["alertForms"; "uid"] JNull.
Proof.
  apply (@sweep_touches_only_its_roots {| method := "POST" |} Scenario.sweep_time
           (World JNull []) "alertForms" ["uid"]).
  cbn [sweep_roots In]. intros [H|[H|[H|[H|[]]]]]; discriminate H.
Defined.

(** ** Ingestion: a new place, an old place, a dropped event *)

Lemma normalise_null_or_nonempty v :
  Tree.normalise v = JNull \/ Tree.is_empty (Tree.normalise v) = false.
Proof.
  destruct v; try (right; reflexivity); [now left|].
  rewrite NormaliseFacts.normalise_obj.
  destruct (Tree.norm_members kvs); [now left | now right].
Qed.

Lemma members_of_missing_place s ph pl :
  Py.truthy (Tree.get_path [agg_root; ph; pl] s) = false -> members s ph pl = [].
Proof.
  unfold members.
  change [agg_root; ph; pl; "alertForms"]
    with (([agg_root; ph; pl] ++ ["alertForms"])%list).
  rewrite TreeFacts.get_path_app.
  destruct (Tree.get_path [agg_root; ph; pl] s) as [| | | | |[|kv kvs]];
    try reflexivity. discriminate.
Qed.

(** X4: an accepted event for a place that is not yet in the aggregation
    tree creates the bucket: its only member is the event's record, under
    the event's [formID], its bounds are the geocoded ones, its counter is
    one more than what the counter node stood for (1 when there was
    none), and the place is listed under its phenomenon. *)
Theorem ingestion_creates_bucket (py_format : json -> string)
    (geocode : json -> json -> result (string * json))
    (sha256_hex16 : string -> string) (clock_text : Q -> result string)
    (event : Event) (p : Prepared) (s : json) (n : Z) :
  accepted py_format geocode sha256_hex16 clock_text event = Some p ->
  forallb Path.valid_key (target_keys py_format event p) = true ->
  let ph := fmt py_format (p_phenomenon p) in
  let pl := p_place_id p in
  Py.truthy (Tree.get_path [agg_root; ph; pl] s) = false ->
  stored_count (counter_at s ph pl) = Some n ->
  let s' := db (fst (run (categorize_and_store_alert py_format geocode sha256_hex16
                            clock_text event) (World s []))) in
  members s' ph pl = [(formID event, Tree.normalise (p_data p))]
  /\ Tree.get_path [agg_root; ph; pl; "bounds"] s' = Tree.normalise (p_bounds p)
  /\ counter_at s' ph pl = JInt (n + 1)
  /\ listed s' ph pl = true.
Proof.
  intros Ha Hk ph pl Hnew Hn s'. subst s'.
  rewrite (@ingest_accepted py_format geocode sha256_hex16 clock_text event p
             (World s []) Ha Hk).
  cbn [fst]. fold ph pl.
  destruct (@accepted_inv py_format geocode sha256_hex16 clock_text event p Ha)
    as [_ Hprep].
  destruct (@prepare_alert_data py_format geocode sha256_hex16 clock_text _ p Hprep)
    as (_ & Hd & _).
  pose proof (@stored_members ph pl (formID event) (p_bounds p) (p_data p)
                (World s []) Hd) as Hm.
  cbn [db] in Hm. rewrite (members_of_missing_place s ph pl Hnew) in Hm.
  cbn [update] in Hm.
  destruct (@stored_counter ph pl (formID event) (p_bounds p) (p_data p)
              (World s []) n Hn) as [Hc Hok].
  split; [exact Hm|]. split; [|split; [exact Hc|]].
  - destruct (@stored_db_cases ph pl (formID event) (p_bounds p) (p_data p)
                (World s [])) as [(c & _ & _ & ->)|(e & He & _ & _)]; [|congruence].
    rewrite TreeFacts.get_set_other by reflexivity.
    unfold with_bucket. cbn [db]. rewrite Hnew.
    apply TreeFacts.get_set_same.
    destruct (normalise_null_or_nonempty (p_bounds p)); auto.
  - apply (@listed_of_descendant ph pl ["alertForms"]).
    unfold members in Hm. intros H. rewrite H in Hm. discriminate.
Qed.

Lemma ingestion_creates_bucket_witness :
  let s' := Scenario.ingested Scenario.old JNull in
  members s' "FLOOD" Scenario.place_id
  = [("old", Tree.normalise (p_data (Scenario.prepared Scenario.old)))]
  /\ Tree.get_path [agg_root; "FLOOD"; Scenario.place_id; "bounds"] s'
     = Tree.normalise (p_bounds (Scenario.prepared Scenario.old))
  /\ counter_at s' "FLOOD" Scenario.place_id = JInt (0 + 1)
  /\ listed s' "FLOOD" Scenario.place_id = true.
Proof.
  apply (@ingestion_creates_bucket Scenario.format_other Scenario.geocode
           Scenario.digest Scenario.clock Scenario.old
           (Scenario.prepared Scenario.old) JNull 0); reflexivity.
Defined.

(** X5: an accepted event for a place that is already in the aggregation
    tree leaves the bounds of the place as they are, whatever bounds the
    geocoder returned this time. *)
Theorem ingestion_keeps_bounds (py_format : json -> string)
    (geocode : json -> json -> result (string * json))
    (sha256_hex16 : string -> string) (clock_text : Q -> result string)
    (event : Event) (p : Prepared) (s : json) :
  accepted py_format geocode sha256_hex16 clock_text event = Some p ->
  forallb Path.valid_key (target_keys py_format event p) = true ->
  let ph := fmt py_format (p_phenomenon p) in
  let pl := p_place_id p in
  Py.truthy (Tree.get_path [agg_root; ph; pl] s) = true ->
  let s' := db (fst (run (categorize_and_store_alert py_format geocode sha256_hex16
                            clock_text event) (World s []))) in
  Tree.get_path [agg_root; ph; pl; "bounds"] s'
  = Tree.get_path [agg_root; ph; pl; "bounds"] s.
Proof.
  intros Ha Hk ph pl Hold s'. subst s'.
  rewrite (@ingest_accepted py_format geocode sha256_hex16 clock_text event p
             (World s []) Ha Hk).
  cbn [fst]. fold ph pl.
  assert (H3 : Tree.get_path [agg_root; ph; pl; "bounds"]
                 (with_bucket ph pl (formID event) (p_bounds p) (p_data p) s)
               = Tree.get_path [agg_root; ph; pl; "bounds"] s).
  { unfold with_bucket. rewrite Hold. unfold with_member.
    apply TreeFacts.get_set_other. rewrite !diverge_same_head. reflexivity. }
  destruct (@stored_db_cases ph pl (formID event) (p_bounds p) (p_data p)
              (World s [])) as [(c & _ & _ & ->)|(e & _ & -> & _)].
  - rewrite TreeFacts.get_set_other by reflexivity. exact H3.
  - exact H3.
Qed.

Lemma ingestion_keeps_bounds_witness :
  Tree.get_path [agg_root; "FLOOD"; Scenario.place_id; "bounds"]
    (Scenario.ingested Scenario.young Scenario.one_member_db)
  = Tree.get_path [agg_root; "FLOOD"; Scenario.place_id; "bounds"]
      Scenario.one_member_db.
Proof.
  apply (@ingestion_keeps_bounds Scenario.format_other Scenario.geocode
           Scenario.digest Scenario.clock Scenario.young
           (Scenario.prepared Scenario.young) Scenario.one_member_db); reflexivity.
Defined.

(** ** Ingestion: events that are dropped *)

Lemma dropped_when_unprepared (py_format : json -> string)
    (geocode : json -> json -> result (string * json))
    (sha256_hex16 : string -> string) (clock_text : Q -> result string)
    (event : Event) (fields : list (string * json)) (w : world) :
  after event = JObj fields ->
  (exists e, prepare_alert py_format geocode sha256_hex16 clock_text (JObj fields)
             = Err e) ->
  run (categorize_and_store_alert py_format geocode sha256_hex16 clock_text event) w
  = (w, Ok tt).
Proof.
  intros Ha [e He]. unfold categorize_and_store_alert. rewrite Ha.
  cbn [Py.all_in Py.contains].
  destruct (has_key "location" fields); [|reflexivity].
  destruct (has_key "criticalWeatherPhenomenon" fields); [|reflexivity].
  cbn [lift bind negb]. rewrite He. reflexivity.
Qed.

Ltac fail_chain :=
  repeat match goal with
         | |- exists e, rbind ?r _ = Err e =>
             let E := fresh "E" in
             destruct r eqn:E; cbn [rbind]; [try congruence | eauto]
         | |- exists e, (let '(_, _) := ?x in _) = Err e => destruct x
         end.

(** X6: when the geocoder gives no answer, or an answer without bounds
    and viewport, an alert event is dropped: the ingestion returns, no
    database call is made and the database is unchanged. *)
Theorem ingestion_drops_unlocated_event (py_format : json -> string)
    (geocode : json -> json -> result (string * json))
    (sha256_hex16 : string -> string) (clock_text : Q -> result string)
    (event : Event) (fields : list (string * json)) (w : world) :
  after event = JObj fields ->
  (forall lat lng, match geocode lat lng with
                   | Ok (_, bounds) => Py.truthy bounds = false
                   | Err _ => True
                   end) ->
  run (categorize_and_store_alert py_format geocode sha256_hex16 clock_text event) w
  = (w, Ok tt).
Proof.
  intros Ha Hgeo. apply (dropped_when_unprepared _ _ _ _ _ w Ha).
  assert (Hloc : forall lat lng x,
             get_location_name_and_bounds geocode lat lng <> Ok x).
  { intros lat lng x. unfold get_location_name_and_bounds.
    specialize (Hgeo lat lng).
    destruct (geocode lat lng) as [[name bounds]|e]; cbn [rbind]; [|discriminate].
    rewrite Hgeo. discriminate. }
  unfold prepare_alert.
  repeat match goal with
         | |- exists e, rbind (get_location_name_and_bounds _ ?a ?b) _ = Err e =>
             let E := fresh "E" in
             destruct (get_location_name_and_bounds geocode a b) eqn:E;
             [now apply Hloc in E | cbn [rbind]; eauto]
         | |- exists e, rbind ?r _ = Err e =>
             let E := fresh "E" in
             destruct r eqn:E; cbn [rbind]; [| eauto]
         end.
Qed.

Lemma ingestion_drops_unlocated_event_witness :
  run (categorize_and_store_alert Scenario.format_other
         (fun _ _ => Err OtherError) Scenario.digest Scenario.clock Scenario.young)
      (World Scenario.one_member_db [])
  = (World Scenario.one_member_db [], Ok tt).
Proof.
  eapply ingestion_drops_unlocated_event; [reflexivity|].
  intros lat lng. exact I.
Defined.

(** X7: an alert event without a [timestamp] is dropped, although the
    validation does not ask for one: the ingestion returns, no database
    call is made and the database is unchanged. *)
Theorem ingestion_drops_event_without_timestamp (py_format : json -> string)
    (geocode : json -> json -> result (string * json))
    (sha256_hex16 : string -> string) (clock_text : Q -> result string)
    (event : Event) (fields : list (string * json)) (w : world) :
  after event = JObj fields ->
  assoc "timestamp" fields = None ->
  run (categorize_and_store_alert py_format geocode sha256_hex16 clock_text event) w
  = (w, Ok tt).
Proof.
  intros Ha Hts. apply (dropped_when_unprepared _ _ _ _ _ w Ha).
  assert (Hno : Py.getitem (JObj fields) (JStr "timestamp") = Err KeyError).
  { cbn [Py.getitem]. now rewrite Hts. }
  unfold prepare_alert. fail_chain.
Qed.

Lemma ingestion_drops_event_without_timestamp_witness :
  run (Scenario.ingest
         {| after := JObj [("location", JObj [("latitude", JFloat (3798 # 100));
                                              ("longitude", JFloat (2372 # 100))]);
                           ("criticalWeatherPhenomenon", JStr "FLOOD")];
            formID := "a1" |})
      (World Scenario.one_member_db [])
  = (World Scenario.one_member_db [], Ok tt).
Proof.
  eapply ingestion_drops_event_without_timestamp; reflexivity.
Defined.

(** X8: the trigger also fires when an alert form is deleted, and the
    data after the write is then [None]: the validation raises
    [TypeError] outside the [try] block and the function fails, without a
    database call.  The same holds for data that is a number or a
    boolean; data that is a string never raises and is dropped. *)
Theorem ingestion_of_data_that_is_no_dict (py_format : json -> string)
    (geocode : json -> json -> result (string * json))
    (sha256_hex16 : string -> string) (clock_text : Q -> result string)
    (event : Event) (w : world) :
  let out := run (categorize_and_store_alert py_format geocode sha256_hex16
                    clock_text event) w in
  match after event with
  | JObj _ => True
  | JStr _ => out = (w, Ok tt)
  | _ => out = (w, Err TypeError)
  end.
Proof.
  cbv zeta. unfold categorize_and_store_alert.
  destruct (after event) as [| | | |s|]; try reflexivity; try exact I.
  cbn [Py.all_in Py.contains].
  destruct (Py.substring_of "location" s); [|reflexivity].
  destruct (Py.substring_of "criticalWeatherPhenomenon" s); reflexivity.
Qed.

(** ** The purge callables: results *)

(** X9: the two purge callables never raise: for every request and every
    database they return a result dict, and when the request data is not
    a dict the result is "An unexpected error occurred" and no database
    call is made. *)
Theorem purges_return_a_result (py_format : json -> string)
    (req : CallableRequest) (w : world) :
  let out1 := run (delete_alerts_by_location py_format req) w in
  let out2 := run (delete_alert_by_phenomenon_and_location py_format req) w in
  (exists r, snd out1 = Ok r) /\ (exists r, snd out2 = Ok r)
  /\ ((forall fields, data req <> JObj fields) ->
      out1 = (w, Ok (failure "An unexpected error occurred"))
      /\ out2 = (w, Ok (failure "An unexpected error occurred"))).
Proof.
  cbv zeta. unfold delete_alerts_by_location, delete_alert_by_phenomenon_and_location.
  rewrite !run_try_except. split; [|split].
  - destruct (run _ w) as [w' [r|e]]; cbn [run snd]; eauto.
  - destruct (run _ w) as [w' [r|e]]; cbn [run snd]; eauto.
  - intros Hnd. destruct (data req); try (split; reflexivity).
    now destruct (Hnd kvs).
Qed.

Section Purge_member_results.
Variable py_format : json -> string.
Import Tree TreeFacts LayoutFacts.

(** X10: on a well laid out database the single-member purge answers
    "Phenomenon not found", "Place not found" or "Alert not found"
    according to the first level at which the request finds nothing, the
    alert id being looked up among the children of the place node; in
    each case it has made one read and the database is unchanged. *)
Theorem purge_member_not_found (ph pl id : string) (w : world) :
  layout_ok (db w) = true ->
  let out := run (delete_alert_by_phenomenon_and_location py_format
                    (purge_member_request ph pl id)) w in
  match assoc ph (children (get_path [agg_root] (db w))) with
  | None => out = (do_get [agg_root] w, Ok (failure "Phenomenon not found"))
  | Some places =>
      match assoc pl (children places) with
      | None => out = (do_get [agg_root] w, Ok (failure "Place not found"))
      | Some place_node =>
          match Py.contains (JStr id) place_node with
          | Ok false => out = (do_get [agg_root] w, Ok (failure "Alert not found"))
          | _ => True
          end
      end
  end.
Proof using py_format.
  intros Hl. cbv zeta. unfold delete_alert_by_phenomenon_and_location.
  rewrite run_try_except.
  cbn [purge_member_request data Py.get assoc String.eqb Ascii.eqb Bool.eqb lift bind].
  change (reference agg_root) with (@Ret (list string) [agg_root]).
  cbn [bind ref_get run].
  destruct (assoc ph (children (get_path [agg_root] (db w)))) as [places|] eqn:Ea.
  - destruct (layout_phenomenon _ _ Hl Ea) as [Hph Hpls].
    destruct (get_path [agg_root] (db w)) as [| | | | |phs] eqn:Eg; try discriminate.
    cbn [children] in Ea.
    assert (Ho : Py.or_ (JObj phs) (JObj []) = JObj phs).
    { unfold Py.or_. destruct phs; [discriminate | reflexivity]. }
    assert (Hk1 : has_key ph phs = true) by (unfold has_key; now rewrite Ea).
    rewrite Ho. cbn [Py.contains Py.getitem]. rewrite Hk1, Ea.
    cbn [lift bind].
    destruct places as [| | | | |pls]; try discriminate.
    cbn [Py.contains children lift bind].
    destruct (assoc pl pls) as [place_node|] eqn:Ep.
    + assert (Hk2 : has_key pl pls = true) by (unfold has_key; now rewrite Ep).
      rewrite Hk2. cbn [lift bind Py.getitem]. rewrite Ep. cbn [lift bind].
      destruct (Py.contains (JStr id) place_node) as [[|]|e]; try exact I.
      reflexivity.
    + assert (Hk2 : has_key pl pls = false) by (unfold has_key; now rewrite Ep).
      rewrite Hk2. reflexivity.
  - assert (Hc : Py.contains (JStr ph) (Py.or_ (get_path [agg_root] (db w)) (JObj []))
                 = Ok false).
    { unfold layout_ok in Hl.
      destruct (get_path [agg_root] (db w)) as [| | | | |phs]; try discriminate.
      - reflexivity.
      - cbn [children] in Ea. unfold Py.or_.
        destruct phs; [reflexivity|]. cbn [Py.truthy Py.contains].
        unfold has_key. now rewrite Ea. }
    rewrite Hc. reflexivity.
Qed.

End Purge_member_results.

Lemma purge_member_not_found_witness :
  run (delete_alert_by_phenomenon_and_location Scenario.format_other
         (purge_member_request "FLOOD" Scenario.place_id "young"))
      (World Scenario.two_member_db [])
  = (do_get [agg_root] (World Scenario.two_member_db []),
     Ok (failure "Alert not found")).
Proof.
  apply (@purge_member_not_found Scenario.format_other "FLOOD" Scenario.place_id
           "young" (World Scenario.two_member_db [])).
  reflexivity.
Defined.

(** ** Ingestion followed by a purge of the bucket *)

(** X11: on a well laid out database, purging the bucket an accepted
    event was just ingested into succeeds and leaves that bucket without
    members, without counter and unlisted, whatever it held before; every
    other bucket has the members and the counter it had before the
    ingestion. *)
Theorem purge_after_ingestion (py_format : json -> string)
    (geocode : json -> json -> result (string * json))
    (sha256_hex16 : string -> string) (clock_text : Q -> result string)
    (event : Event) (p : Prepared) (s : json) :
  accepted py_format geocode sha256_hex16 clock_text event = Some p ->
  forallb Path.valid_key (target_keys py_format event p) = true ->
  layout_ok s = true ->
  let ph := fmt py_format (p_phenomenon p) in
  let pl := p_place_id p in
  let s1 := db (fst (run (categorize_and_store_alert py_format geocode sha256_hex16
                            clock_text event) (World s []))) in
  let out := run (delete_alerts_by_location py_format (purge_request ph pl))
                 (World s1 []) in
  snd out = Ok success
  /\ members (db (fst out)) ph pl = []
  /\ counter_at (db (fst out)) ph pl = JNull
  /\ listed (db (fst out)) ph pl = false
  /\ forall ph' pl', (ph', pl') <> (ph, pl) ->
       members (db (fst out)) ph' pl' = members s ph' pl'
       /\ counter_at (db (fst out)) ph' pl' = counter_at s ph' pl'.
Proof.
  intros Ha Hk Hl ph pl s1 out.
  assert (Hs1 : s1 = db (fst (stored ph pl (formID event) (p_bounds p) (p_data p)
                                (World s [])))).
  { unfold s1. now rewrite (@ingest_accepted py_format geocode sha256_hex16
                              clock_text event p (World s []) Ha Hk). }
  destruct (@accepted_inv py_format geocode sha256_hex16 clock_text event p Ha)
    as [_ Hprep].
  destruct (@prepare_alert_data py_format geocode sha256_hex16 clock_text _ p Hprep)
    as (_ & Hd & _).
  assert (Hkeys : Path.valid_key ph = true /\ Path.valid_key pl = true).
  { cbn [target_keys forallb] in Hk. fold ph pl in Hk.
    apply andb_prop in Hk as [Hph Hk]. apply andb_prop in Hk as [Hpl _]. auto. }
  destruct Hkeys as [Hph Hpl].
  assert (Hl1 : layout_ok s1 = true).
  { rewrite Hs1. now apply stored_layout. }
  assert (Hlisted : listed s1 ph pl = true).
  { apply (@listed_of_descendant ph pl ["alertForms"]).
    pose proof (@stored_members ph pl (formID event) (p_bounds p) (p_data p)
                  (World s []) Hd) as Hm.
    rewrite <- Hs1 in Hm. unfold members in Hm. intros H. rewrite H in Hm.
    cbn [children] in Hm. symmetry in Hm. now apply update_not_nil in Hm. }
  unfold out.
  rewrite (@purge_bucket_run py_format ph pl (World s1 []) Hl1). cbn [db].
  unfold listed in Hlisted. cbn [Tree.get_path] in Hlisted.
  unfold Tree.child at 1 in Hlisted. cbn [Tree.get_path].
  destruct (assoc ph (children (Tree.child agg_root s1))) as [places|];
    [|discriminate].
  rewrite Hlisted. cbn [fst snd do_delete do_get db].
  set (s2 := Tree.set_path [agg_root; ph; pl] JNull s1).
  assert (Hagg : forall q, Tree.get_path (agg_root :: q)
                             (Tree.set_path [count_root; ph; pl] JNull s2)
                           = Tree.get_path (agg_root :: q) s2).
  { intros q. apply TreeFacts.get_set_other. reflexivity. }
  split; [reflexivity|]. split; [|split; [|split]].
  - unfold members. rewrite Hagg.
    unfold s2. now rewrite (TreeFacts.get_set_below [agg_root; ph; pl] ["alertForms"])
      by now left.
  - unfold counter_at.
    now rewrite (TreeFacts.get_set_below [count_root; ph; pl] ["counter"]) by now left.
  - unfold listed. rewrite Hagg. apply (has_key_deleted [agg_root; ph]).
  - intros ph' pl' Hne.
    destruct (@stored_frame ph pl (formID event) (p_bounds p) (p_data p) (World s [])
                ph' pl' Hne) as [Hm Hc].
    rewrite <- Hs1 in Hm, Hc. cbn [db] in Hm, Hc.
    rewrite <- Hm, <- Hc. unfold members, counter_at. split.
    + rewrite Hagg. unfold s2. apply f_equal.
      apply TreeFacts.get_set_other. now apply diverge_other_bucket.
    + rewrite TreeFacts.get_set_other by now apply diverge_other_bucket.
      unfold s2. apply TreeFacts.get_set_other. reflexivity.
Qed.

Lemma purge_after_ingestion_witness :
  let s1 := Scenario.ingested Scenario.young Scenario.one_member_db in
  let out := run (delete_alerts_by_location Scenario.format_other
                    (purge_request "FLOOD" Scenario.place_id)) (World s1 []) in
  snd out = Ok success
  /\ members (db (fst out)) "FLOOD" Scenario.place_id = []
  /\ counter_at (db (fst out)) "FLOOD" Scenario.place_id = JNull
  /\ listed (db (fst out)) "FLOOD" Scenario.place_id = false
  /\ forall ph' pl', (ph', pl') <> ("FLOOD", Scenario.place_id) ->
       members (db (fst out)) ph' pl' = members Scenario.one_member_db ph' pl'
       /\ counter_at (db (fst out)) ph' pl' = counter_at Scenario.one_member_db ph' pl'.
Proof.
  apply (@purge_after_ingestion Scenario.format_other Scenario.geocode
           Scenario.digest Scenario.clock Scenario.young
           (Scenario.prepared Scenario.young) Scenario.one_member_db); reflexivity.
Defined.

(** ** Rounding to binary64 *)

Module FloatFacts.
Import Float.
Local Open Scope Q_scope.

Lemma pow2_pos e : 0 < pow2 e.
Proof. apply Qpower_0_lt. reflexivity. Qed.

Lemma pow2_add a b : pow2 (a + b) == pow2 a * pow2 b.
Proof. apply Qpower_plus. discriminate. Qed.

Lemma pow2_inv e : pow2 (- e) * pow2 e == 1.
Proof. rewrite <- pow2_add. replace (- e + e)%Z with 0%Z by lia. reflexivity. Qed.

Lemma pow2_le a b : (a <= b)%Z -> pow2 a <= pow2 b.
Proof. intros H. apply Qpower_le_compat_l; [assumption | discriminate]. Qed.

Lemma pow2_lt_inv a b : pow2 a < pow2 b -> (a < b)%Z.
Proof. intros H. apply (Qpower_lt_compat_l_inv 2); [assumption | reflexivity]. Qed.

Lemma pow2_Z n : (0 <= n)%Z -> pow2 n == inject_Z (2 ^ n).
Proof. intros H. unfold pow2. now rewrite Zpower_Qpower. Qed.

(** *** Rounding to an integer *)

Lemma floor_bounds y : inject_Z (Qfloor y) <= y < inject_Z (Qfloor y) + 1.
Proof.
  split; [apply Qfloor_le|].
  pose proof (Qlt_floor y) as H. rewrite inject_Z_plus in H. exact H.
Qed.

Lemma round_half_even_cases y :
  let f := Qfloor y in
  (round_half_even y = f /\ y - inject_Z f <= 1 # 2)
  \/ (round_half_even y = (f + 1)%Z /\ 1 # 2 <= y - inject_Z f
      /\ (y - inject_Z f == 1 # 2 -> Z.even f = false)).
Proof.
  cbv zeta. unfold round_half_even.
  destruct (y - inject_Z (Qfloor y) ?= 1 # 2) eqn:E.
  - apply Qeq_alt in E. destruct (Z.even (Qfloor y)) eqn:Ev.
    + left. split; [reflexivity|]. rewrite E. apply Qle_refl.
    + right. split; [reflexivity|]. split; [rewrite E; apply Qle_refl | reflexivity].
  - apply Qlt_alt in E. left. split; [reflexivity | now apply Qlt_le_weak].
  - apply Qgt_alt in E. right. split; [reflexivity|]. split; [now apply Qlt_le_weak|].
    intros H. rewrite H in E. now apply Qlt_irrefl in E.
Qed.

Lemma Zle_of_Q a b : inject_Z a < inject_Z b + 1 -> (a <= b)%Z.
Proof.
  intros H. change (inject_Z b + 1) with (inject_Z b + inject_Z 1) in H.
  rewrite <- inject_Z_plus in H. rewrite <- Zlt_Qlt in H. lia.
Qed.

Lemma inject_Z_pred n : inject_Z (n - 1) == inject_Z n - 1.
Proof. unfold Z.sub. rewrite inject_Z_plus, inject_Z_opp. reflexivity. Qed.

Lemma round_half_even_error y :
  - (1 # 2) <= inject_Z (round_half_even y) - y <= 1 # 2.
Proof.
  pose proof (floor_bounds y) as [Hl Hu].
  destruct (round_half_even_cases y) as [[-> H]|[-> [H _]]].
  - split; lra.
  - rewrite inject_Z_plus. change (inject_Z 1) with 1. split; lra.
Qed.

Lemma round_half_even_le y n : y <= inject_Z n -> (round_half_even y <= n)%Z.
Proof.
  intros Hy. pose proof (floor_bounds y) as [Hl Hu].
  assert (Hf : (Qfloor y <= n)%Z) by (apply Zle_of_Q; lra).
  destruct (round_half_even_cases y) as [[-> H]|[-> [H _]]]; [assumption|].
  assert (Hne : Qfloor y <> n).
  { intros E. rewrite E in H. lra. }
  lia.
Qed.

Lemma round_half_even_ge y n : inject_Z n <= y -> (n <= round_half_even y)%Z.
Proof.
  intros Hy. pose proof (floor_bounds y) as [Hl Hu].
  assert (Hf : (n <= Qfloor y)%Z) by (apply Zle_of_Q; lra).
  destruct (round_half_even_cases y) as [[-> H]|[-> [H _]]]; lia.
Qed.

(** Below the midpoint under [n] the result is under [n]; from the
    midpoint on it is [n] or more when [n] is even. *)
Lemma round_half_even_below y n :
  y < inject_Z n - (1 # 2) -> (round_half_even y < n)%Z.
Proof.
  intros Hy. pose proof (floor_bounds y) as [Hl Hu].
  assert (Hf : (Qfloor y <= n - 1)%Z).
  { apply Zle_of_Q. rewrite inject_Z_pred. lra. }
  destruct (round_half_even_cases y) as [[-> H]|[-> [H _]]]; [lia|].
  assert (Hne : Qfloor y <> (n - 1)%Z).
  { intros E. rewrite E, inject_Z_pred in H. lra. }
  lia.
Qed.

Lemma round_half_even_from y n :
  Z.even n = true -> inject_Z n - (1 # 2) <= y -> (n <= round_half_even y)%Z.
Proof.
  intros Hn Hy. pose proof (floor_bounds y) as [Hl Hu].
  assert (Hf : (n - 1 <= Qfloor y)%Z).
  { apply Zle_of_Q. rewrite inject_Z_pred. lra. }
  destruct (round_half_even_cases y) as [[E H]|[-> _]]; [|lia].
  rewrite E. destruct (Z.eq_dec (Qfloor y) (n - 1)) as [Ef|]; [|lia].
  exfalso. unfold round_half_even in E.
  assert (Hh : y - inject_Z (Qfloor y) == 1 # 2).
  { rewrite Ef, inject_Z_pred in *. lra. }
  apply Qeq_alt in Hh. rewrite Hh in E.
  replace (Qfloor y) with (n - 1)%Z in E at 1.
  replace n with (Z.succ (n - 1)) in Hn by lia. rewrite Z.even_succ in Hn.
  rewrite <- Z.negb_even in Hn. destruct (Z.even (n - 1)); [discriminate | lia].
Qed.

(** *** The binade of a positive number *)

Lemma ilog2_spec a : 0 < a -> pow2 (ilog2 a) <= a < pow2 (ilog2 a + 1).
Proof.
  intros Ha. destruct a as [n d]. unfold ilog2. cbn [Qnum Qden].
  assert (Hn : (0 < n)%Z).
  { unfold Qlt in Ha. cbn in Ha. lia. }
  set (ln := Z.log2 n). set (ld := Z.log2 (Zpos d)).
  pose proof (Z.log2_spec n Hn) as [Hn1 Hn2]. fold ln in Hn1, Hn2.
  pose proof (Z.log2_spec (Zpos d) eq_refl) as [Hd1 Hd2]. fold ld in Hd1, Hd2.
  assert (Hln : (0 <= ln)%Z) by apply Z.log2_nonneg.
  assert (Hld : (0 <= ld)%Z) by apply Z.log2_nonneg.
  assert (Q1 : pow2 ln <= inject_Z n).
  { rewrite pow2_Z by assumption. now rewrite <- Zle_Qle. }
  assert (Q2 : inject_Z n < pow2 (ln + 1)).
  { rewrite pow2_Z by lia. rewrite <- Zlt_Qlt. now rewrite <- Z.add_1_r in Hn2. }
  assert (Q3 : pow2 ld <= inject_Z (Zpos d)).
  { rewrite pow2_Z by assumption. now rewrite <- Zle_Qle. }
  assert (Q4 : inject_Z (Zpos d) < pow2 (ld + 1)).
  { rewrite pow2_Z by lia. rewrite <- Zlt_Qlt. now rewrite <- Z.add_1_r in Hd2. }
  assert (Hq : n # d == inject_Z n / inject_Z (Zpos d)) by apply Qmake_Qdiv.
  set (k := (ln - ld)%Z).
  assert (E1 : pow2 (ln + 1) == pow2 (k + 1) * pow2 ld).
  { rewrite <- pow2_add. unfold k. now replace (ln - ld + 1 + ld)%Z with (ln + 1)%Z by lia. }
  assert (E2 : pow2 ln == pow2 (k - 1) * pow2 (ld + 1)).
  { rewrite <- pow2_add. unfold k. now replace (ln - ld - 1 + (ld + 1))%Z with ln by lia. }
  pose proof (pow2_pos ld) as P1. pose proof (pow2_pos (k + 1)) as P2.
  pose proof (pow2_pos (k - 1)) as P3.
  assert (Hd : 0 < inject_Z (Zpos d)) by (rewrite <- (Zlt_Qlt 0); lia).
  assert (Up : n # d < pow2 (k + 1)).
  { rewrite Hq. apply Qlt_shift_div_r; [assumption|].
    apply Qlt_le_trans with (pow2 (k + 1) * pow2 ld); [now rewrite <- E1|].
    apply Qmult_le_l; assumption. }
  assert (Lo : pow2 (k - 1) < n # d).
  { rewrite Hq. apply Qlt_shift_div_l; [assumption|].
    apply Qlt_le_trans with (pow2 (k - 1) * pow2 (ld + 1)); [|now rewrite <- E2].
    apply Qmult_lt_l; assumption. }
  destruct (Qle_bool (pow2 k) (n # d)) eqn:E.
  - apply Qle_bool_iff in E. split; assumption.
  - replace (k - 1 + 1)%Z with k by lia. split; [now apply Qlt_le_weak|].
    apply Qnot_le_lt. intros H. apply Qle_bool_iff in H. congruence.
Qed.

Lemma ilog2_unique a k : pow2 k <= a < pow2 (k + 1) -> ilog2 a = k.
Proof.
  intros [Hl Hu].
  assert (Ha : 0 < a) by (eapply Qlt_le_trans; [apply (pow2_pos k) | exact Hl]).
  destruct (ilog2_spec Ha) as [Sl Su].
  assert (ilog2 a < k + 1)%Z by (apply pow2_lt_inv; eapply Qle_lt_trans; eassumption).
  assert (k < ilog2 a + 1)%Z by (apply pow2_lt_inv; eapply Qle_lt_trans; eassumption).
  lia.
Qed.


(** *** Rounding *)

Lemma Qabs_of_pos x : 0 < x -> Qabs x = x.
Proof.
  destruct x as [n d]. unfold Qlt. cbn. intros H. unfold Qabs. f_equal. lia.
Qed.

Lemma Qeq_bool_pos x : 0 < x -> Qeq_bool x 0 = false.
Proof.
  intros H. destruct (Qeq_bool x 0) eqn:E; [|reflexivity].
  apply Qeq_bool_iff in E. rewrite E in H. now apply Qlt_irrefl in H.
Qed.

Lemma Qabs_nonzero x : Qeq_bool x 0 = false -> 0 < Qabs x.
Proof.
  destruct x as [n d]. unfold Qeq_bool, Qabs, Qlt. cbn.
  destruct n; cbn; intros H; [discriminate H | lia | lia].
Qed.

(** A positive number of binade [k] is rounded at the exponent
    [max (k - 52) (-1074)]. *)
Lemma round_pos x k :
  pow2 k <= x < pow2 (k + 1) ->
  let e := Z.max (k - 52) (-1074) in
  round x == inject_Z (round_half_even (x * pow2 (- e))) * pow2 e.
Proof.
  intros Hk e.
  assert (Hx : 0 < x) by (eapply Qlt_le_trans; [apply (pow2_pos k) | apply Hk]).
  unfold round, exponent. rewrite (Qeq_bool_pos Hx), (Qabs_of_pos Hx).
  rewrite (@ilog2_unique x k Hk). apply Qred_correct.
Qed.

Lemma round_nonpos x : x <= 0 -> round x <= 0.
Proof.
  intros Hx. unfold round. destruct (Qeq_bool x 0); [apply Qle_refl|].
  rewrite Qred_correct. set (e := exponent x).
  assert (Hm : (round_half_even (x * pow2 (- e)) <= 0)%Z).
  { apply round_half_even_le. pose proof (pow2_pos (- e)). change (inject_Z 0) with 0. nra. }
  rewrite Zle_Qle in Hm. change (inject_Z 0) with 0 in Hm.
  pose proof (pow2_pos e). nra.
Qed.

(** The error of a rounding at an exponent of [E] or less is half a unit
    of that exponent at most. *)
Lemma round_error x E :
  Qabs x < pow2 (E + 53) -> (-1074 <= E)%Z ->
  Qabs (round x - x) <= pow2 (E - 1).
Proof.
  intros Hx HE. unfold round.
  destruct (Qeq_bool x 0) eqn:E0.
  - apply Qeq_bool_iff in E0. rewrite E0. apply Qlt_le_weak, pow2_pos.
  - pose proof (Qabs_nonzero _ E0) as Ha.
    rewrite Qred_correct. set (e := exponent x).
    assert (He : (e <= E)%Z).
    { unfold e, exponent. destruct (ilog2_spec Ha) as [Hl _].
      assert (ilog2 (Qabs x) < E + 53)%Z by (apply pow2_lt_inv; eapply Qle_lt_trans; eassumption).
      lia. }
    pose proof (round_half_even_error (x * pow2 (- e))) as [H1 H2].
    pose proof (pow2_inv e) as Hi. pose proof (pow2_pos e) as Hp.
    pose proof (pow2_pos (- e)) as Hp'.
    set (m := inject_Z (round_half_even (x * pow2 (- e)))) in *.
    assert (Hb : Qabs (m * pow2 e - x) <= pow2 e * (1 # 2)).
    { apply Qabs_Qle_condition. split.
      - assert (- (1 # 2) * pow2 e <= (m - x * pow2 (- e)) * pow2 e) by nra.
        assert ((m - x * pow2 (- e)) * pow2 e == m * pow2 e - x * (pow2 (- e) * pow2 e)) by ring.
        rewrite Hi in H0. lra.
      - assert ((m - x * pow2 (- e)) * pow2 e <= (1 # 2) * pow2 e) by nra.
        assert ((m - x * pow2 (- e)) * pow2 e == m * pow2 e - x * (pow2 (- e) * pow2 e)) by ring.
        rewrite Hi in H0. lra. }
    eapply Qle_trans; [exact Hb|].
    assert (pow2 e == pow2 (e - 1) * pow2 1).
    { rewrite <- pow2_add. now replace (e - 1 + 1)%Z with e by lia. }
    change (pow2 1) with (2 # 1) in H.
    assert (pow2 (e - 1) <= pow2 (E - 1)) by (apply pow2_le; lia).
    lra.
Qed.

(** The comparison of line 195: a rounded number is 86400 or more
    exactly when the number itself is no less than the midpoint under
    86400, which is [86400 - 2^-37]. *)
Lemma round_ge_86400 x : 86400 <= round x <-> 86400 - (1 # 137438953472) <= x.
Proof.
  destruct (Qlt_le_dec 0 x) as [Hpos|Hnp].
  2:{ pose proof (round_nonpos Hnp). split; intros H'; exfalso; lra. }
  destruct (ilog2_spec Hpos) as [Hl Hu]. set (k := ilog2 x) in *.
  pose proof (@round_pos x k (conj Hl Hu)) as Hr. cbv zeta in Hr.
  remember (Z.max (k - 52) (-1074)) as e eqn:Ee.
  remember (round_half_even (x * pow2 (- e))) as m eqn:Em.
  pose proof (pow2_pos e) as Hpe. pose proof (pow2_pos (- e)) as Hpe'.
  pose proof (pow2_inv e) as Hi.
  destruct (Z_lt_le_dec k 16) as [Hk|Hk]; [|destruct (Z_lt_le_dec 16 k) as [Hk'|Hk']].
  - (* under 2^16 *)
    assert (He : (e <= -37)%Z) by lia.
    assert (Hx : x < pow2 16).
    { eapply Qlt_le_trans; [exact Hu | apply pow2_le; lia]. }
    assert (Hm : (m <= 2 ^ (16 - e))%Z).
    { rewrite Em. apply round_half_even_le. rewrite <- pow2_Z by lia.
      replace (16 - e)%Z with (16 + - e)%Z by lia. rewrite pow2_add.
      apply Qlt_le_weak in Hx. pose proof (pow2_pos 16). nra. }
    rewrite Zle_Qle in Hm. rewrite <- pow2_Z in Hm by lia.
    replace (16 - e)%Z with (16 + - e)%Z in Hm by lia. rewrite pow2_add in Hm.
    assert (Hround : round x <= pow2 16).
    { rewrite Hr.
      assert (inject_Z m * pow2 e <= pow2 16 * pow2 (- e) * pow2 e) by nra.
      assert (pow2 16 * pow2 (- e) * pow2 e == pow2 16 * (pow2 (- e) * pow2 e)) by ring.
      rewrite Hi in H0. lra. }
    change (pow2 16) with (65536 # 1) in *.
    split; intros H'; exfalso; lra.
  - (* 2^17 and more *)
    assert (He : e = (k - 52)%Z) by lia.
    assert (Hx : pow2 17 <= x).
    { eapply Qle_trans; [apply pow2_le | exact Hl]. lia. }
    assert (Hm : (2 ^ 52 <= m)%Z).
    { rewrite Em. apply round_half_even_ge. rewrite <- pow2_Z by lia.
      replace 52%Z with (k + - e)%Z by lia. rewrite pow2_add. nra. }
    rewrite Zle_Qle in Hm. rewrite <- pow2_Z in Hm by lia.
    assert (Hround : pow2 17 <= round x).
    { rewrite Hr. apply Qle_trans with (pow2 k); [apply pow2_le; lia|].
      replace k with (52 + e)%Z at 1 by lia. rewrite pow2_add. nra. }
    change (pow2 17) with (131072 # 1) in *.
    split; intros _; lra.
  - (* between 2^16 and 2^17 *)
    assert (Hk16 : k = 16%Z) by lia.
    assert (He : e = (-36)%Z) by lia.
    rewrite He in Em, Hr. change (- -36)%Z with 36%Z in *.
    change (pow2 36) with (68719476736 # 1) in *.
    change (pow2 (-36)) with (1 # 68719476736) in *.
    set (N := (86400 * 2 ^ 36)%Z).
    assert (HN : inject_Z N == 86400 * (68719476736 # 1)) by reflexivity.
    split; intros H'.
    + destruct (Qlt_le_dec x (86400 - (1 # 137438953472))) as [Hlt|]; [exfalso | assumption].
      assert (Hm : (m < N)%Z).
      { rewrite Em. apply round_half_even_below. rewrite HN. lra. }
      rewrite Zlt_Qlt in Hm. rewrite HN in Hm. lra.
    + assert (Hm : (N <= m)%Z).
      { rewrite Em. apply round_half_even_from; [reflexivity|]. rewrite HN. lra. }
      rewrite Zle_Qle in Hm. rewrite HN in Hm. rewrite Hr. lra.
Qed.

(** The nearest float to one tenth, and a tie at [2^53 + 1] that goes to
    the even significand. *)
Lemma round_examples :
  round (1 # 10) = 3602879701896397 # 36028797018963968
  /\ round (9007199254740993 # 1) = 9007199254740992 # 1
  /\ round (9007199254740995 # 1) = 9007199254740996 # 1.
Proof. vm_compute. repeat split. Qed.

End FloatFacts.

(** ** The sweep: what it counts and when it evicts *)

Lemma sweep_alerts_count now ph pl alerts : forall n w w' m,
  run (sweep_alerts now ph pl alerts n) w = (w', Ok m) ->
  m = n + count_alerts now alerts.
Proof.
  unfold count_alerts.
  induction alerts as [|[alert_id alert_data] rest IH]; intros n w w' m Hr.
  - cbn in Hr. injection Hr as _ <-. cbn. lia.
  - cbn [sweep_alerts] in Hr. cbn [filter snd]. unfold expired.
    destruct (Py.getitem alert_data (JStr "timestamp")) as [ts|e];
      cbn [lift bind run] in Hr; [|discriminate].
    destruct (Py.truthy ts); cbn [andb]; [|apply IH in Hr; exact Hr].
    destruct (Py.truediv_int ts 1000) as [secs|e];
      cbn [lift bind run] in Hr; [|discriminate].
    destruct (Qle_bool 86400 (Py.sub_float now secs)); cbn [andb];
      [|apply IH in Hr; exact Hr].
    cbv zeta in Hr. rewrite run_bind in Hr.
    destruct (run (sweep_remove ph pl alert_id) w) as [w1 [u|e]]; [|discriminate].
    apply IH in Hr. cbn [List.length]. unfold expired in Hr. lia.
Qed.

Lemma sweep_places_count now ph places : forall n w w' m,
  run (sweep_places now ph places n) w = (w', Ok m) ->
  m = n + count_places now places.
Proof.
  induction places as [|[place alerts] rest IH]; intros n w w' m Hr.
  - cbn in Hr. injection Hr as _ <-. cbn. lia.
  - cbn [sweep_places] in Hr. cbn [count_places fold_right snd].
    destruct alerts as [| | | | |kvs]; cbn [Py.items lift bind run] in Hr;
      try discriminate.
    rewrite run_bind in Hr.
    destruct (run (sweep_alerts now ph place kvs n) w) as [w1 [k|e]] eqn:Ea;
      [|discriminate].
    apply sweep_alerts_count in Ea. apply IH in Hr.
    fold (count_places now rest). cbn [children]. lia.
Qed.

Lemma sweep_phenomena_count now phenomena : forall n w w' m,
  run (sweep_phenomena now phenomena n) w = (w', Ok m) ->
  m = n + count_phenomena now phenomena.
Proof.
  induction phenomena as [|[ph places] rest IH]; intros n w w' m Hr.
  - cbn in Hr. injection Hr as _ <-. cbn. lia.
  - cbn [sweep_phenomena] in Hr. cbn [count_phenomena fold_right snd].
    destruct places as [| | | | |kvs]; cbn [Py.items lift bind run] in Hr;
      try discriminate.
    rewrite run_bind in Hr.
    destruct (run (sweep_places now ph kvs n) w) as [w1 [k|e]] eqn:Ea;
      [|discriminate].
    apply sweep_places_count in Ea. apply IH in Hr.
    fold (count_phenomena now rest). cbn [children]. lia.
Qed.

(** X12: whenever a POST sweep returns, it returns
    [('Cleanup completed', 200)], [lastCleanupTimestamp] holds the time of
    the sweep and [lastNumOfDeletedAlerts] holds the number of children of
    place nodes, in the snapshot read at the start, that have a truthy
    [timestamp] for which the float difference of line 195 is 86400 or
    more. *)
Theorem sweep_reports_what_it_found (req : Request) (now : Q) (w w' : world)
    (r : string * Z) :
  method req = "POST" ->
  run (hourly_cleanup_http req now) w = (w', Ok r) ->
  r = ("Cleanup completed", 200)
  /\ Tree.get_path ["lastCleanupTimestamp"] (db w') = JFloat now
  /\ Tree.get_path ["lastNumOfDeletedAlerts"] (db w')
     = JInt (count_phenomena now (children (Tree.get_path [agg_root] (db w)))).
Proof.
  intros Hm Hr. unfold hourly_cleanup_http in Hr. rewrite Hm in Hr.
  change (negb ("POST" =? "POST")%string) with false in Hr. cbv iota zeta in Hr.
  change (reference agg_root) with (@Ret (list string) [agg_root]) in Hr.
  change (reference "lastCleanupTimestamp")
    with (@Ret (list string) ["lastCleanupTimestamp"]) in Hr.
  change (reference "lastNumOfDeletedAlerts")
    with (@Ret (list string) ["lastNumOfDeletedAlerts"]) in Hr.
  cbn [bind ref_get run] in Hr.
  set (got := Tree.get_path [agg_root] (db w)) in *.
  assert (Hitems : forall kvs, Py.items (Py.or_ got (JObj [])) = Ok kvs ->
                               kvs = children got).
  { intros kvs. unfold Py.or_. destruct (Py.truthy got) eqn:Et.
    - destruct got; cbn; intros [= <-] || discriminate. reflexivity.
    - intros [= <-]. destruct got as [| | | | |[|kv l]]; try reflexivity.
      discriminate. }
  destruct (Py.len (Py.or_ got (JObj []))) as [len|e];
    cbn [lift bind run] in Hr; [|discriminate].
  destruct (Py.items (Py.or_ got (JObj []))) as [kvs|e] eqn:Ei;
    cbn [lift bind run] in Hr; [|discriminate].
  rewrite (Hitems kvs eq_refl) in Hr.
  rewrite run_bind in Hr.
  destruct (run (sweep_phenomena now (children got) 0) (do_get [agg_root] w))
    as [w1 [n|e]] eqn:Es; [|discriminate].
  apply sweep_phenomena_count in Es.
  cbn [bind ref_set run] in Hr. injection Hr as <- <-.
  split; [reflexivity|]. cbn [do_set db Tree.normalise]. split.
  - rewrite TreeFacts.get_set_other by reflexivity.
    apply TreeFacts.get_set_same. now right.
  - rewrite Es. apply TreeFacts.get_set_same. now right.
Qed.

Lemma sweep_reports_what_it_found_witness :
  let w := World Scenario.legacy_db [] in
  let out := run (hourly_cleanup_http {| method := "POST" |} Scenario.sweep_time) w in
  snd out = Ok ("Cleanup completed", 200)
  /\ Tree.get_path ["lastCleanupTimestamp"] (db (fst out)) = JFloat Scenario.sweep_time
  /\ Tree.get_path ["lastNumOfDeletedAlerts"] (db (fst out)) = JInt 1.
Proof.
  cbv zeta.
  assert (Hrun : run (hourly_cleanup_http {| method := "POST" |} Scenario.sweep_time)
                     (World Scenario.legacy_db [])
                 = (fst (run (hourly_cleanup_http {| method := "POST" |}
                                Scenario.sweep_time) (World Scenario.legacy_db [])),
                    Ok ("Cleanup completed", 200))).
  { vm_compute. reflexivity. }
  destruct (@sweep_reports_what_it_found {| method := "POST" |} Scenario.sweep_time
              (World Scenario.legacy_db []) _ _ eq_refl Hrun) as (H1 & H2 & H3).
  split; [rewrite Hrun; reflexivity|]. split; [exact H2|].
  rewrite H3. vm_compute. reflexivity.
Defined.

(** The test of line 195 in exact terms. *)
Lemma age_test_exact (now seconds : Q) :
  Qle_bool 86400 (Py.sub_float now seconds)
  = Qle_bool (86400 - (1 # 137438953472)) (now - seconds).
Proof.
  unfold Py.sub_float.
  destruct (Qle_bool (86400 - (1 # 137438953472)) (now - seconds)) eqn:E.
  - apply Qle_bool_iff. apply FloatFacts.round_ge_86400. now apply Qle_bool_iff.
  - destruct (Qle_bool 86400 _) eqn:E'; [|reflexivity].
    apply Qle_bool_iff, FloatFacts.round_ge_86400, Qle_bool_iff in E'. congruence.
Qed.

(** A timestamp of up to 4,000,000,000,000,000 ms divides to a float within
    [2^-12] s of the exact quotient. *)
Lemma seconds_of_ms (ts : Z) :
  (Z.abs ts <= 4000000000000000)%Z ->
  exists seconds,
    Py.truediv_int (JInt ts) 1000 = Ok seconds
    /\ (Qabs (seconds - inject_Z ts / 1000) <= 1 # 4096)%Q.
Proof.
  intros Hts. cbn [Py.truediv_int]. unfold Py.int_truediv.
  set (x := (inject_Z ts / inject_Z 1000)%Q).
  assert (Hx : (Qabs x <= 4000000000000 # 1)%Q).
  { apply Qabs_Qle_condition. unfold x, Qle, Qdiv, Qmult, Qinv, Qopp, inject_Z. cbn. lia. }
  assert (Hp : (Qabs x < Float.pow2 (-11 + 53))%Q).
  { eapply Qle_lt_trans; [exact Hx | reflexivity]. }
  pose proof (@FloatFacts.round_error x (-11) Hp ltac:(lia)) as He.
  change (Float.pow2 (-11 - 1)) with (1 # 4096)%Q in He.
  exists (Float.round x). split; [|exact He].
  assert (Hr : (Qabs (Float.round x) < Float.pow2 1024)%Q).
  { apply Qlt_le_trans with (Float.pow2 43); [|apply FloatFacts.pow2_le; lia].
    change (Float.pow2 43) with (8796093022208 # 1)%Q.
    assert (Float.round x == (Float.round x - x) + x)%Q by ring.
    rewrite H. eapply Qle_lt_trans; [apply Qabs_triangle|]. lra. }
  unfold Float.overflows.
  destruct (Qle_bool (Float.pow2 1024) (Qabs (Float.round x))) eqn:E; [|reflexivity].
  apply Qle_bool_iff in E. exfalso. lra.
Qed.

(** X13: the sweep's test on one alert with an integer [timestamp] of up
    to 4,000,000,000,000,000 ms.  An alert whose [timestamp] is 0 is kept
    however late the sweep runs.  Otherwise the timestamp divides to a
    float [seconds] within [2^-12] s of the exact quotient, and the alert
    is removed exactly when the sweep's time less [seconds] is no less
    than [86400 - 2^-37]: so it is removed when the sweep's time is
    86400.001 s or more past the timestamp and kept when it is 86399.999 s
    or less past it, and in between, 24 hours to the millisecond included,
    the rounding decides. *)
Theorem sweep_evicts_around_24_hours (now : Q) (ts n : Z) (ph pl id : string)
    (fields rest : list (string * json)) :
  assoc "timestamp" fields = Some (JInt ts) ->
  (Z.abs ts <= 4000000000000000)%Z ->
  let step := sweep_alerts now ph pl ((id, JObj fields) :: rest) n in
  let removed := (sweep_remove ph pl id ;; sweep_alerts now ph pl rest (n + 1)) in
  let kept := sweep_alerts now ph pl rest n in
  let age := (now - inject_Z ts / 1000)%Q in
  (ts = 0%Z -> step = kept)
  /\ (ts <> 0%Z ->
      (exists seconds,
          Py.truediv_int (JInt ts) 1000 = Ok seconds
          /\ (Qabs (seconds - inject_Z ts / 1000) <= 1 # 4096)%Q
          /\ step = if Qle_bool (86400 - (1 # 137438953472)) (now - seconds)
                    then removed else kept)
      /\ ((86400 + (1 # 1000) <= age)%Q -> step = removed)
      /\ ((age <= 86400 - (1 # 1000))%Q -> step = kept)).
Proof.
  intros Hts Hb step removed kept age.
  assert (Hstep : step = if (ts =? 0)%Z then kept
                         else match Py.truediv_int (JInt ts) 1000 with
                              | Ok seconds =>
                                  if Qle_bool 86400 (Py.sub_float now seconds)
                                  then removed else kept
                              | Err e => Raise e
                              end).
  { unfold step. cbn [sweep_alerts Py.getitem]. rewrite Hts.
    cbn [lift bind Py.truthy].
    destruct (ts =? 0)%Z; cbn [negb]; [reflexivity|].
    destruct (Py.truediv_int (JInt ts) 1000); reflexivity. }
  split.
  - intros ->. exact Hstep.
  - intros Hnz. apply Z.eqb_neq in Hnz. rewrite Hnz in Hstep.
    destruct (@seconds_of_ms ts Hb) as (seconds & Hdiv & Herr).
    rewrite Hdiv, age_test_exact in Hstep.
    apply Qabs_Qle_condition in Herr. destruct Herr as [Hlo Hhi].
    split; [exists seconds; repeat split; try assumption; now apply Qabs_Qle_condition|].
    split; intros Hage; unfold age in Hage; rewrite Hstep.
    + assert (H : Qle_bool (86400 - (1 # 137438953472)) (now - seconds) = true).
      { apply Qle_bool_iff. lra. }
      now rewrite H.
    + destruct (Qle_bool (86400 - (1 # 137438953472)) (now - seconds)) eqn:E;
        [|reflexivity].
      apply Qle_bool_iff in E. exfalso. lra.
Qed.

Lemma sweep_evicts_around_24_hours_witness :
  let now := (100000 # 1)%Q in
  sweep_alerts now "FLOOD" "p" [("a", JObj [("timestamp", JInt 13599000)])] 0
  = (sweep_remove "FLOOD" "p" "a" ;; sweep_alerts now "FLOOD" "p" [] (0 + 1)).
Proof.
  destruct (@sweep_evicts_around_24_hours (100000 # 1)%Q 13599000 0 "FLOOD" "p" "a"
              [("timestamp", JInt 13599000)] [] eq_refl ltac:(vm_compute; discriminate))
    as (_ & H).
  destruct (H ltac:(discriminate)) as (_ & Hold & _).
  apply Hold. vm_compute. discriminate.
Defined.

(** Twenty-four hours to the millisecond, and the sweep keeps the alert:
    the clock stands at 2147517882.785 s, the timestamp is
    2147431482785 ms, and the two floats are [86400 - 2^-22] s apart. *)
Lemma sweep_keeps_at_24_hours_sharp :
  let now := Float.round (2147517882785 # 1000) in
  sweep_alerts now "FLOOD" "p" [("a", JObj [("timestamp", JInt 2147431482785)])] 0
  = sweep_alerts now "FLOOD" "p" [] 0
  /\ (now - Float.round (2147431482785 # 1000) == 86400 - (1 # 4194304))%Q.
Proof. vm_compute. split; reflexivity. Qed.

Lemma sweep_raises_on_first_child_witness :
  run (hourly_cleanup_http {| method := "POST" |} Scenario.sweep_time)
      (World Scenario.one_member_db [])
  = (do_get [agg_root] (World Scenario.one_member_db []), Err KeyError).
Proof.
  eapply sweep_raises_on_first_child.
  - vm_compute. reflexivity.
  - reflexivity.
Defined.

(** ** Who is an employee *)

Lemma ends_with_iff s suffix :
  ends_with s suffix = true <-> exists prefix, s = prefix ++ suffix.
Proof.
  induction s as [|a s IH]; cbn [ends_with].
  - rewrite orb_false_r, String.eqb_eq. split.
    + intros <-. now exists "".
    + intros [prefix H]. destruct prefix; cbn in H; [auto | discriminate].
  - rewrite orb_true_iff, String.eqb_eq, IH. split.
    + intros [<-|[prefix ->]]; [now exists "" | now exists (String a prefix)].
    + intros [prefix H]. destruct prefix as [|b prefix]; cbn in H.
      * now left.
      * right. injection H as _ ->. now exists prefix.
Qed.

(** X15: a signed-in caller whose token has a string [email] is answered
    [{'isCP': True}] exactly when the address ends with the characters
    [civilprotection.gr], with nothing required before them (no [@], no
    dot), and [{'isCP': False}] otherwise. *)
Theorem employee_iff_email_suffix (claims : list (string * json)) (email : string) :
  assoc "email" claims = Some (JStr email) ->
  let answer := user_is_employee {| auth_token := Some (JObj claims) |} in
  (answer = JObj [("isCP", JBool true)]
   <-> exists prefix, email = prefix ++ "civilprotection.gr")
  /\ (answer = JObj [("isCP", JBool true)] \/ answer = JObj [("isCP", JBool false)]).
Proof.
  intros He. cbv zeta. unfold user_is_employee.
  cbn [auth_token rbind Py.get]. rewrite He. cbn [rbind email_of_employee].
  rewrite <- ends_with_iff.
  destruct (ends_with email "civilprotection.gr"); split; auto;
    split; congruence.
Qed.

Lemma employee_iff_email_suffix_witness :
  let answer :=
    user_is_employee
      {| auth_token := Some (JObj [("email", JStr "eve@notcivilprotection.gr")]) |} in
  (answer = JObj [("isCP", JBool true)]
   <-> exists prefix, "eve@notcivilprotection.gr" = prefix ++ "civilprotection.gr")
  /\ (answer = JObj [("isCP", JBool true)] \/ answer = JObj [("isCP", JBool false)]).
Proof.
  apply (@employee_iff_email_suffix [("email", JStr "eve@notcivilprotection.gr")]
           "eve@notcivilprotection.gr").
  reflexivity.
Defined.

(** X16: a caller who is not signed in gets [None], as does one whose
    [email] claim is not a string; a signed-in caller without an [email]
    claim gets [{'isCP': False}]. *)
Theorem employee_without_usable_email (claims : list (string * json)) :
  user_is_employee {| auth_token := None |} = JNull
  /\ (assoc "email" claims = None ->
      user_is_employee {| auth_token := Some (JObj claims) |}
      = JObj [("isCP", JBool false)])
  /\ (forall v, assoc "email" claims = Some v -> (forall s, v <> JStr s) ->
      user_is_employee {| auth_token := Some (JObj claims) |} = JNull).
Proof.
  split; [reflexivity|]. split.
  - intros He. unfold user_is_employee. cbn [auth_token rbind Py.get]. now rewrite He.
  - intros v He Hv. unfold user_is_employee. cbn [auth_token rbind Py.get].
    rewrite He. cbn [rbind].
    destruct v; try reflexivity. now destruct (Hv s).
Qed.

(** ** The statistics of notifications *)

Lemma month_name_valid (i : Z) (month : string) :
  1 <= i <= 12 -> month_name i = Ok month -> Path.valid_key month = true.
Proof.
  intros Hi.
  assert (H : i = 1 \/ i = 2 \/ i = 3 \/ i = 4 \/ i = 5 \/ i = 6 \/ i = 7 \/ i = 8
              \/ i = 9 \/ i = 10 \/ i = 11 \/ i = 12) by lia.
  repeat (destruct H as [->|H]); try subst i; cbn; intros [= <-]; reflexivity.
Qed.

Lemma increment_counter_run (path : string) (ref : list string) (w : world) (n : Z) :
  Path.parse path = Ok ref ->
  stored_count (Tree.get_path ref (db w)) = Some n ->
  run (increment_counter path) w
  = (do_set ref (JInt (n + 1)) (do_get ref w), Ok tt).
Proof.
  intros Hp Hn. unfold increment_counter, reference. rewrite Hp.
  cbn [lift bind ref_get run].
  assert (Hc : Py.add_int (Py.or_ (Tree.get_path ref (db w)) (JInt 0)) 1
               = Ok (JInt (n + 1))).
  { destruct (Tree.get_path ref (db w)); try discriminate; injection Hn as <-.
    - reflexivity.
    - unfold Py.or_. cbn [Py.truthy]. destruct (z =? 0) eqn:E; cbn [negb Py.add_int].
      + apply Z.eqb_eq in E. now subst.
      + reflexivity. }
  rewrite Hc. reflexivity.
Qed.

(** X17: a notification with a [timestamp] the clock places in a year and
    a month, and a phenomenon, raises by one both the counter of the year
    and the counter of the month for that phenomenon (a missing counter
    counting as 0), and returns. *)
Theorem notification_counts_year_and_month (py_format : json -> string)
    (local_date : Q -> result (Z * Z)) (notification ts phenomenon : json)
    (seconds : Q) (year month_number : Z) (month : string) (w : world) (n m : Z) :
  Py.getitem notification (JStr "timestamp") = Ok ts ->
  Py.truediv_int ts 1000 = Ok seconds ->
  local_date seconds = Ok (year, month_number) ->
  1 <= month_number <= 12 ->
  month_name month_number = Ok month ->
  Py.getitem notification (JStr "criticalWeatherPhenomenon") = Ok phenomenon ->
  let y := fmt py_format (JInt year) in
  let ph := fmt py_format phenomenon in
  Path.valid_key y = true -> Path.valid_key ph = true ->
  stored_count (reports_of_year (db w) y ph) = Some n ->
  stored_count (reports_of_month (db w) y month ph) = Some m ->
  let out := run (handle_notification_upload py_format local_date notification) w in
  snd out = Ok tt
  /\ reports_of_year (db (fst out)) y ph = JInt (n + 1)
  /\ reports_of_month (db (fst out)) y month ph = JInt (m + 1).
Proof.
  intros Hts Hsec Hdate Hrange Hmonth Hph y ph Hy Hphv Hn Hm.
  pose proof (@month_name_valid month_number month Hrange Hmonth) as Hmo.
  cbv zeta. unfold handle_notification_upload.
  rewrite Hts. cbn [lift bind]. rewrite Hsec. cbn [lift bind].
  rewrite Hdate. cbn [lift bind fst snd]. rewrite Hmonth. cbn [lift bind].
  rewrite Hph. cbn [lift bind]. fold y ph.
  change (stats_root ++ "/" ++ y ++ "/sumOfReports/" ++ ph)
    with (Path.join [stats_root; y; "sumOfReports"; ph]).
  change (stats_root ++ "/" ++ y ++ "/sumPerMonth/" ++ month ++ "/" ++ ph)
    with (Path.join [stats_root; y; "sumPerMonth"; month; ph]).
  rewrite run_bind.
  rewrite (@increment_counter_run _ [stats_root; y; "sumOfReports"; ph] w n).
  2:{ apply PathFacts.parse_join; [discriminate|].
      cbn [forallb]. now rewrite Hy, Hphv. }
  2:{ exact Hn. }
  rewrite (@increment_counter_run _ [stats_root; y; "sumPerMonth"; month; ph] _ m).
  2:{ apply PathFacts.parse_join; [discriminate|].
      cbn [forallb]. now rewrite Hy, Hphv, Hmo. }
  2:{ cbn [do_set do_get db].
      rewrite TreeFacts.get_set_other; [exact Hm|].
      rewrite !diverge_same_head. reflexivity. }
  cbn [fst snd do_set do_get db Tree.normalise]. split; [reflexivity|]. split.
  - unfold reports_of_year. rewrite TreeFacts.get_set_other.
    + apply TreeFacts.get_set_same. now right.
    + rewrite !diverge_same_head. reflexivity.
  - unfold reports_of_month. apply TreeFacts.get_set_same. now right.
Qed.

Lemma notification_counts_year_and_month_witness :
  let notification := JObj [("timestamp", JInt 1700000000000);
                            ("criticalWeatherPhenomenon", JStr "FLOOD")] in
  let out := run (handle_notification_upload (fun _ => "2023")
                    (fun _ => Ok (2023, 11)) notification) (World JNull []) in
  snd out = Ok tt
  /\ reports_of_year (db (fst out)) "2023" "FLOOD" = JInt (0 + 1)
  /\ reports_of_month (db (fst out)) "2023" "November" "FLOOD" = JInt (0 + 1).
Proof.
  apply (@notification_counts_year_and_month (fun _ => "2023") (fun _ => Ok (2023, 11))
           (JObj [("timestamp", JInt 1700000000000);
                  ("criticalWeatherPhenomenon", JStr "FLOOD")])
           (JInt 1700000000000) (JStr "FLOOD")
           (1700000000 # 1)%Q 2023 11 "November"
           (World JNull []) 0 0); try reflexivity.
  lia.
Defined.

Lemma increment_counter_within root rest :
  Path.valid_key root = true ->
  writes_within [root] (increment_counter (root ++ "/" ++ rest)).
Proof.
  intros Hk. unfold increment_counter.
  apply within_reference_path; [assumption | now left | intros ref Href].
  apply within_bind; [apply within_ref_get | intros got]. cbv zeta.
  apply within_bind; [apply within_lift | intros c].
  now apply within_ref_set.
Qed.

(** X18: whatever the notification and the database, and whether it
    returns or raises, the statistics handler leaves every path outside
    [statisticsPerYear] as it was; the aggregation trees in particular. *)
Theorem notification_touches_only_statistics (py_format : json -> string)
    (local_date : Q -> result (Z * Z)) (notification : json) (w : world)
    (k : string) (q : list string) :
  k <> stats_root ->
  Tree.get_path (k :: q)
    (db (fst (run (handle_notification_upload py_format local_date notification) w)))
  = Tree.get_path (k :: q) (db w).
Proof.
  intros Hk.
  apply (@writes_within_frame [stats_root]); [|cbn; intuition congruence].
  unfold handle_notification_upload.
  repeat (apply within_bind; [apply within_lift | intros ?]). cbv zeta.
  apply within_bind; [|intros _]; now apply increment_counter_within.
Qed.

Lemma notification_touches_only_statistics_witness :
  Tree.get_path [count_root; "FLOOD"; Scenario.place_id; "counter"]
    (db (fst (run (handle_notification_upload (fun _ => "2023")
                     (fun _ => Ok (2023, 11))
                     (JObj [("timestamp", JInt 1700000000000);
                            ("criticalWeatherPhenomenon", JStr "FLOOD")]))
                  (World Scenario.two_member_db []))))
  = Tree.get_path [count_root; "FLOOD"; Scenario.place_id; "counter"]
      Scenario.two_member_db.
Proof.
  apply (@notification_touches_only_statistics (fun _ => "2023")
           (fun _ => Ok (2023, 11))
           (JObj [("timestamp", JInt 1700000000000);
                  ("criticalWeatherPhenomenon", JStr "FLOOD")])
           (World Scenario.two_member_db []) count_root
           ["FLOOD"; Scenario.place_id; "counter"]).
  discriminate.
Defined.

(** X19: the statistics handler has no validation and no [try]: a
    notification that lacks [timestamp] or [criticalWeatherPhenomenon], or
    that is [None] because the record was deleted, makes it raise before
    any database call. *)
Theorem notification_without_fields_raises (py_format : json -> string)
    (local_date : Q -> result (Z * Z)) (notification : json) (w : world) :
  (exists fields, notification = JObj fields
                  /\ (assoc "timestamp" fields = None
                      \/ assoc "criticalWeatherPhenomenon" fields = None))
  \/ notification = JNull ->
  exists e, run (handle_notification_upload py_format local_date notification) w
            = (w, Err e).
Proof.
  intros [(fields & -> & Hmiss) | ->]; unfold handle_notification_upload.
  - cbn [Py.getitem].
    destruct (assoc "timestamp" fields) as [ts|] eqn:Et;
      cbn [lift bind run]; [|eauto].
    destruct Hmiss as [Hm|Hm]; [discriminate|]. rewrite Hm.
    destruct (Py.truediv_int ts 1000) as [secs|e]; cbn [lift bind run]; [|eauto].
    destruct (local_date secs) as [date|e]; cbn [lift bind run]; [|eauto].
    destruct (month_name (snd date)) as [month|e]; cbn [lift bind run]; eauto.
  - cbn. eauto.
Qed.

Lemma notification_without_fields_raises_witness :
  exists e, run (handle_notification_upload (fun _ => "2023") (fun _ => Ok (2023, 11))
                   (JObj [("timestamp", JInt 1700000000000)]))
                (World Scenario.two_member_db [])
            = (World Scenario.two_member_db [], Err e).
Proof.
  apply notification_without_fields_raises.
  left. eexists. split; [reflexivity|]. right. reflexivity.
Defined.

(** ** Reading the geocoder's answer *)

Module GeoFacts.
Import Geo.

Lemma named_component_skips before : forall rest,
  forallb untagged before = true ->
  named_component (before ++ rest) = named_component rest.
Proof.
  induction before as [|c before IH]; intros rest Hb; [reflexivity|].
  cbn [forallb] in Hb. apply andb_prop in Hb as [Hc Hb].
  cbn [app named_component]. unfold untagged in Hc.
  destruct (item c "types") as [[| | | | |types|]|]; try discriminate.
  apply andb_prop in Hc as [H1 H2].
  apply negb_true_iff in H1, H2.
  cbn [rbind str_in]. rewrite H1. cbn [rbind str_in]. rewrite H2.
  now apply IH.
Qed.

Lemma named_component_none components :
  forallb untagged components = true -> named_component components = Ok None.
Proof.
  intros H. rewrite <- (app_nil_r components).
  now rewrite named_component_skips.
Qed.

Lemma named_component_found c rest types name :
  item c "types" = Ok (PList types) ->
  existsb (is_str "neighborhood") types || existsb (is_str "locality") types = true ->
  item c "long_name" = Ok name ->
  named_component (c :: rest) = Ok (Some name).
Proof.
  intros Ht Htag Hn. cbn [named_component]. rewrite Ht. cbn [rbind str_in].
  destruct (existsb (is_str "neighborhood") types); cbn [rbind orb] in *.
  - now rewrite Hn.
  - rewrite Htag. cbn [rbind]. now rewrite Hn.
Qed.

Lemma at_index_2 l :
  at_index (PList l) 2
  = match nth_error l 2 with
    | Some v => Ok v
    | None => Err IndexError
    end.
Proof. reflexivity. Qed.

End GeoFacts.

(** X20: in an answer with status OK, the place name is the [long_name]
    of the first address component tagged [neighborhood] or [locality],
    whatever components follow it and however the untagged ones before it
    are named; the bounds are then picked from the geometry. *)
Theorem answer_names_first_tagged_component (data status result1 geometry : Geo.pyval)
    (before after : list Geo.pyval) (component name : Geo.pyval)
    (types : list Geo.pyval) :
  Geo.item data "status" = Ok status -> Geo.is_str "OK" status = true ->
  Geo.first_result data = Ok result1 ->
  Geo.item result1 "address_components"
  = Ok (Geo.PList (before ++ component :: after)) ->
  Geo.item result1 "geometry" = Ok geometry ->
  forallb Geo.untagged before = true ->
  Geo.item component "types" = Ok (Geo.PList types) ->
  existsb (Geo.is_str "neighborhood") types || existsb (Geo.is_str "locality") types
  = true ->
  Geo.item component "long_name" = Ok name ->
  Geo.read_answer 200 data
  = rbind (Geo.pick_bounds geometry) (fun bounds => Ok (name, bounds)).
Proof.
  intros Hst Hok Hr Hc Hg Hb Ht Htag Hn. unfold Geo.read_answer.
  cbn [Z.eqb Pos.eqb negb]. rewrite Hst. cbn [rbind]. rewrite Hok. cbn [negb].
  rewrite Hr. cbn [rbind]. rewrite Hc. cbn [rbind Geo.iterate].
  rewrite (GeoFacts.named_component_skips _ _ Hb).
  rewrite (GeoFacts.named_component_found _ _ Ht Htag Hn). cbn [rbind].
  now rewrite Hg.
Qed.

(** X21: in an answer with status OK where no address component is tagged
    [neighborhood] or [locality], the place name is the [long_name] of the
    third component; when there are fewer than three components the
    function raises [IndexError], not the [ValueError] of its
    docstring. *)
Theorem answer_falls_back_to_third_component (data status result1 geometry : Geo.pyval)
    (components : list Geo.pyval) :
  Geo.item data "status" = Ok status -> Geo.is_str "OK" status = true ->
  Geo.first_result data = Ok result1 ->
  Geo.item result1 "address_components" = Ok (Geo.PList components) ->
  Geo.item result1 "geometry" = Ok geometry ->
  forallb Geo.untagged components = true ->
  match nth_error components 2 with
  | None => Geo.read_answer 200 data = Err IndexError
  | Some third =>
      Geo.read_answer 200 data
      = rbind (Geo.item third "long_name") (fun name =>
        rbind (Geo.pick_bounds geometry) (fun bounds => Ok (name, bounds)))
  end.
Proof.
  intros Hst Hok Hr Hc Hg Hb. unfold Geo.read_answer.
  cbn [Z.eqb Pos.eqb negb]. rewrite Hst. cbn [rbind]. rewrite Hok. cbn [negb].
  rewrite Hr. cbn [rbind]. rewrite Hc. cbn [rbind Geo.iterate].
  rewrite (GeoFacts.named_component_none _ Hb). cbn [rbind].
  rewrite GeoFacts.at_index_2.
  destruct (nth_error components 2) as [third|]; cbn [rbind]; [|reflexivity].
  destruct (Geo.item third "long_name"); cbn [rbind]; [|reflexivity].
  now rewrite Hg.
Qed.

(** The bounds of a geometry are its [bounds] when that is truthy, else
    its [viewport] when that is truthy. *)
Lemma bounds_before_viewport (geometry : list (string * Geo.pyval)) :
  let bounds := Geo.lookup "bounds" geometry in
  let viewport := Geo.lookup "viewport" geometry in
  Geo.pick_bounds (Geo.PDict geometry)
  = match bounds with
    | Some b => if Geo.truthy b then Ok b
                else match viewport with
                     | Some v => if Geo.truthy v then Ok v else Err ValueError
                     | None => Err ValueError
                     end
    | None => match viewport with
              | Some v => if Geo.truthy v then Ok v else Err ValueError
              | None => Err ValueError
              end
    end.
Proof.
  cbv zeta. unfold Geo.pick_bounds. cbn [Geo.get].
  destruct (Geo.lookup "bounds" geometry) as [b|]; cbn [rbind Geo.truthy].
  - destruct (Geo.truthy b) eqn:Eb; cbn [rbind]; [now rewrite Eb|].
    destruct (Geo.lookup "viewport" geometry); reflexivity.
  - destruct (Geo.lookup "viewport" geometry); reflexivity.
Qed.

Lemma answer_names_first_tagged_component_witness :
  Geo.read_answer 200
    (GeoScenario.answer [GeoScenario.street; GeoScenario.quarter; GeoScenario.city])
  = rbind (Geo.pick_bounds GeoScenario.geometry)
      (fun bounds => Ok (Geo.PStr "Kolonaki", bounds)).
Proof.
  apply (@answer_names_first_tagged_component
           (GeoScenario.answer [GeoScenario.street; GeoScenario.quarter;
                                GeoScenario.city])
           (Geo.PStr "OK")
           (Geo.PDict [("address_components",
                        Geo.PList [GeoScenario.street; GeoScenario.quarter;
                                   GeoScenario.city]);
                       ("geometry", GeoScenario.geometry)])
           GeoScenario.geometry [GeoScenario.street] [GeoScenario.city]
           GeoScenario.quarter (Geo.PStr "Kolonaki")
           [Geo.PStr "neighborhood"; Geo.PStr "political"]); reflexivity.
Defined.

Lemma answer_falls_back_to_third_component_witness :
  Geo.read_answer 200 (GeoScenario.answer [GeoScenario.street; GeoScenario.region])
  = Err IndexError.
Proof.
  apply (@answer_falls_back_to_third_component
           (GeoScenario.answer [GeoScenario.street; GeoScenario.region])
           (Geo.PStr "OK")
           (Geo.PDict [("address_components",
                        Geo.PList [GeoScenario.street; GeoScenario.region]);
                       ("geometry", GeoScenario.geometry)])
           GeoScenario.geometry [GeoScenario.street; GeoScenario.region]);
    reflexivity.
Defined.

(** ** The place id *)

(** One corner coordinate of a bounding box, [bounds[corner][axis]]. *)
Lemma place_id_corner_chain (py_format : json -> string)
    (sha256_hex16 : string -> string) (place : string) (bounds : json) :
  get_short_place_id py_format sha256_hex16 place bounds
  = rbind (rbind (Py.getitem bounds (JStr "northeast"))
                 (fun c => Py.getitem c (JStr "lat"))) (fun ne_lat =>
    rbind (rbind (Py.getitem bounds (JStr "northeast"))
                 (fun c => Py.getitem c (JStr "lng"))) (fun ne_lng =>
    rbind (rbind (Py.getitem bounds (JStr "southwest"))
                 (fun c => Py.getitem c (JStr "lat"))) (fun sw_lat =>
    rbind (rbind (Py.getitem bounds (JStr "southwest"))
                 (fun c => Py.getitem c (JStr "lng"))) (fun sw_lng =>
      Ok (sha256_hex16
            (place ++ "_" ++ fmt py_format ne_lat ++ "_" ++ fmt py_format ne_lng
                   ++ "_" ++ fmt py_format sw_lat ++ "_" ++ fmt py_format sw_lng)))))).
Proof.
  unfold get_short_place_id.
  destruct (Py.getitem bounds (JStr "northeast")) as [ne|]; cbn [rbind]; [|reflexivity].
  destruct (Py.getitem ne (JStr "lat")); cbn [rbind]; [|reflexivity].
  destruct (Py.getitem ne (JStr "lng")); cbn [rbind]; [|reflexivity].
  destruct (Py.getitem bounds (JStr "southwest")) as [sw|]; cbn [rbind]; [|reflexivity].
  destruct (Py.getitem sw (JStr "lat")); cbn [rbind]; reflexivity.
Qed.

(** X23: the place id depends on the place name and on the four corner
    coordinates of the bounding box only: two boxes that agree on
    [northeast.lat], [northeast.lng], [southwest.lat] and [southwest.lng]
    (as values or as the error their lookup raises) give the same id, or
    the same error, for the same place name. *)
Theorem place_id_depends_on_corners_only (py_format : json -> string)
    (sha256_hex16 : string -> string) (place : string) (bounds bounds' : json) :
  (forall corner axis,
      In corner ["northeast"; "southwest"] -> In axis ["lat"; "lng"] ->
      rbind (Py.getitem bounds (JStr corner)) (fun c => Py.getitem c (JStr axis))
      = rbind (Py.getitem bounds' (JStr corner)) (fun c => Py.getitem c (JStr axis))) ->
  get_short_place_id py_format sha256_hex16 place bounds
  = get_short_place_id py_format sha256_hex16 place bounds'.
Proof.
  intros H. rewrite !place_id_corner_chain.
  rewrite (H "northeast" "lat"), (H "northeast" "lng"),
    (H "southwest" "lat"), (H "southwest" "lng"); cbn; auto.
Qed.

Lemma place_id_depends_on_corners_only_witness :
  get_short_place_id Scenario.format_other Scenario.digest "Kolonaki"
    Scenario.kolonaki_bounds
  = get_short_place_id Scenario.format_other Scenario.digest "Kolonaki"
      (JObj (("copyright", JStr "x") :: children Scenario.kolonaki_bounds)).
Proof.
  apply place_id_depends_on_corners_only.
  intros corner axis [<-|[<-|[]]] [<-|[<-|[]]]; reflexivity.
Defined.

(** X22: in an answer with status OK whose place name is found, the
    bounds returned are the geometry's [bounds] when that is truthy,
    whatever the [viewport]; else its [viewport] when that is truthy; and
    with neither the function raises [ValueError] although it has a
    name. *)
Theorem answer_takes_bounds_or_viewport (data status result1 : Geo.pyval)
    (geometry : list (string * Geo.pyval))
    (components : list Geo.pyval) (component name : Geo.pyval)
    (types : list Geo.pyval) :
  Geo.item data "status" = Ok status -> Geo.is_str "OK" status = true ->
  Geo.first_result data = Ok result1 ->
  Geo.item result1 "address_components" = Ok (Geo.PList (component :: components)) ->
  Geo.item result1 "geometry" = Ok (Geo.PDict geometry) ->
  Geo.item component "types" = Ok (Geo.PList types) ->
  existsb (Geo.is_str "neighborhood") types || existsb (Geo.is_str "locality") types
  = true ->
  Geo.item component "long_name" = Ok name ->
  let usable entry :=
    match Geo.lookup entry geometry with
    | Some v => if Geo.truthy v then Some v else None
    | None => None
    end in
  Geo.read_answer 200 data
  = match usable "bounds", usable "viewport" with
    | Some bounds, _ => Ok (name, bounds)
    | None, Some viewport => Ok (name, viewport)
    | None, None => Err ValueError
    end.
Proof.
  intros Hst Hok Hr Hc Hg Ht Htag Hn usable.
  rewrite (@answer_names_first_tagged_component data status result1
             (Geo.PDict geometry) [] components component name types
             Hst Hok Hr Hc Hg eq_refl Ht Htag Hn).
  rewrite bounds_before_viewport. subst usable. cbv beta zeta.
  destruct (Geo.lookup "bounds" geometry) as [b|];
    [destruct (Geo.truthy b); [reflexivity|]|];
    (destruct (Geo.lookup "viewport" geometry) as [v|];
     [destruct (Geo.truthy v)|]; reflexivity).
Qed.

Lemma answer_takes_bounds_or_viewport_witness :
  Geo.read_answer 200 (GeoScenario.answer [GeoScenario.city; GeoScenario.region])
  = Ok (Geo.PStr "Athina", GeoScenario.viewport).
Proof.
  apply (@answer_takes_bounds_or_viewport
           (GeoScenario.answer [GeoScenario.city; GeoScenario.region])
           (Geo.PStr "OK")
           (Geo.PDict [("address_components",
                        Geo.PList [GeoScenario.city; GeoScenario.region]);
                       ("geometry", GeoScenario.geometry)])
           [("viewport", GeoScenario.viewport)] [GeoScenario.region]
           GeoScenario.city (Geo.PStr "Athina")
           [Geo.PStr "locality"; Geo.PStr "political"]); reflexivity.
Defined.

(** ** The sweep's removal of a member that is not the last *)

Lemma children_after_delete p : forall k t,
  children (Tree.get_path p (Tree.set_path (p ++ [k]) JNull t))
  = remove_key k (children (Tree.get_path p t)).
Proof.
  induction p as [|k0 p IH]; intros k t.
  - cbn [app Tree.get_path Tree.set_path Tree.is_empty].
    destruct t; try reflexivity. apply TreeFacts.children_mk_obj.
  - cbn [app Tree.get_path]. rewrite TreeFacts.child_set_path_same. cbv zeta.
    destruct (Tree.is_empty (Tree.set_path (p ++ [k]) JNull (Tree.child k0 t))) eqn:E.
    + rewrite TreeFacts.get_path_null. cbn [children].
      rewrite <- IH. symmetry.
      destruct p as [|k1 p'].
      * cbn [app Tree.get_path] in *.
        destruct (Tree.set_path [k] JNull (Tree.child k0 t)) as [| | | | |[|]];
          try discriminate; reflexivity.
      * rewrite TreeFacts.get_path_empty; [reflexivity | discriminate | exact E].
    + apply IH.
Qed.

(** X24: when the counter of a bucket is an integer of 2 or more, the
    sweep's removal of a member takes exactly that member out of the
    bucket, leaves the other members as they were, writes the counter
    minus one and keeps the bounds. *)
Theorem sweep_removal_decrements (ph pl id : string) (w : world) (n : Z) :
  forallb Path.valid_key [ph; pl; id] = true ->
  counter_at (db w) ph pl = JInt n -> 2 <= n ->
  let out := run (sweep_remove ph pl id) w in
  snd out = Ok tt
  /\ members (db (fst out)) ph pl = remove_key id (members (db w) ph pl)
  /\ counter_at (db (fst out)) ph pl = JInt (n - 1)
  /\ Tree.get_path [agg_root; ph; pl; "bounds"] (db (fst out))
     = Tree.get_path [agg_root; ph; pl; "bounds"] (db w).
Proof.
  intros Hk Hc Hn. cbn [forallb] in Hk.
  apply andb_prop in Hk as [Hph Hk]. apply andb_prop in Hk as [Hpl Hk].
  apply andb_prop in Hk as [Hid _].
  assert (Hrun : run (sweep_remove ph pl id) w
                 = (do_set [count_root; ph; pl; "counter"] (JInt (n - 1))
                      (do_get [count_root; ph; pl; "counter"]
                         (do_delete [agg_root; ph; pl; "alertForms"; id] w)), Ok tt)).
  { unfold sweep_remove, decrement_counter.
    change (agg_root ++ "/" ++ ph ++ "/" ++ pl ++ "/alertForms/" ++ id)
      with (Path.join [agg_root; ph; pl; "alertForms"; id]).
    change (count_root ++ "/" ++ ph ++ "/" ++ pl ++ "/counter")
      with (Path.join [count_root; ph; pl; "counter"]).
    change (count_root ++ "/" ++ ph ++ "/" ++ pl)
      with (Path.join [count_root; ph; pl]).
    rewrite !reference_join;
      try discriminate;
      try (cbn [forallb]; rewrite Hph, Hpl, ?Hid; reflexivity).
    cbn [bind ref_delete ref_get run do_delete db].
    rewrite TreeFacts.get_set_other by reflexivity.
    fold (counter_at (db w) ph pl). rewrite Hc.
    assert (Ho : Py.or_ (JInt n) (JInt 0) = JInt n).
    { unfold Py.or_. cbn [Py.truthy]. destruct (n =? 0) eqn:E; [|reflexivity].
      apply Z.eqb_eq in E. lia. }
    rewrite Ho. cbn [Py.sub_int lift bind Py.max0].
    assert (H1 : (0 <? n - 1) = true) by (apply Z.ltb_lt; lia).
    rewrite H1. cbn [Py.eq0].
    assert (H2 : (n - 1 =? 0) = false) by (apply Z.eqb_neq; lia).
    rewrite H2. reflexivity. }
  cbv zeta. rewrite Hrun. cbn [fst snd do_set do_delete do_get db Tree.normalise].
  set (s1 := Tree.set_path [agg_root; ph; pl; "alertForms"; id] JNull (db w)).
  assert (Hagg : forall q, Tree.get_path (agg_root :: q)
                   (Tree.set_path [count_root; ph; pl; "counter"] (JInt (n - 1)) s1)
                 = Tree.get_path (agg_root :: q) s1).
  { intros q. now rewrite TreeFacts.get_set_other by reflexivity. }
  split; [reflexivity|]. split; [|split].
  - unfold members. rewrite Hagg.
    apply (children_after_delete [agg_root; ph; pl; "alertForms"]).
  - apply TreeFacts.get_set_same. now right.
  - rewrite Hagg. unfold s1. apply TreeFacts.get_set_other.
    rewrite !diverge_same_head. reflexivity.
Qed.

Lemma sweep_removal_decrements_witness :
  let out := run (sweep_remove "FLOOD" Scenario.place_id "old")
                 (World Scenario.two_member_db []) in
  snd out = Ok tt
  /\ members (db (fst out)) "FLOOD" Scenario.place_id
     = remove_key "old" (members Scenario.two_member_db "FLOOD" Scenario.place_id)
  /\ counter_at (db (fst out)) "FLOOD" Scenario.place_id = JInt (2 - 1)
  /\ Tree.get_path [agg_root; "FLOOD"; Scenario.place_id; "bounds"] (db (fst out))
     = Tree.get_path [agg_root; "FLOOD"; Scenario.place_id; "bounds"]
         Scenario.two_member_db.
Proof.
  apply (@sweep_removal_decrements "FLOOD" Scenario.place_id "old"
           (World Scenario.two_member_db []) 2); [reflexivity | reflexivity | lia].
Defined.

(** ** What is stored of an alert *)

Lemma norm_members_keys k l :
  has_key k (Tree.norm_members l) = true -> In k (keys l).
Proof.
  unfold has_key. induction l as [|[k' c] rest IH]; cbn [Tree.norm_members]; [discriminate|].
  destruct (Tree.is_empty (Tree.normalise c)); cbn [keys map fst assoc].
  - intros H. right. now apply IH.
  - destruct (String.eqb k k') eqn:E.
    + apply String.eqb_eq in E. now left.
    + intros H. right. now apply IH.
Qed.

Ltac unfold_chain H :=
  repeat match type of H with
         | rbind ?r _ = Ok _ =>
             let E := fresh "E" in
             destruct r eqn:E; [cbn [rbind] in H | discriminate H]
         | (let '(_, _) := ?x in _) = Ok _ => destruct x
         end.

(** X25: the record the ingestion stores for an accepted event has no
    field beyond [location], [timestamp], [time], [imageURL],
    [criticalLevel] and [message]: whatever else the alert form holds is
    not copied; [time] is always there and the optional fields that the
    form lacks are absent. *)
Theorem stored_record_fields (py_format : json -> string)
    (geocode : json -> json -> result (string * json))
    (sha256_hex16 : string -> string) (clock_text : Q -> result string)
    (event : Event) (p : Prepared) (fields : list (string * json)) :
  accepted py_format geocode sha256_hex16 clock_text event = Some p ->
  after event = JObj fields ->
  let record := children (Tree.normalise (p_data p)) in
  (forall k, has_key k record = true ->
             In k ["location"; "timestamp"; "time"; "imageURL"; "criticalLevel";
                   "message"])
  /\ has_key "time" record = true
  /\ (forall k, In k ["imageURL"; "criticalLevel"; "message"] ->
                assoc k fields = None -> has_key k record = false).
Proof.
  intros Ha Hf. destruct (accepted_inv _ _ _ _ _ Ha) as [_ Hprep].
  rewrite Hf in Hprep. unfold prepare_alert in Hprep. unfold_chain Hprep.
  injection Hprep as <-. cbn [p_data]. cbv zeta.
  rewrite NormaliseFacts.normalise_obj, TreeFacts.children_mk_obj.
  split; [|split].
  - intros k Hk. apply norm_members_keys in Hk. exact Hk.
  - cbn [Tree.norm_members Tree.normalise Tree.is_empty].
    repeat match goal with
           | |- context [if ?b then _ else _] => destruct b
           end; reflexivity.
  - intros k Hin Hnone.
    repeat match goal with
           | E : Py.get (JObj fields) ?key JNull = Ok ?v |- _ =>
               cbn [Py.get] in E;
               lazymatch key with
               | "location" => clear E
               | "timestamp" => clear E
               | _ => idtac
               end;
               revert E
           end.
    cbn [Py.get]. cbn [In] in Hin.
    destruct Hin as [<-|[<-|[<-|[]]]]; rewrite Hnone; intros;
      repeat match goal with
             | E : Ok _ = Ok _ |- _ => injection E as <-
             end;
      cbn [Tree.norm_members Tree.normalise Tree.is_empty];
      repeat match goal with
             | |- context [if ?b then _ else _] => destruct b
             end; reflexivity.
Qed.

Lemma stored_record_fields_witness :
  let record := children (Tree.normalise (p_data (Scenario.prepared Scenario.old))) in
  (forall k, has_key k record = true ->
             In k ["location"; "timestamp"; "time"; "imageURL"; "criticalLevel";
                   "message"])
  /\ has_key "time" record = true
  /\ (forall k, In k ["imageURL"; "criticalLevel"; "message"] ->
                assoc k (children (after Scenario.old)) = None ->
                has_key k record = false).
Proof.
  apply (@stored_record_fields Scenario.format_other Scenario.geocode
           Scenario.digest Scenario.clock Scenario.old
           (Scenario.prepared Scenario.old) (children (after Scenario.old)));
    reflexivity.
Defined.
